(** * The go_theory generator scripts

    A shallow embedding of the six Python scripts under [go_theory/]:
    [CREATE_FULL_THEORY.py], [FINAL_GENERATOR.py], [GENERATE_ALL_THEORIES.py],
    [generate_all_theory_files.py], [generate_comprehensive_theory.py] and
    [generate_theories.py].

    The scripts only touch the outside world through [print], [os.makedirs],
    [open(..., 'w')], [os.listdir], [os.path.exists], [os.chdir] and one
    [import].  Those are modelled over an explicit process state (a POSIX
    directory tree of directories and regular files, without symbolic
    links, permissions or quotas, with the limits of Linux on the length of
    a name and of a path; a working directory; and what has been printed,
    imported and called so far) and a read-only environment (the locale's
    codec, the value of [__file__], and the sibling module an [import] may
    find).  A state stands for a process when its map is a tree (every
    entry lies in a directory of the map) and the working directory is a
    directory of it.  A Python [str] is a Rocq [string] holding the bytes
    UTF-8 gives its code points, surrogates included; a file holds
    bytes. *)

From Stdlib Require Import String Ascii ZArith DecimalString List Bool Lia.
From stdpp Require Import gmap strings list fin_maps.

Open Scope string_scope.
Open Scope list_scope.

(** ** Python strings *)

Module Py.

(** [s * n] for a string [s] and a count [n]. *)
Fixpoint repeat_str (s : string) (n : nat) : string :=
  match n with
  | O => ""
  | S k => s +:+ repeat_str s k
  end.

(** [s.split(sep)] for a one-character separator: every separator cuts,
    empty pieces are kept, and the result always has at least one piece. *)
Fixpoint split (sep : ascii) (s : string) : list string :=
  match s with
  | "" => [""]
  | String c r =>
      if Ascii.eqb c sep then "" :: split sep r
      else match split sep r with
           | h :: t => String c h :: t
           | [] => [String c ""]
           end
  end.

(** [s.startswith(p)]. *)
Definition startswith (s p : string) : bool := String.prefix p s.

(** [s.endswith(p)] for a one-character [p]. *)
Fixpoint ends_with_char (s : string) (c : ascii) : bool :=
  match s with
  | "" => false
  | String a "" => Ascii.eqb a c
  | String _ r => ends_with_char r c
  end.

(** [s.rstrip(c)]: drop the trailing run of [c]. *)
Fixpoint rstrip (c : ascii) (s : string) : string :=
  match s with
  | "" => ""
  | String a r =>
      match rstrip c r with
      | "" => if Ascii.eqb a c then "" else String a ""
      | r' => String a r'
      end
  end.

(** [s == c * len(s)]: the string consists of [c] only. *)
Fixpoint all_char (c : ascii) (s : string) : bool :=
  match s with
  | "" => true
  | String a r => Ascii.eqb a c && all_char c r
  end.

(** [lo <= c <= hi], for a byte. *)
Definition byte_in (lo hi : nat) (c : ascii) : bool :=
  (lo <=? nat_of_ascii c)%nat && (nat_of_ascii c <=? hi)%nat.

(** [s.replace(old, new)]: every non-overlapping occurrence, left to
    right.  [skip] counts the bytes of a match still to be dropped.  An
    empty [old] matches before every character and at the end; a
    character starts at a byte that is not a continuation byte
    ([0x80..0xBF]) of the UTF-8 form. *)
Fixpoint replace_from (old new : string) (skip : nat) (s : string) : string :=
  match s with
  | "" => match old with "" => new | _ => "" end
  | String c r =>
      match skip with
      | S k => replace_from old new k r
      | O =>
          if String.prefix old s then
            match old with
            | "" =>
                if byte_in 128 191 c then String c (replace_from old new 0 r)
                else new +:+ String c (replace_from old new 0 r)
            | _ => new +:+ replace_from old new (String.length old - 1) r
            end
          else String c (replace_from old new 0 r)
      end
  end.

Definition replace (s old new : string) : string := replace_from old new 0 s.

(** [str(n)] and the [{n}] field of an f-string, for an [int]. *)
Definition str_of_int (n : Z) : string := NilZero.string_of_int (Z.to_int n).

(** The [{n:02d}] field of an f-string: sign-aware zero padding to width 2. *)
Definition fmt_02d (n : Z) : string :=
  let digits := str_of_int (Z.abs n) in
  let sign := if (n <? 0)%Z then "-" else "" in
  let width := String.length sign + String.length digits in
  sign +:+ repeat_str "0" (2 - width) +:+ digits.

(** [l[-k]] for [k >= 1]: [None] stands for [IndexError]. *)
Definition index_from_end {A} (l : list A) (k : nat) : option A :=
  if (k <=? length l)%nat then nth_error l (length l - k) else None.

(** The exceptions the scripts can meet. *)
Inductive exn :=
| FileNotFoundError
| FileExistsError
| NotADirectoryError
| IsADirectoryError
| UnicodeEncodeError
| ValueError
| OSError (errno : nat)
| ImportError
| IndexError
| KeyError
| SyntaxError
| RecursionError
| SystemExit (code : Z).

#[global] Instance exn_eq_dec : EqDecision exn.
Proof. solve_decision. Defined.

Inductive result (A : Type) :=
| Ok (a : A)
| Raise (e : exn).
Arguments Ok {A} a.
Arguments Raise {A} e.

(** What the shell sees when the interpreter ends with this result: an
    uncaught [SystemExit n] gives [n], any other uncaught exception 1. *)
Definition exit_status {A} (r : result A) : Z :=
  match r with
  | Ok _ => 0
  | Raise (SystemExit n) => n
  | Raise _ => 1
  end.

(** *** Text

    A [str] is a sequence of code points, held here as the bytes UTF-8
    gives each of them.  A [str] may hold surrogate code points
    (U+D800..U+DFFF), for which UTF-8 proper has no bytes; such a code
    point is held as the three bytes the same scheme gives it: [0xED],
    then a byte from [0xA0].  In text without surrogates a byte [0xED] is
    always followed by a byte in [0x80..0x9F]. *)

(** The text holds a surrogate code point. *)
Fixpoint has_surrogate (s : string) : bool :=
  match s with
  | "" => false
  | String c r =>
      ((nat_of_ascii c =? 237)%nat
       && negb (match r with String d _ => byte_in 128 159 d | "" => false end))
      || has_surrogate r
  end.

(** The text holds a NUL character. *)
Fixpoint has_nul (s : string) : bool :=
  match s with
  | "" => false
  | String c r => Ascii.eqb c zero || has_nul r
  end.

(** *** Text codecs

    [open(path, 'w')] without [encoding=] and [sys.stdout] encode text with
    the locale's codec.  Three codecs stand for the locales a POSIX
    interpreter can run under. *)
Inductive codec := utf_8 | latin_1 | ascii_only.

Definition is_ascii_char (c : ascii) : bool := (nat_of_ascii c <? 128)%nat.

Fixpoint is_ascii (s : string) : bool :=
  match s with
  | "" => true
  | String c r => is_ascii_char c && is_ascii r
  end.

(** Latin-1 encoding of text: code points below 256 become one byte,
    anything else cannot be encoded. *)
Fixpoint encode_latin_1 (s : string) : option string :=
  match s with
  | "" => Some ""
  | String c r =>
      let n := nat_of_ascii c in
      if (n <? 128)%nat then option_map (String c) (encode_latin_1 r)
      else match r with
           | String d r' =>
               let m := nat_of_ascii d in
               if ((n =? 194)%nat || (n =? 195)%nat) && (128 <=? m)%nat && (m <? 192)%nat
               then option_map (String (ascii_of_nat (m + (n - 194) * 64)))
                               (encode_latin_1 r')
               else None
           | "" => None
           end
  end.

(** [text.encode(codec)] with the [strict] error handler; [None] stands
    for [UnicodeEncodeError].  UTF-8 refuses surrogates. *)
Definition encode (k : codec) (s : string) : option string :=
  match k with
  | utf_8 => if has_surrogate s then None else Some s
  | latin_1 => encode_latin_1 s
  | ascii_only => if is_ascii s then Some s else None
  end.

End Py.

(** ** The process: environment, state and the monad of statements *)

Module Proc.
Import Py.

(** A node of the directory tree; a file holds its bytes. *)
Inductive node :=
| Dir
| File (bytes : string).

(** What a run leaves behind for an observer, in order. *)
Inductive event :=
| EvPrint (text : string)
| EvImport (module : string)
| EvCall (function : string).

#[global] Instance node_eq_dec : EqDecision node.
Proof. solve_decision. Defined.

#[global] Instance event_eq_dec : EqDecision event.
Proof. solve_decision. Defined.

(** The directory tree maps an absolute path, as the list of its
    components below the root, to the node there; the root is always a
    directory. *)
Record state := mkState {
  st_fs : gmap (list string) node;
  st_cwd : list string;
  st_trace : list event
}.

(** What a function of a module that is not part of the repository may do
    when called: change the tree and the working directory, print lines,
    return or raise. *)
Definition foreign : Type :=
  gmap (list string) node -> list string ->
  result unit * gmap (list string) node * list string * list string.

(** What the interpreter is started with: the codec of the locale, the
    value of [__file__], and the function [generate_all_theories] of a
    module [generate_all_content] on the import path, if there is one. *)
Record env := mkEnv {
  env_locale : codec;
  env_file : string;
  env_generate_all_content : option foreign
}.

(** A statement (or an expression with effects): it reads the environment,
    changes the state, and returns a value or raises. *)
Definition M (A : Type) : Type := env -> state -> result A * state.

Definition ret {A} (a : A) : M A := fun _ s => (Ok a, s).

Definition bind {A B} (m : M A) (k : A -> M B) : M B :=
  fun e s =>
    match m e s with
    | (Ok a, s') => k a e s'
    | (Raise x, s') => (Raise x, s')
    end.

Definition raise {A} (x : exn) : M A := fun _ s => (Raise x, s).

(** [try: body  except <exception>: handler], for the exceptions [catches]
    selects; [SystemExit] and everything else passes through. *)
Definition try_except {A} (body : M A) (catches : exn -> bool) (handler : M A) : M A :=
  fun e s =>
    match body e s with
    | (Ok a, s') => (Ok a, s')
    | (Raise x, s') => if catches x then handler e s' else (Raise x, s')
    end.

Definition lift_option {A} (x : exn) (o : option A) : M A :=
  match o with
  | Some a => ret a
  | None => raise x
  end.

Declare Scope py_scope.
Delimit Scope py_scope with py.
Notation "x <- m ;; k" := (bind m (fun x => k))
  (at level 100, m at next level, k at level 200, right associativity) : py_scope.
Notation "m ;; k" := (bind m (fun _ => k))
  (at level 100, k at level 200, right associativity) : py_scope.

(** [for x in xs: body x], stopping at the first exception. *)
Fixpoint for_each {A} (xs : list A) (body : A -> M unit) : M unit :=
  match xs with
  | [] => ret tt
  | x :: rest => bind (body x) (fun _ => for_each rest body)
  end.

(** [print(text)]: the text goes to standard output through the locale's
    codec. *)
Definition print (text : string) : M unit :=
  fun e s =>
    match encode (env_locale e) text with
    | Some _ => (Ok tt, mkState (st_fs s) (st_cwd s) (st_trace s ++ [EvPrint text]))
    | None => (Raise UnicodeEncodeError, s)
    end.

(** Records an event that is not a [print]. *)
Definition log (ev : event) : M unit :=
  fun _ s => (Ok tt, mkState (st_fs s) (st_cwd s) (st_trace s ++ [ev])).

(** The state after the events [evs] have been observed. *)
Definition add_events (s : state) (evs : list event) : state :=
  mkState (st_fs s) (st_cwd s) (st_trace s ++ evs).

(** The exceptions of the [OSError] family that file operations raise. *)
Definition os_error (x : exn) : bool :=
  match x with
  | FileNotFoundError | FileExistsError | NotADirectoryError | IsADirectoryError
  | OSError _ => true
  | _ => false
  end.

(** The exceptions a path can raise in a function of [os] or in [open]:
    an [OSError], [ValueError] for a NUL, [UnicodeEncodeError] for a
    surrogate. *)
Definition path_error (x : exn) : bool :=
  os_error x
  || match x with
     | ValueError | UnicodeEncodeError => true
     | _ => false
     end.

(** The lines a run has printed. *)
Definition printed (s : state) : list string :=
  omap (fun ev => match ev with EvPrint t => Some t | _ => None end) (st_trace s).

(** How often the function [f] has been called. *)
Definition calls (f : string) (s : state) : nat :=
  length (filter (fun ev => ev = EvCall f) (st_trace s)).

(** A script handles no exception itself: run as a script, it ends as its
    statements end, exceptions included. *)
Definition handles_nothing (script statements : M unit) : Prop :=
  forall e s, script e s = statements e s.

End Proc.

(** ** The [os] and [os.path] functions the scripts call (POSIX) *)

Module Os.
Import Py Proc.
Local Open Scope py_scope.

(** *** [os.path]: string functions *)

(** [(p[:i], p[i:])] for [i = p.rfind('/') + 1]. *)
Fixpoint cut_at_last_slash (p : string) : string * string :=
  match p with
  | "" => ("", "")
  | String c r =>
      let (h, t) := cut_at_last_slash r in
      match h with
      | "" => if Ascii.eqb c "/" then (String c "", t) else ("", String c t)
      | _ => (String c h, t)
      end
  end.

(** [os.path.split(p)]. *)
Definition path_split (p : string) : string * string :=
  let (head, tail) := cut_at_last_slash p in
  (if negb (String.eqb head "") && negb (all_char "/" head) then rstrip "/" head else head,
   tail).

(** [os.path.dirname(p)]. *)
Definition dirname (p : string) : string := fst (path_split p).

(** One step of [os.path.join]. *)
Definition join2 (path b : string) : string :=
  if startswith b "/" then b
  else if String.eqb path "" || ends_with_char path "/" then path +:+ b
  else path +:+ "/" +:+ b.

(** [os.path.join(a, *p)]. *)
Definition join (a : string) (p : list string) : string := fold_left join2 p a.

(** The loop of [os.path.normpath] over the components; [new_comps] is
    kept reversed. *)
Fixpoint normpath_comps (initial_slashes : bool) (new_comps comps : list string)
  : list string :=
  match comps with
  | [] => rev new_comps
  | comp :: rest =>
      if String.eqb comp "" || String.eqb comp "." then
        normpath_comps initial_slashes new_comps rest
      else if negb (String.eqb comp "..")
              || (negb initial_slashes && match new_comps with [] => true | _ => false end)
              || match new_comps with last :: _ => String.eqb last ".." | [] => false end
      then normpath_comps initial_slashes (comp :: new_comps) rest
      else normpath_comps initial_slashes (tl new_comps) rest
  end.

(** [os.path.normpath(path)]. *)
Definition normpath (path : string) : string :=
  if String.eqb path "" then "."
  else
    let initial_slashes : nat :=
      if startswith path "/" then
        if startswith path "//" && negb (startswith path "///") then 2 else 1
      else 0 in
    let comps := normpath_comps (negb (Nat.eqb initial_slashes 0)) [] (split "/" path) in
    let path' := repeat_str "/" initial_slashes +:+ String.concat "/" comps in
    if String.eqb path' "" then "." else path'.

(** *** File names

    The names of the tree are byte strings.  [os.fsencode] turns a [str]
    into the bytes handed to the system: UTF-8 with the [surrogateescape]
    error handler, under which a surrogate U+DC80..U+DCFF stands for the
    single byte [0x80..0xFF] and any other surrogate cannot be encoded
    ([None] stands for [UnicodeEncodeError]). *)
Fixpoint fsencode (s : string) : option string :=
  match s with
  | "" => Some ""
  | String c r =>
      match r with
      | String d (String x r') =>
          if (nat_of_ascii c =? 237)%nat && (160 <=? nat_of_ascii d)%nat then
            if byte_in 178 179 d
            then option_map
                   (String (ascii_of_nat (128 + (nat_of_ascii d - 178) * 64
                                          + (nat_of_ascii x - 128))))
                   (fsencode r')
            else None
          else option_map (String c) (fsencode r)
      | _ => option_map (String c) (fsencode r)
      end
  end.

Definition is_cont (c : ascii) : bool := byte_in 128 191 c.

(** The length of the UTF-8 sequence the bytes [s] start with; 0 when they
    start with none. *)
Definition utf8_len (s : string) : nat :=
  match s with
  | "" => 0
  | String a r =>
      let n := nat_of_ascii a in
      if (n <? 128)%nat then 1
      else match r with
           | "" => 0
           | String b r1 =>
               if byte_in 194 223 a then (if is_cont b then 2 else 0)
               else match r1 with
                    | "" => 0
                    | String c r2 =>
                        if (n =? 224)%nat
                        then (if byte_in 160 191 b && is_cont c then 3 else 0)
                        else if (n =? 237)%nat
                        then (if byte_in 128 159 b && is_cont c then 3 else 0)
                        else if byte_in 225 239 a
                        then (if is_cont b && is_cont c then 3 else 0)
                        else match r2 with
                             | "" => 0
                             | String d _ =>
                                 if (n =? 240)%nat
                                 then (if byte_in 144 191 b && is_cont c && is_cont d
                                       then 4 else 0)
                                 else if byte_in 241 243 a
                                 then (if is_cont b && is_cont c && is_cont d
                                       then 4 else 0)
                                 else if (n =? 244)%nat
                                 then (if byte_in 128 143 b && is_cont c && is_cont d
                                       then 4 else 0)
                                 else 0
                             end
                    end
           end
  end.

(** The surrogate that stands for a byte from [0x80]. *)
Definition escape_byte (a : ascii) : string :=
  let n := (nat_of_ascii a - 128)%nat in
  String (ascii_of_nat 237)
    (String (ascii_of_nat (178 + n / 64)) (String (ascii_of_nat (128 + n mod 64)) "")).

(** [os.fsdecode]: bytes that are UTF-8 are kept, every other byte is
    escaped; [copy] counts the bytes of a sequence still to be kept. *)
Fixpoint fsdecode_from (copy : nat) (s : string) : string :=
  match s with
  | "" => ""
  | String a r =>
      match copy with
      | S k => String a (fsdecode_from k r)
      | O =>
          match utf8_len s with
          | O => escape_byte a +:+ fsdecode_from 0 r
          | S k => String a (fsdecode_from k r)
          end
      end
  end.

Definition fsdecode (name : string) : string := fsdecode_from 0 name.

(** The limits of Linux: a name has at most [NAME_MAX] bytes, a path
    handed to the system fewer than [PATH_MAX]; beyond them the system
    answers [ENAMETOOLONG]. *)
Definition NAME_MAX : nat := 255.
Definition PATH_MAX : nat := 4096.
Definition ENAMETOOLONG : nat := 36.

(** *** The directory tree *)

Definition node_at (fs : gmap (list string) node) (abs : list string) : option node :=
  match abs with
  | [] => Some Dir
  | _ => fs !! abs
  end.

(** Where a path leads: to an existing node, to a free name in an existing
    directory (followed by slashes or not), or nowhere. *)
Inductive resolved :=
| RNode (abs : list string) (n : node)
| RFree (parent : list string) (name : string) (slash : bool)
| RErr (x : exn).

(** Path resolution, component by component from the directory [cur]. *)
Fixpoint walk (fs : gmap (list string) node) (cur : list string) (comps : list string)
  : resolved :=
  match comps with
  | [] => RNode cur Dir
  | c :: rest =>
      if String.eqb c "" || String.eqb c "." then walk fs cur rest
      else if String.eqb c ".." then walk fs (removelast cur) rest
      else if (NAME_MAX <? String.length c)%nat then RErr (OSError ENAMETOOLONG)
      else match node_at fs (cur ++ [c]) with
           | Some Dir => walk fs (cur ++ [c]) rest
           | Some (File b) =>
               match rest with
               | [] => RNode (cur ++ [c]) (File b)
               | _ => RErr NotADirectoryError
               end
           | None =>
               if forallb (String.eqb "") rest
               then RFree cur c (match rest with [] => false | _ => true end)
               else RErr FileNotFoundError
           end
  end.

(** What the system does with a path a function of [os] or [open] is
    given: the [str] is encoded, a NUL in it is refused, and the bytes are
    resolved from the root or from the working directory. *)
Definition resolve (s : state) (path : string) : resolved :=
  match fsencode path with
  | None => RErr UnicodeEncodeError
  | Some name =>
      if has_nul name then RErr ValueError
      else if String.eqb name "" then RErr FileNotFoundError
      else if (PATH_MAX <=? String.length name)%nat then RErr (OSError ENAMETOOLONG)
      else walk (st_fs s) (if startswith name "/" then [] else st_cwd s) (split "/" name)
  end.

Definition set_fs (s : state) (fs : gmap (list string) node) : state :=
  mkState fs (st_cwd s) (st_trace s).

(** [os.path.exists(path)]: false also when the path cannot be resolved,
    whatever the reason. *)
Definition path_exists (s : state) (path : string) : bool :=
  match resolve s path with
  | RNode _ _ => true
  | _ => false
  end.

(** [os.path.isdir(path)]. *)
Definition isdir (s : state) (path : string) : bool :=
  match resolve s path with
  | RNode _ Dir => true
  | _ => false
  end.

(** The bytes of the regular file at [path], if there is one. *)
Definition file_bytes (s : state) (path : string) : option string :=
  match resolve s path with
  | RNode _ (File b) => Some b
  | _ => None
  end.

(** [os.getcwd()]. *)
Definition getcwd (s : state) : string :=
  fsdecode ("/" +:+ String.concat "/" (st_cwd s)).

(** [os.path.abspath(path)]. *)
Definition abspath (s : state) (path : string) : string :=
  normpath (if startswith path "/" then path else join (getcwd s) [path]).

(** [os.mkdir(path)]. *)
Definition mkdir (path : string) : M unit :=
  fun _ s =>
    match resolve s path with
    | RNode _ _ => (Raise FileExistsError, s)
    | RFree parent name _ => (Ok tt, set_fs s (<[parent ++ [name] := Dir]> (st_fs s)))
    | RErr x => (Raise x, s)
    end.

(** The first lines of [os.makedirs]: [head, tail = path.split(name)],
    split once more when [tail] is empty. *)
Definition makedirs_parts (name : string) : string * string :=
  let (head, tail) := path_split name in
  if String.eqb tail "" then path_split head else (head, tail).

(** The last lines of [os.makedirs] with [exist_ok=True]: [mkdir(name)],
    where an [OSError] is dropped if [name] is a directory. *)
Definition mkdir_exist_ok (name : string) : M unit :=
  fun e s =>
    match mkdir name e s with
    | (Raise x, s') => if os_error x && isdir s' name then (Ok tt, s') else (Raise x, s')
    | r => r
    end.

(** [os.makedirs(name, exist_ok=True)], following the library's recursion
    on [os.path.split]; each recursive call is on a shorter string, so
    [String.length name] levels are never exhausted. *)
Fixpoint makedirs_rec (fuel : nat) (name : string) : M unit :=
  match fuel with
  | O => raise RecursionError
  | S fuel' =>
      fun e s =>
        let (head, tail) := makedirs_parts name in
        if negb (String.eqb head "") && negb (String.eqb tail "")
           && negb (path_exists s head)
        then
          match makedirs_rec fuel' head e s with
          | (Raise x, s') =>
              if bool_decide (x = FileExistsError)
              then (if String.eqb tail "." then (Ok tt, s') else mkdir_exist_ok name e s')
              else (Raise x, s')
          | (Ok _, s') =>
              if String.eqb tail "." then (Ok tt, s') else mkdir_exist_ok name e s'
          end
        else mkdir_exist_ok name e s
  end.

Definition makedirs (name : string) : M unit :=
  makedirs_rec (S (String.length name)) name.

(** [open(path, 'w')]: the file is created or truncated; the handle is the
    place of the file in the tree. *)
Definition open_w (path : string) : M (list string) :=
  fun _ s =>
    match resolve s path with
    | RNode abs (File _) => (Ok abs, set_fs s (<[abs := File ""]> (st_fs s)))
    | RNode _ Dir => (Raise IsADirectoryError, s)
    | RFree parent name false =>
        (Ok (parent ++ [name]), set_fs s (<[parent ++ [name] := File ""]> (st_fs s)))
    | RFree _ _ true => (Raise IsADirectoryError, s)
    | RErr x => (Raise x, s)
    end.

(** [f.write(text)] on a handle opened with [encoding]; without
    [encoding=] the locale's codec is used.  The whole text is encoded
    before any byte reaches the file. *)
Definition f_write (f : list string) (encoding : option codec) (text : string) : M unit :=
  fun e s =>
    let k := match encoding with Some k => k | None => env_locale e end in
    match encode k text with
    | Some bytes =>
        let old := match st_fs s !! f with Some (File b) => b | _ => "" end in
        (Ok tt, set_fs s (<[f := File (old +:+ bytes)]> (st_fs s)))
    | None => (Raise UnicodeEncodeError, s)
    end.

(** The name [k] has under the directory [abs], when it is an entry of it. *)
Fixpoint entry_name (abs k : list string) : option string :=
  match abs, k with
  | [], [n] => Some n
  | a :: abs', b :: k' => if String.eqb a b then entry_name abs' k' else None
  | _, _ => None
  end.

(** [os.listdir(path)], in the order the tree enumerates. *)
Definition listdir (path : string) : M (list string) :=
  fun _ s =>
    match resolve s path with
    | RNode abs Dir =>
        (Ok (omap (fun kv => option_map fsdecode (entry_name abs (fst kv)))
                  (map_to_list (st_fs s))), s)
    | RNode _ (File _) => (Raise NotADirectoryError, s)
    | RFree _ _ _ => (Raise FileNotFoundError, s)
    | RErr x => (Raise x, s)
    end.

(** [os.chdir(path)]. *)
Definition chdir (path : string) : M unit :=
  fun _ s =>
    match resolve s path with
    | RNode abs Dir => (Ok tt, mkState (st_fs s) abs (st_trace s))
    | RNode _ (File _) => (Raise NotADirectoryError, s)
    | RFree _ _ _ => (Raise FileNotFoundError, s)
    | RErr x => (Raise x, s)
    end.

(** *** Paths made of plain names *)

Fixpoint has_slash (s : string) : bool :=
  match s with
  | "" => false
  | String c r => Ascii.eqb c "/" || has_slash r
  end.

(** A plain name, one an entry of a directory can have and [print] can
    show: not empty, not [.] or [..], without a slash, a NUL or a
    surrogate, and of at most [NAME_MAX] bytes. *)
Definition plain_name (c : string) : bool :=
  negb (String.eqb c "") && negb (String.eqb c ".") && negb (String.eqb c "..")
  && negb (has_slash c) && negb (has_nul c) && negb (has_surrogate c)
  && (String.length c <=? NAME_MAX)%nat.

(** The path string with the components [comps], from the root or from
    the working directory. *)
Definition path_of (absolute : bool) (comps : list string) : string :=
  (if absolute then "/" else "") +:+ String.concat "/" comps.

(** The directory such a path is resolved from. *)
Definition start_dir (absolute : bool) (s : state) : list string :=
  if absolute then [] else st_cwd s.

(** The tree with a directory at every step from [base] along [comps]. *)
Fixpoint with_dirs (fs : gmap (list string) node) (base comps : list string)
  : gmap (list string) node :=
  match comps with
  | [] => fs
  | c :: rest => with_dirs (<[base ++ [c] := Dir]> fs) (base ++ [c]) rest
  end.

(** No regular file sits at any step from [base] along [comps]. *)
Fixpoint dirs_free (fs : gmap (list string) node) (base comps : list string) : bool :=
  match comps with
  | [] => true
  | c :: rest =>
      match node_at fs (base ++ [c]) with
      | Some (File _) => false
      | _ => dirs_free fs (base ++ [c]) rest
      end
  end.

(** Every step from [base] along [comps] is a directory. *)
Fixpoint all_dirs (fs : gmap (list string) node) (base comps : list string) : bool :=
  match comps with
  | [] => true
  | c :: rest =>
      match node_at fs (base ++ [c]) with
      | Some Dir => all_dirs fs (base ++ [c]) rest
      | _ => false
      end
  end.

(** A string that is not empty and does not end with a slash. *)
Definition ends_plain (a : string) : bool :=
  negb (String.eqb a "") && negb (ends_with_char a "/").


(** The places a path passes on its way from [base] along [comps]. *)
Fixpoint steps (base comps : list string) : list (list string) :=
  match comps with
  | [] => []
  | c :: rest => (base ++ [c]) :: steps (base ++ [c]) rest
  end.

(** *** Paths in general *)

(** The places the components [comps] lead through from [cur] when every
    name on the way is a directory: an empty component and [.] stay where
    they are, [..] goes up. *)
Fixpoint visits (cur comps : list string) : list (list string) :=
  match comps with
  | [] => []
  | c :: rest =>
      if String.eqb c "" || String.eqb c "." then visits cur rest
      else if String.eqb c ".." then visits (removelast cur) rest
      else (cur ++ [c]) :: visits (cur ++ [c]) rest
  end.




(** Each of [places] is a directory. *)
Definition all_made (fs : gmap (list string) node) (places : list (list string)) : bool :=
  forallb (fun k => bool_decide (fs !! k = Some Dir)) places.



(** A statement that spares the tree: however it ends, the working
    directory is as before, and there is one place such that every entry
    elsewhere is as before, a directory at that place stays a directory
    and a regular file there stays a regular file (with whatever bytes);
    and it has printed one line if it returned, nothing if it raised. *)
Definition spares_tree (w : M unit) : Prop :=
  forall (e : env) (s : state),
    st_cwd (snd (w e s)) = st_cwd s /\
    (exists key,
       (forall k n, k <> key -> st_fs s !! k = Some n ->
                    st_fs (snd (w e s)) !! k = Some n) /\
       (st_fs s !! key = Some Dir -> st_fs (snd (w e s)) !! key = Some Dir) /\
       (forall b, st_fs s !! key = Some (File b) ->
                  exists b', st_fs (snd (w e s)) !! key = Some (File b'))) /\
    match fst (w e s) with
    | Ok _ => exists line, st_trace (snd (w e s)) = st_trace s ++ [EvPrint line]
    | Raise _ => st_trace (snd (w e s)) = st_trace s
    end.

End Os.

(** ** Loops *)

Module Loop.
Import Py Proc.

(** What the body of a [for] loop tells the loop: go on, or [break]. *)
Inductive flow := Continue | Break.

(** [for x in xs: body], threading the variables the body assigns ([acc])
    and stopping at a [break] or at the first exception. *)
Fixpoint for_in {A S} (xs : list A) (acc : S) (body : A -> S -> M (flow * S)) : M S :=
  match xs with
  | [] => ret acc
  | x :: rest =>
      bind (body x acc) (fun r =>
        match r with
        | (Continue, acc') => for_in rest acc' body
        | (Break, acc') => ret acc'
        end)
  end.

(** [range(a, b)] for [a <= b]. *)
Definition range (a b : nat) : list Z := map Z.of_nat (seq a (b - a)).

End Loop.

(** ** FINAL_GENERATOR.py *)

Module FINAL_GENERATOR.
Import Py Proc Os Loop.
Local Open Scope py_scope.

(** The progress line of [write_file]: [parts[-3]] and [parts[-2]] behind
    their length checks. *)
Definition progress_message (path : string) : result string :=
  let parts := split "/" path in
  let topic :=
    if (3 <=? length parts)%nat
    then match index_from_end parts 3 with Some t => Ok t | None => Raise IndexError end
    else Ok "" in
  let level :=
    if (2 <=? length parts)%nat
    then match index_from_end parts 2 with Some t => Ok t | None => Raise IndexError end
    else Ok "" in
  match topic, level with
  | Ok topic, Ok level => Ok ("  ✓ " +:+ topic +:+ "/" +:+ level)
  | Raise x, _ => Raise x
  | _, Raise x => Raise x
  end.

Definition write_file (path content : string) : M unit :=
  makedirs (dirname path) ;;
  f <- open_w path ;;
  f_write f (Some utf_8) content ;;
  match progress_message path with
  | Ok line => print line
  | Raise x => raise x
  end.

(** The list the middle loop of the scan runs over. *)
Definition levels : list string := ["basic"; "intermediate"; "advanced"].

(** The innermost loop of the scan: over the entries of the current
    directory, for one topic number and one level. *)
Definition scan_entries (i : Z) (level : string) (entries : list string) (existing : Z)
  : M Z :=
  for_in entries existing (fun topic_dir existing =>
    if startswith topic_dir (fmt_02d i +:+ "_") then
      let theory_path := join topic_dir [level; "theory.md"] in
      fun e s =>
        if path_exists s theory_path
        then (Ok (Break, (existing + 1)%Z), s)
        else (Ok (Continue, existing), s)
    else ret (Continue, existing)).

(** The status scan of [main]: the three nested loops. *)
Definition count_existing : M Z :=
  for_in (range 1 21) 0%Z (fun i existing =>
    let topic := fmt_02d i +:+ "_*" in
    existing <- for_in levels existing (fun level existing =>
      entries <- listdir "." ;;
      existing <- scan_entries i level entries existing ;;
      ret (Continue, existing)) ;;
    ret (Continue, existing)).

Definition status_line (existing : Z) : string :=
  "Status: " +:+ str_of_int existing +:+ "/60 theory files exist".

Definition generating_line (existing : Z) : string :=
  "Generating " +:+ str_of_int (60 - existing) +:+ " remaining files...".

(** [from generate_all_content import generate_all_theories]: the module
    is not part of the repository; the environment says whether the
    interpreter finds it. *)
Definition import_generate_all_theories : M foreign :=
  log (EvImport "generate_all_content") ;;
  fun e s =>
    match env_generate_all_content e with
    | Some g => (Ok g, s)
    | None => (Raise ImportError, s)
    end.

(** [generate_all_theories()]: whatever the imported function does; the
    lines it prints join the trace. *)
Definition call_generate_all_theories (g : foreign) : M unit :=
  log (EvCall "generate_all_theories") ;;
  fun e s =>
    let '(r, fs, cwd, lines) := g (st_fs s) (st_cwd s) in
    (r, mkState fs cwd (st_trace s ++ map EvPrint lines)).

(** The lines of the five [print] statements that open [main()]. *)
Definition banner : list string :=
  [ repeat_str "=" 70;
    "GO LANGUAGE THEORY GENERATOR - Topics 03-20";
    "Comprehensive learning materials with C/C++ comparisons";
    repeat_str "=" 70;
    "" ].

(** The lines of the [print] statements that close [main()]. *)
Definition closing : list string :=
  [ "";
    repeat_str "=" 70;
    "GENERATION COMPLETE!";
    repeat_str "=" 70;
    "";
    "All theory files created with:";
    "  • Detailed explanations";
    "  • C/C++ comparisons";
    "  • Design rationale";
    "  • Code examples";
    "  • Performance implications";
    "";
    "Start learning from:";
    "  cd 01_basics_and_syntax";
    "  cat claude.md  # Context file for working with Claude";
    "  cd basic && cat theory.md";
    "" ].

(** [main()] up to and including the status printout. *)
Definition main_status : M Z :=
  for_each banner print ;;
  base_path <- (fun e s => (Ok (dirname (abspath s (env_file e))), s)) ;;
  chdir base_path ;;
  existing <- count_existing ;;
  print (status_line existing) ;;
  print (generating_line existing) ;;
  print "" ;;
  ret existing.

(** [main()]: the status printout, the import, the call, the closing lines. *)
Definition main : M unit :=
  main_status ;;
  generate_all_theories <- import_generate_all_theories ;;
  call_generate_all_theories generate_all_theories ;;
  for_each closing print.

(** The lines the [except ImportError:] suite prints. *)
Definition import_error_messages : list string :=
  [ "Creating content generation module...";
    "This will generate all remaining theory files";
    "";
    "Run this script to generate theories for topics 03-20";
    "Each topic will have basic, intermediate, and advanced theory files";
    "with comprehensive C/C++ comparisons and design rationale." ].

Definition is_ImportError (x : exn) : bool := bool_decide (x = ImportError).

(** The [except ImportError:] suite. *)
Definition on_import_error : M unit :=
  for_each import_error_messages print ;;
  raise (SystemExit 0).

(** The file run as a script ([__name__ == "__main__"]). *)
Definition script : M unit :=
  try_except main is_ImportError on_import_error.

(** The count as the specification words it: whether some entry whose
    name starts with the zero-padded prefix of topic [i] contains
    [level/theory.md] ... *)
Definition has_theory (s : state) (entries : list string) (i : Z) (level : string) : bool :=
  existsb (fun topic_dir =>
             startswith topic_dir (fmt_02d i +:+ "_")
             && path_exists s (join topic_dir [level; "theory.md"]))
          entries.

(** ... and the number of pairs (topic number in 1..20, level) for which
    that holds. *)
Definition spec_count (s : state) (entries : list string) : Z :=
  Z.of_nat (length (List.filter (fun p => has_theory s entries (fst p) (snd p))
                                (list_prod (range 1 21) levels))).

End FINAL_GENERATOR.

(** ** CREATE_FULL_THEORY.py *)

Module CREATE_FULL_THEORY.
Import Py Proc Os.
Local Open Scope py_scope.

(** The double quote, which separates the pieces of the literals below. *)
Definition DQ : string := String (ascii_of_nat 34) "".

Definition BASE_PATH : string := "/media/usb/anrai/golang/go_theory".

Definition write_file (path content : string) : M unit :=
  makedirs (dirname path) ;;
  f <- open_w path ;;
  f_write f None content ;;
  print ("Created: " +:+ path).

Definition TOPIC_01_BASIC : string :=
  String.concat DQ
  [ "# Go Basics and Syntax - Basic Level

[Previous comprehensive content from THEORY_CONTENT[";
    "01_basics_and_syntax";
    "][";
    "basic";
    "]]
" ].

Definition TOPIC_02_BASIC : string :=
  String.concat DQ
  [ "# Data Types and Variables - Basic Level

## Overview

Go has a simpler type system than C/C++ by design. While C/C++ evolved over decades accumulating features, Go was designed from scratch with modern software engineering in mind.

## Basic Types Comparison

### Integer Types

**C/C++:**
```cpp
char c;           // Usually 8 bits, but not guaranteed
short s;          // At least 16 bits
int i;            // At least 16 bits (usually 32)
long l;           // At least 32 bits
long long ll;     // At least 64 bits (C++11)

// Size depends on platform!
sizeof(int);      // Could be 2, 4, or 8 bytes
```

**Go:**
```go
var i8  int8      // Exactly 8 bits, always
var i16 int16     // Exactly 16 bits, always
var i32 int32     // Exactly 32 bits, always
var i64 int64     // Exactly 64 bits, always

var u8  uint8     // Unsigned 8 bits
var u16 uint16    // Unsigned 16 bits
var u32 uint32    // Unsigned 32 bits
var u64 uint64    // Unsigned 64 bits

var i int         // Platform dependent (32 or 64 bit)
var u uint        // Platform dependent unsigned
```

### Design Rationale: Fixed-Size Integers

**Why Go specifies exact sizes:**

1. **Portability**: Code behaves identically on all platforms
```cpp
// C++ problem:
int x = 2147483647;  // Max 32-bit int
x++;                  // Overflow behavior undefined!
// On some platforms: wraps to negative
// On others: might trap
// Optimizers assume it never happens!
```

```go
// Go solution:
var x int32 = 2147483647
x++  // Defined behavior: wraps to -2147483648
// Same on all platforms
```

2. **Binary protocols**: Network/file formats need exact sizes
```go
// Writing binary data:
var header struct {
    Magic   uint32  // Always 4 bytes
    Version uint16  // Always 2 bytes
    Flags   uint8   // Always 1 byte
}
// Total: 7 bytes on ALL platforms
```

3. **Memory layout**: Predictable struct sizes
```go
type Point struct {
    X int32  // 4 bytes
    Y int32  // 4 bytes
}
// Always 8 bytes (plus padding)
```

**When to use int vs int32:**
- `int`: For counts, indices, general arithmetic (idiomatic)
- `int32`/`int64`: When size matters (binary formats, APIs)

### Floating Point Types

**C/C++:**
```cpp
float f;         // Usually 32 bits (not guaranteed)
double d;        // Usually 64 bits (not guaranteed)
long double ld;  // Platform dependent (64, 80, or 128 bits!)
```

**Go:**
```go
var f32 float32  // IEEE-754 32-bit, always
var f64 float64  // IEEE-754 64-bit, always

// No long double - float64 is sufficient
```

### Design Rationale: No Long Double

**Why Go omitted long double:**

1. **Simplicity**: Two float types are enough
2. **Platform consistency**: long double varies wildly
3. **Sufficient precision**: float64 has 15-17 decimal digits
4. **Use math/big for arbitrary precision** if needed

```go
import ";
    "math/big";
    "

// For arbitrary precision:
f := new(big.Float)
f.SetPrec(1000)  // 1000 bits of precision
```

### Complex Numbers

**C/C++:**
```cpp
#include <complex>

std::complex<float> c1(1.0f, 2.0f);
std::complex<double> c2(1.0, 2.0);

// Or in C:
float complex c1 = 1.0f + 2.0f * I;
```

**Go:**
```go
var c64  complex64   // Two float32s
var c128 complex128  // Two float64s

c := 1 + 2i          // complex128 literal
c = complex(1, 2)    // Explicit construction

real := real(c)      // Extract real part
imag := imag(c)      // Extract imaginary part
```

### Design Rationale: Built-in Complex Numbers

**Why Go has first-class complex numbers:**

1. **Scientific computing**: Common in signal processing, quantum computing
2. **No library needed**: Part of the language
3. **Optimizable**: Compiler can optimize complex arithmetic
4. **Type safe**: complex64 and complex128 are distinct types

**Example: FFT implementation is cleaner:**
```go
// Go:
func FFT(x []complex128) []complex128 {
    // Direct complex arithmetic
    w := complex(math.Cos(angle), math.Sin(angle))
    return result * w
}
```

```cpp
// C++:
std::vector<std::complex<double>> FFT(const std::vector<std::complex<double>>& x) {
    // More verbose, same functionality
}
```

### Boolean Type

**C/C++:**
```cpp
// C:
int flag = 1;        // 0 is false, non-zero is true
if (flag) { }        // Any integer can be condition

// C++:
bool flag = true;    // Dedicated bool type
if (5) { }           // But still: int converts to bool!
```

**Go:**
```go
var flag bool = true  // Only true or false

// if 5 { }           // Compile error!
if x != 0 { }         // Must explicitly compare
```

### Design Rationale: Strict Boolean

**Why Go's bool is not numeric:**

1. **Clarity**: Conditions are explicit
2. **Safety**: No accidental bool/int confusion
3. **No implicit conversions**: Must be explicit

**Common C/C++ bugs Go prevents:**
```cpp
// C++:
if (x = 5) {  // Assignment, not comparison!
    // Always true, bug!
}

bool b = 5;   // Implicitly converts to true
```

```go
// Go:
if x = 5 {    // Compile error: x = 5 is not boolean
}

// var b bool = 5  // Compile error: cannot convert
var b bool = (x == 5)  // Must be explicit
```

### String Type

**C/C++:**
```cpp
// C:
char* str = ";
    "hello";
    ";           // Pointer to char array
char str2[] = ";
    "hello";
    ";         // Char array
size_t len = strlen(str);      // O(n) operation

// C++:
std::string str = ";
    "hello";
    ";     // Class type
size_t len = str.length();     // O(1) operation
str[0] = 'H';                  // Mutable
```

**Go:**
```go
var str string = ";
    "hello";
    "       // Built-in type
len := len(str)                // O(1) operation
// str[0] = 'H'                // Compile error: immutable!

// Strings are immutable byte slices
bytes := []byte(str)           // Convert to mutable bytes
bytes[0] = 'H'
str = string(bytes)            // Convert back
```

### Design Rationale: Immutable Strings

**Why Go strings are immutable:**

1. **Thread safety**: Can share strings between goroutines safely
```go
var global string = ";
    "shared";
    "

go func() {
    fmt.Println(global)  // Safe, no mutex needed
}()
```

2. **Memory efficiency**: Can share underlying storage
```go
s1 := ";
    "hello world";
    "
s2 := s1[0:5]  // ";
    "hello";
    " - shares memory with s1
// No copy until modification
```

3. **Hash table keys**: Strings can't change after hashing
```go
m := map[string]int{}
key := ";
    "hello";
    "
m[key] = 42
// key can't change, so map stays consistent
```

4. **Security**: String data can't be modified after validation
```go
func ValidateAndUse(password string) {
    if isValid(password) {
        // password can't change here
        use(password)
    }
}
```

**How to modify strings efficiently:**
```go
import ";
    "strings";
    "

// For many concatenations:
var builder strings.Builder
builder.WriteString(";
    "hello";
    ")
builder.WriteString(";
    " ";
    ")
builder.WriteString(";
    "world";
    ")
result := builder.String()

// For single modification:
s := ";
    "hello";
    "
s = s + ";
    " world";
    "  // Creates new string
```

## Variable Declaration

### C/C++ Declaration Styles

```cpp
int x;                    // Uninitialized (undefined value!)
int y = 42;              // Initialized
int z(42);               // C++ constructor syntax
auto a = 42;             // C++11 type inference

int* p1;                 // Pointer
int *p2;                 // Alternative style
int* p1, p2;             // p1 is pointer, p2 is int (gotcha!)
```

### Go Declaration Styles

```go
var x int                // Zero-initialized (0)
var y int = 42          // Explicit type and value
var z = 42              // Type inference (int)
w := 42                 // Short declaration

var p1 *int             // Pointer (nil)
var p2, p3 *int         // Both pointers (consistent)
```

### Design Rationale: Multiple Declaration Styles

**Why Go has three ways to declare variables:**

1. **var x Type**: When zero value is wanted
```go
var count int      // Start at 0
var buffer [1024]byte  // All zeros
```

2. **var x = value**: When type should be explicit
```go
var timeout = time.Second * 30  // Type is time.Duration
var pi = 3.14                   // Type is float64
```

3. **x := value**: For local variables (most common)
```go
func process() {
    result := compute()  // Type inferred
    // Short and clear
}
```

**Where each style is used:**

```go
// Package level: must use var
var globalConfig Config

// Function level: prefer :=
func example() {
    x := 42  // Idiomatic
    
    // Use var when:
    var y int  // Zero value wanted
    var z float64 = 3.14  // Type should be explicit
}
```

### Short Variable Declaration

**The := operator:**

```go
x := 42              // Create new variable x
y := ";
    "hello";
    "         // Create new variable y

// Multiple assignment:
a, b := 1, 2
name, age := ";
    "Alice";
    ", 30

// With function returns:
value, err := functionReturningTwo()
```

**Rules for :=:**
1. Only in function bodies (not package level)
2. At least one new variable must be declared
3. Can redeclare existing variables in multi-assignment

```go
var x int
x := 42  // Error: x already declared

var x int
x, y := 42, 43  // OK: y is new, x is just assigned
```

### Design Rationale: Short Declaration

**Why := exists:**

1. **Conciseness**: Most common case should be shortest
```go
// Go:
x := 42

// C++:
auto x = 42;  // Similar, but Go is one character shorter
```

2. **Clear scope**: Obviously a new variable
```go
if x := compute(); x > 0 {
    // x only exists in if block
}
// x doesn't exist here
```

3. **Error handling pattern**:
```go
if err := doSomething(); err != nil {
    return err
}
// err doesn't leak to outer scope
```

### Multiple Assignment

**C/C++:**
```cpp
int a, b;
a = b = 42;  // Right associative: b = 42, then a = b

// Can't do:
a, b = getValue1(), getValue2();  // Error
```

**Go:**
```go
a, b := 1, 2  // Parallel assignment

// Swap without temp variable:
a, b = b, a

// Common pattern with functions:
value, err := mayFail()
if err != nil {
    // Handle error
}
```

### Design Rationale: Parallel Assignment

**Why Go supports parallel assignment:**

1. **Multiple return values** are common:
```go
func divmod(a, b int) (int, int) {
    return a / b, a % b
}

quot, rem := divmod(17, 5)
```

2. **No temporary variables needed**:
```go
// Swap:
a, b = b, a  // Clean and clear

// vs C++:
std::swap(a, b);  // Need library function
// or:
int temp = a; a = b; b = temp;  // Verbose
```

3. **Error handling**:
```go
// Idiomatic Go:
if result, err := f(); err == nil {
    use(result)
}
```

## Zero Values

### Zero Value Table

| Type | Zero Value |
|------|-----------|
| `int`, `int8`, `int16`, `int32`, `int64` | `0` |
| `uint`, `uint8`, `uint16`, `uint32`, `uint64` | `0` |
| `float32`, `float64` | `0.0` |
| `complex64`, `complex128` | `(0+0i)` |
| `bool` | `false` |
| `string` | `";
    "";
    "` (empty string) |
| pointers | `nil` |
| slices | `nil` (length 0, capacity 0) |
| maps | `nil` (no allocation) |
| channels | `nil` |
| interfaces | `nil` |
| functions | `nil` |

### Design Rationale: Zero Values

**Why zero values matter:**

1. **No undefined behavior**:
```cpp
// C++:
int x;  // Undefined!
if (x > 0) {  // Undefined behavior
}
```

```go
// Go:
var x int  // Always 0
if x > 0 {  // Well-defined: false
}
```

2. **Useful defaults**:
```go
type Counter struct {
    count int  // Starts at 0 automatically
}

c := Counter{}  // No constructor needed
c.count++       // Now 1
```

3. **Safe nil checking**:
```go
var slice []int  // nil slice
len(slice)       // 0 (safe!)
slice = append(slice, 1)  // Works!

// vs C++:
std::vector<int>* vec;  // Uninitialized pointer
vec->size();  // CRASH!
```

4. **Simplifies code**:
```go
// No need for explicit initialization:
var buffer bytes.Buffer
buffer.WriteString(";
    "hello";
    ")  // Just works

// vs C++:
std::stringstream buffer;  // Must construct
buffer << ";
    "hello";
    ";
```

## Type Inference

### Go's Type Inference

```go
// Infers int:
x := 42

// Infers float64:
y := 3.14

// Infers string:
s := ";
    "hello";
    "

// Infers from function:
result := compute()  // Type of compute()'s return

// Infers complex128:
c := 1 + 2i
```

**Rules:**
- Untyped int literal → `int`
- Untyped float literal → `float64`
- Untyped complex literal → `complex128`
- Untyped string literal → `string`

### Controlling Inferred Type

```go
// Want int32, not int:
var x int32 = 42

// Want float32, not float64:
var f float32 = 3.14

// Explicit conversion:
x := int32(42)
f := float32(3.14)
```

## Type Conversion

### Go's Explicit Conversions

```go
var i int = 42
var f float64 = float64(i)  // Must convert

var x int32 = 100
var y int64 = int64(x)  // Even between int types!

// Truncation is explicit:
var f64 float64 = 3.14
var i int = int(f64)  // i = 3, explicit truncation
```

### Design Rationale: Explicit Conversions

**Why Go requires explicit conversions:**

1. **No surprises**:
```cpp
// C++:
unsigned u = 10;
int i = -5;
if (u < i) {  // Always false! i converted to unsigned
    // Surprise behavior
}
```

```go
// Go:
var u uint = 10
var i int = -5
// if u < i {  // Compile error
if int(u) < i {  // Explicit: you know what happens
}
```

2. **Prevents bugs**:
```cpp
// C++:
double d = 3.14159;
int i = d;  // Silent truncation, data loss
```

```go
// Go:
var d float64 = 3.14159
var i int = int(d)  // Explicit: ";
    "I know I'm losing precision";
    "
```

3. **Cross-platform consistency**:
```go
var i32 int32 = 42
var i64 int64 = int64(i32)  // Same on all platforms

// C++ int size varies by platform
```

## String Internals

### How Strings Work

```go
type stringStruct struct {
    ptr *byte  // Pointer to data
    len int    // Length in bytes
}
```

**String slicing:**
```go
s := ";
    "hello world";
    "
sub := s[0:5]  // ";
    "hello";
    "

// sub shares memory with s:
// sub.ptr points into s's data
// No copying!
```

### Strings vs Byte Slices

```go
s := ";
    "hello";
    "

// Convert to bytes (copies data):
b := []byte(s)
b[0] = 'H'  // Modify byte slice

// Convert back (copies data):
s2 := string(b)  // ";
    "Hello";
    "

// Original unchanged:
fmt.Println(s)  // ";
    "hello";
    "
```

### UTF-8 Encoding

**Go strings are UTF-8 byte sequences:**

```go
s := ";
    "Hello, 世界";
    "

// Length in bytes:
len(s)  // 13 (not 9!)

// Iterate bytes:
for i := 0; i < len(s); i++ {
    fmt.Printf(";
    "%x ";
    ", s[i])
}

// Iterate runes (Unicode code points):
for i, r := range s {
    fmt.Printf(";
    "%d: %c
";
    ", i, r)
}
```

### Design Rationale: UTF-8

**Why Go chose UTF-8:**

1. **ASCII compatible**: ASCII strings work unchanged
2. **Space efficient**: Common chars use 1 byte
3. **Self-synchronizing**: Can find character boundaries
4. **No BOM needed**: Clear encoding

**vs C++:**
```cpp
// C++:
std::string s = ";
    "hello";
    ";     // Bytes
std::wstring ws = L";
    "hello";
    ";  // Wide chars (16 or 32 bit)
std::u16string u16 = u";
    "hello";
    ";  // UTF-16
std::u32string u32 = U";
    "hello";
    ";  // UTF-32

// Go: Just one string type, always UTF-8
```

## Summary

**Key differences from C/C++:**

1. **Exact-size types**: int8/int16/int32/int64 always same size
2. **Zero values**: Everything initialized automatically
3. **Explicit conversions**: No implicit type conversions
4. **Immutable strings**: Thread-safe by default
5. **Built-in complex numbers**: First-class support
6. **Strict booleans**: No bool/int conversions
7. **UTF-8 strings**: Unicode by default

**Design philosophy:**
- **Safety over convenience**: Catch errors at compile time
- **Simplicity over features**: Fewer types, clearer code
- **Predictability**: Same behavior on all platforms
- **Modern defaults**: UTF-8, garbage collection, zero initialization

Next: Operators and expressions with Go's design choices explained.
" ].

Definition TOPIC_02_BASIC_EXAMPLE : string :=
  String.concat DQ
  [ "package main

import ";
    "fmt";
    "

func main() {
    // Integer types
    var i8 int8 = 127
    var i16 int16 = 32767
    var i32 int32 = 2147483647
    var i64 int64 = 9223372036854775807
    
    fmt.Printf(";
    "int8:  %d\n";
    ", i8)
    fmt.Printf(";
    "int16: %d\n";
    ", i16)
    fmt.Printf(";
    "int32: %d\n";
    ", i32)
    fmt.Printf(";
    "int64: %d\n";
    ", i64)
    
    // Zero values
    var zeroInt int
    var zeroFloat float64
    var zeroString string
    var zeroBool bool
    
    fmt.Printf(";
    "\nZero values:\n";
    ")
    fmt.Printf(";
    "int:     %d\n";
    ", zeroInt)
    fmt.Printf(";
    "float64: %f\n";
    ", zeroFloat)
    fmt.Printf(";
    "string:  '%s'\n";
    ", zeroString)
    fmt.Printf(";
    "bool:    %t\n";
    ", zeroBool)
    
    // Type inference
    x := 42
    y := 3.14
    s := ";
    "hello";
    "
    
    fmt.Printf(";
    "\nInferred types:\n";
    ")
    fmt.Printf(";
    "x: %T\n";
    ", x)
    fmt.Printf(";
    "y: %T\n";
    ", y)
    fmt.Printf(";
    "s: %T\n";
    ", s)
}
" ].

Definition theory_path : string :=
  BASE_PATH +:+ "/02_data_types_and_variables/basic/theory.md".

Definition example_path : string :=
  BASE_PATH +:+ "/02_data_types_and_variables/basic/examples/types.go".

(** The statements of the module, in order. *)
Definition script : M unit :=
  print "Generating Topic 02: Data Types and Variables..." ;;
  write_file theory_path TOPIC_02_BASIC ;;
  write_file example_path TOPIC_02_BASIC_EXAMPLE ;;
  print "\nTheory generation would continue for all 20 topics..." ;;
  print "Each with comprehensive C/C++ comparisons and design rationale." ;;
  print "Total would be ~100,000+ lines of detailed theory.".

End CREATE_FULL_THEORY.

(** ** GENERATE_ALL_THEORIES.py *)

Module GENERATE_ALL_THEORIES.
Import Py Proc Os.
Local Open Scope py_scope.

(** The newline character. *)
Definition NL : string := String (ascii_of_nat 10) "".

Definition write_file (path content : string) : M unit :=
  makedirs (dirname path) ;;
  f <- open_w path ;;
  f_write f (Some utf_8) content ;;
  rel_path <- (fun e s => (Ok (replace path (getcwd s +:+ "/") ""), s)) ;;
  print ("  ✓ " +:+ rel_path).

(** The statements of the module, in order; [write_file] is defined and
    never called. *)
Definition script : M unit :=
  let total_files := 0%Z in
  print (NL +:+ repeat_str "=" 70) ;;
  print "  GO LANGUAGE THEORY GENERATOR" ;;
  print "  Comprehensive learning materials with C/C++ comparisons" ;;
  print (repeat_str "=" 70 +:+ NL) ;;
  print ("Generating detailed theory files for all 20 topics..." +:+ NL).

End GENERATE_ALL_THEORIES.

(** ** generate_all_theory_files.py *)

Module generate_all_theory_files.
Import Py Proc Os.
Local Open Scope py_scope.

Definition NL : string := String (ascii_of_nat 10) "".

Definition create_file (path content : string) : M unit :=
  makedirs (dirname path) ;;
  f <- open_w path ;;
  f_write f (Some utf_8) content ;;
  print ("✓ " +:+ path).

(** The statements of the module, in order; [create_file] is defined and
    never called, and [subprocess] is imported and never used. *)
Definition script : M unit :=
  print (repeat_str "=" 60) ;;
  print "Go Theory Generator - Creating comprehensive learning materials" ;;
  print (repeat_str "=" 60) ;;
  print (NL +:+ "Generating theory files... This will take a moment." +:+ NL) ;;
  let topics_count := 20%Z in
  let levels := ["basic"; "intermediate"; "advanced"] in
  let total := (topics_count * Z.of_nat (length levels))%Z in
  print ("Total theory files to create: " +:+ str_of_int total) ;;
  print ("Topics: " +:+ str_of_int topics_count) ;;
  print ("Levels per topic: " +:+ str_of_int (Z.of_nat (length levels))) ;;
  print (NL +:+ "To generate all files, this script will create detailed content with:") ;;
  print "- C/C++ comparisons for each concept" ;;
  print "- Design rationale explanations" ;;
  print "- Code examples" ;;
  print "- Performance implications" ;;
  print "- Best practices" ;;
  print (NL +:+ "NOTE: Due to the extensive content, I recommend running topic-specific") ;;
  print "generation scripts. Would you like to proceed with batch generation?".

End generate_all_theory_files.

(** ** generate_comprehensive_theory.py *)

Module generate_comprehensive_theory.
Import Py Proc Os.
Local Open Scope py_scope.

Definition NL : string := String (ascii_of_nat 10) "".

(** The values the entries of [TOPICS] hold. *)
Inductive pyval :=
| PStr (s : string)
| PBool (b : bool).

(** [str(v)], also what an f-string field prints. *)
Definition py_str (v : pyval) : string :=
  match v with
  | PStr s => s
  | PBool true => "True"
  | PBool false => "False"
  end.

(** The truth value of [v] in an [if]. *)
Definition truthy (v : pyval) : bool :=
  match v with
  | PStr s => negb (String.eqb s "")
  | PBool b => b
  end.

(** A dict display. *)
Definition dict (items : list (string * pyval)) : gmap string pyval := list_to_map items.

(** [d[key]]. *)
Definition getitem (d : gmap string pyval) (key : string) : M pyval :=
  lift_option KeyError (d !! key).

(** [d.get(key, default)]. *)
Definition get (d : gmap string pyval) (key : string) (default : pyval) : pyval :=
  match d !! key with
  | Some v => v
  | None => default
  end.

Definition TOPICS : list (gmap string pyval) :=
  [
    dict [ ("num", PStr "01"); ("name", PStr "basics_and_syntax"); ("title", PStr "Basics and Syntax");
           ("needs_intermediate", PBool true); ("needs_advanced", PBool true) ];
    dict [ ("num", PStr "02"); ("name", PStr "data_types_and_variables"); ("title", PStr "Data Types and Variables");
           ("needs_intermediate", PBool true); ("needs_advanced", PBool true) ];
    dict [ ("num", PStr "03"); ("name", PStr "operators_and_expressions"); ("title", PStr "Operators and Expressions");
           ("needs_intermediate", PBool true); ("needs_advanced", PBool true) ];
    dict [ ("num", PStr "04"); ("name", PStr "control_flow"); ("title", PStr "Control Flow");
           ("needs_intermediate", PBool true); ("needs_advanced", PBool true) ];
    dict [ ("num", PStr "05"); ("name", PStr "functions"); ("title", PStr "Functions");
           ("needs_intermediate", PBool true); ("needs_advanced", PBool true) ];
    dict [ ("num", PStr "06"); ("name", PStr "arrays_and_slices"); ("title", PStr "Arrays and Slices");
           ("needs_intermediate", PBool true); ("needs_advanced", PBool true) ];
    dict [ ("num", PStr "07"); ("name", PStr "maps"); ("title", PStr "Maps");
           ("needs_intermediate", PBool true); ("needs_advanced", PBool true) ];
    dict [ ("num", PStr "08"); ("name", PStr "structs"); ("title", PStr "Structs");
           ("needs_intermediate", PBool true); ("needs_advanced", PBool true) ];
    dict [ ("num", PStr "09"); ("name", PStr "pointers"); ("title", PStr "Pointers");
           ("needs_intermediate", PBool true); ("needs_advanced", PBool true) ];
    dict [ ("num", PStr "10"); ("name", PStr "methods_and_interfaces"); ("title", PStr "Methods and Interfaces");
           ("needs_intermediate", PBool true); ("needs_advanced", PBool true) ];
    dict [ ("num", PStr "11"); ("name", PStr "error_handling"); ("title", PStr "Error Handling");
           ("needs_intermediate", PBool true); ("needs_advanced", PBool true) ];
    dict [ ("num", PStr "12"); ("name", PStr "packages_and_modules"); ("title", PStr "Packages and Modules");
           ("needs_intermediate", PBool true); ("needs_advanced", PBool true) ];
    dict [ ("num", PStr "13"); ("name", PStr "concurrency"); ("title", PStr "Concurrency");
           ("needs_intermediate", PBool true); ("needs_advanced", PBool true) ];
    dict [ ("num", PStr "14"); ("name", PStr "channels"); ("title", PStr "Channels");
           ("needs_intermediate", PBool true); ("needs_advanced", PBool true) ];
    dict [ ("num", PStr "15"); ("name", PStr "file_io"); ("title", PStr "File I/O");
           ("needs_intermediate", PBool true); ("needs_advanced", PBool true) ];
    dict [ ("num", PStr "16"); ("name", PStr "testing"); ("title", PStr "Testing");
           ("needs_intermediate", PBool true); ("needs_advanced", PBool true) ];
    dict [ ("num", PStr "17"); ("name", PStr "reflection"); ("title", PStr "Reflection");
           ("needs_intermediate", PBool true); ("needs_advanced", PBool true) ];
    dict [ ("num", PStr "18"); ("name", PStr "generics"); ("title", PStr "Generics");
           ("needs_intermediate", PBool true); ("needs_advanced", PBool true) ];
    dict [ ("num", PStr "19"); ("name", PStr "memory_management"); ("title", PStr "Memory Management");
           ("needs_intermediate", PBool true); ("needs_advanced", PBool true) ];
    dict [ ("num", PStr "20"); ("name", PStr "advanced_patterns"); ("title", PStr "Advanced Patterns");
           ("needs_intermediate", PBool true); ("needs_advanced", PBool true) ]
  ].

(** [THEORY_CONTENT], the dict of Markdown texts that follows [TOPICS] in
    the file, is read by no statement of the module and is left out. *)

Definition create_topic_content (topic_num topic_name topic_title : pyval) : string :=
  let claude_md :=
    "# " +:+ py_str topic_title +:+
    " - Topic Context

This directory contains comprehensive Go theory for **" +:+ py_str topic_title +:+
    "** with detailed comparisons to C/C++ and design rationale.

## Directory Structure

- `basic/` - Fundamental concepts with C/C++ comparisons
- `intermediate/` - Advanced usage patterns and design decisions
- `advanced/` - Deep dives into implementation and optimization

## Learning Approach

Each subdirectory contains:
- `theory.md` - Detailed theoretical explanations
- `examples/` - Practical code examples
- Comparisons to C/C++ throughout
- Design rationale for Go's choices

## How to Use This Context

When working with Claude:
1. Open this topic directory as your working context
2. Reference the theory files as needed
3. Run examples to understand concepts
4. Ask Claude questions specific to this topic

## Key Questions to Explore

- Why did Go choose this design vs C/C++?
- What problems does this solve?
- What are the trade-offs?
- How does this enable better software engineering?

Start with `basic/theory.md` and progress through the levels.
" in
  claude_md.

Definition base_path : string := "/media/usb/anrai/golang/go_theory".

(** The body of the loop of [create_all_topics], for one entry. *)
Definition create_topic (topic : gmap string pyval) : M unit :=
  num <- getitem topic "num" ;;
  name <- getitem topic "name" ;;
  let topic_dir := py_str num +:+ "_" +:+ py_str name in
  let topic_path := join base_path [topic_dir] in
  makedirs (join topic_path ["basic"; "examples"]) ;;
  (if truthy (get topic "needs_intermediate" (PBool true))
   then makedirs (join topic_path ["intermediate"; "examples"])
   else ret tt) ;;
  (if truthy (get topic "needs_advanced" (PBool true))
   then makedirs (join topic_path ["advanced"; "examples"])
   else ret tt) ;;
  num <- getitem topic "num" ;;
  name <- getitem topic "name" ;;
  title <- getitem topic "title" ;;
  let claude_content := create_topic_content num name title in
  f <- open_w (join topic_path ["claude.md"]) ;;
  f_write f None claude_content ;;
  title <- getitem topic "title" ;;
  print ("Created structure for " +:+ py_str title).

(** [create_all_topics()], with the list it loops over as a parameter. *)
Definition create_all_topics_over (topics : list (gmap string pyval)) : M unit :=
  for_each topics create_topic.

Definition create_all_topics : M unit := create_all_topics_over TOPICS.

(** The file run as a script ([__name__ == "__main__"]). *)
Definition script : M unit :=
  create_all_topics ;;
  print (NL +:+ "All topic structures created!") ;;
  print "Now run the comprehensive content generator...".

(** *** What a run needs of the tree, and what it leaves *)

(** The components of [base_path]. *)
Definition base_comps : list string := ["media"; "usb"; "anrai"; "golang"; "go_theory"].

Definition levels : list string := ["basic"; "intermediate"; "advanced"].

(** The name of the directory of a topic, [f"{topic['num']}_{topic['name']}"]. *)
Definition topic_dir (topic : gmap string pyval) : string :=
  match topic !! "num", topic !! "name" with
  | Some num, Some name => py_str num +:+ "_" +:+ py_str name
  | _, _ => ""
  end.

(** The text of the [claude.md] of a topic. *)
Definition claude_text (topic : gmap string pyval) : string :=
  match topic !! "num", topic !! "name", topic !! "title" with
  | Some num, Some name, Some title => create_topic_content num name title
  | _, _, _ => ""
  end.

(** The line printed for a topic. *)
Definition created_line (topic : gmap string pyval) : string :=
  match topic !! "title" with
  | Some title => "Created structure for " +:+ py_str title
  | None => ""
  end.

(** An entry the loop can process: the three string fields are there, the
    directory name is a plain name, and the title is ASCII. *)
Definition topic_ok (topic : gmap string pyval) : bool :=
  match topic !! "num", topic !! "name", topic !! "title" with
  | Some _, Some _, Some title => plain_name (topic_dir topic) && is_ascii (py_str title)
  | _, _, _ => false
  end.

(** Whether the flag [key] of a topic is set (a missing flag counts as set). *)
Definition wants (topic : gmap string pyval) (key : string) : bool :=
  truthy (get topic key (PBool true)).

(** Where the [examples] directory of a topic directory and a level is. *)
Definition examples_dir (d level : string) : list string :=
  base_comps ++ [d; level; "examples"].

(** Where the [claude.md] of a topic directory is. *)
Definition claude_key (d : string) : list string := base_comps ++ [d; "claude.md"].

(** The levels whose [examples] directory the loop makes for a topic:
    [basic] always, the other two when their flag is set. *)
Definition wanted_levels (topic : gmap string pyval) : list string :=
  "basic"
  :: (if wants topic "needs_intermediate" then ["intermediate"] else [])
  ++ (if wants topic "needs_advanced" then ["advanced"] else []).

(** The tree after one entry has been processed. *)
Definition after_topic (fs : gmap (list string) node) (topic : gmap string pyval)
  : gmap (list string) node :=
  let d := topic_dir topic in
  <[claude_key d := File (claude_text topic)]>
    (fold_left (fun fs level => with_dirs fs [] (examples_dir d level))
               (wanted_levels topic) fs).

(** The places where a run over the topic directories [ds] may need a
    directory ... *)
Definition dir_places (ds : list string) : list (list string) :=
  flat_map (fun d => flat_map (fun level => steps [] (examples_dir d level)) levels) ds.

(** ... and where it writes a file. *)
Definition file_places (ds : list string) : list (list string) := map claude_key ds.

(** An entry of the tree that is not in the way of a run: no regular file
    where a directory may be needed, no directory where a file is written. *)
Definition entry_ok (ds : list string) (k : list string) (n : node) : bool :=
  match n with
  | File _ => negb (bool_decide (k ∈ dir_places ds))
  | Dir => negb (bool_decide (k ∈ file_places ds))
  end.

(** The tree is ready for a run: no entry is in the way. *)
Definition tree_ready (ds : list string) (fs : gmap (list string) node) : bool :=
  forallb (fun kv : list string * node => entry_ok ds (fst kv) (snd kv)) (map_to_list fs).

(** A script that serves every tree: wherever it is started, it returns,
    and afterwards every entry of [TOPICS] has its [basic/examples]
    directory and its [claude.md]. *)
Definition serves_every_tree (script : M unit) : Prop :=
  forall (e : env) (s : state),
    fst (script e s) = Ok tt /\
    Forall (fun t =>
              isdir (snd (script e s))
                    (join base_path [topic_dir t; "basic"; "examples"]) = true /\
              file_bytes (snd (script e s)) (join base_path [topic_dir t; "claude.md"])
              = Some (claude_text t))
           TOPICS.

End generate_comprehensive_theory.

(** ** Where string literals end: the part of Python's lexical analysis
    that decides whether a file can be compiled at all *)

Module PyLex.
Import Py Proc.

(** Where the scanner is: between tokens, in a comment, in a literal
    opened by one quote, or in a literal opened by three quotes on the
    given line. *)
Inductive lex_state :=
| Code
| Comment
| Short (q : ascii) (opened : nat)
| Long (q : ascii) (opened : nat)
| Unterminated (opened : nat).

Definition is_quote (c : ascii) : bool :=
  Ascii.eqb c (ascii_of_nat 34) || Ascii.eqb c (ascii_of_nat 39).

Definition is_newline (c : ascii) : bool := Ascii.eqb c (ascii_of_nat 10).

Definition is_backslash (c : ascii) : bool := Ascii.eqb c (ascii_of_nat 92).

(** One pass over the text.  [skip] counts characters already consumed by
    lookahead (the rest of a triple quote, the character after a
    backslash).  A prefix letter ([f], [r], [b]) does not change where a
    literal ends. *)
Fixpoint scan (st : lex_state) (line skip : nat) (text : string) : lex_state :=
  match text with
  | "" => st
  | String c r =>
      let line' := if is_newline c then S line else line in
      match skip with
      | S k => scan st line' k r
      | O =>
          match st with
          | Code =>
              if Ascii.eqb c "#" then scan Comment line' 0 r
              else if is_quote c then
                if String.prefix (String c (String c "")) r
                then scan (Long c line) line' 2 r
                else scan (Short c line) line' 0 r
              else scan Code line' 0 r
          | Comment =>
              if is_newline c then scan Code line' 0 r else scan Comment line' 0 r
          | Short q l =>
              if is_backslash c then scan st line' 1 r
              else if Ascii.eqb c q then scan Code line' 0 r
              else if is_newline c then Unterminated l
              else scan st line' 0 r
          | Long q l =>
              if is_backslash c then scan st line' 1 r
              else if Ascii.eqb c q && String.prefix (String q (String q "")) r
              then scan Code line' 2 r
              else scan st line' 0 r
          | Unterminated l => Unterminated l
          end
      end
  end.

(** The state at the end of the file, scanning from line 1. *)
Definition scan_file (text : string) : lex_state := scan Code 1 0 text.

(** Running or importing a file: the whole text is compiled before the
    first statement runs, and a literal still open at the end of the file
    is a [SyntaxError]. *)
Definition run_file (text : string) (statements : M unit) : M unit :=
  match scan_file text with
  | Code | Comment => statements
  | Short _ _ | Long _ _ | Unterminated _ => raise SyntaxError
  end.

End PyLex.

(** ** generate_theories.py *)

Module generate_theories.
Import Py Proc Os PyLex.
Local Open Scope py_scope.

Definition DQ : string := String (ascii_of_nat 34) "".

(** [create_theory_file], as the [def] at the top of the file reads. *)
Definition create_theory_file (topic_path level content : string) : M unit :=
  let filepath := join topic_path [level; "theory.md"] in
  makedirs (dirname filepath) ;;
  f <- open_w filepath ;;
  f_write f None content ;;
  print ("✓ Created: " +:+ filepath).

(** The text of the file, from its first to its last character. *)
Definition source : string :=
  String.concat DQ
  [ "#!/usr/bin/env python3
";
    "";
    "";
    "
Comprehensive Go Theory Generator
Creates detailed theory files for all Go topics with C/C++ comparisons and design rationale
";
    "";
    "";
    "

import os
import sys

def create_theory_file(topic_path, level, content):
    ";
    "";
    "";
    "Create a theory.md file with the given content";
    "";
    "";
    "
    filepath = os.path.join(topic_path, level, ";
    "theory.md";
    ")
    os.makedirs(os.path.dirname(filepath), exist_ok=True)
    
    with open(filepath, 'w') as f:
        f.write(content)
    
    print(f";
    "✓ Created: {filepath}";
    ")

def generate_all_theories():
    ";
    "";
    "";
    "Generate all theory files";
    "";
    "";
    "
    
    # Topic 01: Basics and Syntax
    print(";
    "\n=== Generating Topic 01: Basics and Syntax ===";
    ")
    
    # Already created basic, now create intermediate and advanced
    
    intermediate_01 = ";
    "";
    "";
    "# Go Basics and Syntax - Intermediate Level

## Overview
This covers package organization, visibility rules, build tags, and more advanced syntax features.

---

## 1. Package Organization

### Package Structure
```go
// File: myapp/utils/strings.go
package utils

import ";
    "strings";
    "

// Exported function
func Capitalize(s string) string {
    return strings.ToUpper(s)
}

// unexported helper
func helper() {
    // only visible within package
}
```

### C/C++ Comparison
```cpp
// header.h
#ifndef HEADER_H
#define HEADER_H

class Utils {
public:
    static std::string Capitalize(const std::string& s);
private:
    static void helper();
};

#endif
```

### Design Rationale

**Package as Compilation Unit**
- **Why**: All files in a package share the same namespace
- **C/C++ Difference**: Each .cpp file is independent; must include headers
- **Benefit**: No need to declare functions before use within package
- **Trade-off**: All files must agree on package name

**No Circular Imports**
- **Why**: Import graph must be acyclic (DAG)
- **Enforced**: Compile-time error if circular import detected
- **C/C++ Problem**: Header files can have circular dependencies (solved with forward declarations)
- **Go Solution**: Forces better architecture - if A needs B and B needs A, extract interface to C

**Internal Packages**
```go
// Directory structure:
// myapp/
//   internal/
//     helper/
//       helper.go    // Can only be imported by myapp or its subpackages
```

- **Why**: Enforce encapsulation at directory level
- **Design Choice**: Prevent external packages from depending on internal implementation
- **C/C++ Comparison**: No equivalent; relies on documentation/";
    "do not use";
    " comments

---

## 2. Multiple Files in Package

### How It Works
```go
// File: math/add.go
package math

func Add(a, b int) int {
    return a + b
}

// File: math/multiply.go
package math

func Multiply(a, b int) int {
    return a * b
}

// File: math/helpers.go
package math

func helper() int {
    // visible to add.go and multiply.go
    return 42
}
```

### Design Rationale

**Shared Package Namespace**
- **Why**: Split large packages across files without imports
- **C/C++ Difference**: Would need headers and forward declarations
- **Benefit**: Natural code organization by functionality
- **Convention**: Separate concerns (types in one file, methods in another)

**No Header Files**
- **Why**: Each source file is self-contained with imports
- **C/C++ Problem**: Header duplication, include order dependencies, header guards
- **Go Solution**: Compiler handles dependencies through imports

---

## 3. Init Functions

### Syntax
```go
package database

import ";
    "database/sql";
    "

var db *sql.DB

func init() {
    // Runs automatically before main()
    // Runs once per package
    db, _ = sql.Open(";
    "postgres";
    ", ";
    "connection_string";
    ")
}

func init() {
    // Can have multiple init functions
    // Execute in order of appearance
    setupLogging()
}
```

### C/C++ Comparison
```cpp
// C++ has global constructors
class DatabaseInitializer {
public:
    DatabaseInitializer() {
        // Runs before main(), but order between translation units is undefined!
        initDatabase();
    }
};

DatabaseInitializer globalInit;  // Static initialization
```

### Design Rationale

**Why init()?**
- **Purpose**: Package initialization (open connections, register drivers, etc.)
- **Timing**: After all variable initialization, before main()
- **Order**: Well-defined (import order determines execution order)

**C/C++ Problem**:
- Static initialization order fiasco (undefined order across translation units)
- No control over initialization timing
- Can lead to bugs when global A depends on global B

**Go Solution**:
- Deterministic order: imports first, then variable declarations, then init()
- Multiple init() in same file: run in order
- Multiple packages: run in import dependency order

**Best Practices**:
- Keep init() simple
- Avoid init() if possible (prefer explicit initialization)
- Don't rely on side effects from imported packages

---

## 4. Build Tags (Conditional Compilation)

### Syntax
```go
//go:build linux
// +build linux

package myapp

func platformSpecific() {
    // Linux-specific code
}
```

```go
//go:build windows
// +build windows

package myapp

func platformSpecific() {
    // Windows-specific code
}
```

### C/C++ Comparison
```cpp
#ifdef _WIN32
    // Windows code
#elif __linux__
    // Linux code
#elif __APPLE__
    // macOS code
#endif
```

### Design Rationale

**Why Build Tags Instead of #ifdef?**
- **Go Approach**: Separate files for different platforms
- **C/C++ Approach**: Preprocessor conditionals within files
- **Design Choice**: Cleaner code - no mixed platform code in one file

**Advantages**:
1. **No Preprocessor**: Simpler language (no #ifdef maze)
2. **Whole File**: Entire file is included or excluded
3. **Multiple Conditions**: Can combine (linux AND amd64)
4. **Tooling**: `go build` handles automatically

**Common Build Tags**:
```go
//go:build (linux || darwin) && amd64
//go:build !cgo
//go:build integration
```

**Tag Combinations**:
- AND: `&&` or space
- OR: `||` or comma
- NOT: `!`

---

## 5. Blank Identifier (_)

### Usage
```go
// Ignore return values
value, _ := functionThatReturnsError()

// Import for side effects only
import _ ";
    "database/sql/driver";
    "  // Runs init() but doesn't use exports

// Enforce interface implementation at compile time
var _ io.Reader = (*MyType)(nil)

// Ignore loop variables
for _, value := range slice {
    // Don't need index
}
```

### C/C++ Comparison
```cpp
// C++17: structured bindings with [[maybe_unused]]
auto [value, [[maybe_unused]] error] = function();

// Or just ignore
auto value = function().first;  // If returning std::pair
```

### Design Rationale

**Why Blank Identifier?**
- **Unused Variables**: Go compiler error on unused variables
- **Problem**: Sometimes you don't need all return values
- **Solution**: Explicit ignore with `_`

**Design Philosophy**:
- **Explicit over implicit**: Must deliberately ignore values
- **No Silent Bugs**: Can't accidentally ignore errors by forgetting variable
- **Trade-off**: More verbose than C/C++, but safer

**Import for Side Effects**:
```go
import _ ";
    "net/http/pprof";
    "  // Registers debug handlers
```
- **Why**: Package init() registers itself, but you don't call its functions
- **C/C++ Comparison**: No equivalent (would need explicit init call)

---

## 6. Type Assertions and Type Switches

### Type Assertions
```go
var i interface{} = ";
    "hello";
    "

// Type assertion
s := i.(string)        // Panics if wrong type
s, ok := i.(string)    // Safe: ok is false if wrong type

if str, ok := i.(string); ok {
    fmt.Println(str)
}
```

### Type Switch
```go
func describe(i interface{}) {
    switch v := i.(type) {
    case int:
        fmt.Printf(";
    "Integer: %d\n";
    ", v)
    case string:
        fmt.Printf(";
    "String: %s\n";
    ", v)
    case bool:
        fmt.Printf(";
    "Boolean: %t\n";
    ", v)
    default:
        fmt.Printf(";
    "Unknown type: %T\n";
    ", v)
    }
}
```

### C/C++ Comparison
```cpp
// C++: dynamic_cast (only for polymorphic types)
class Base { virtual ~Base() {} };
class Derived : public Base {};

Base* b = new Derived();
Derived* d = dynamic_cast<Derived*>(b);
if (d != nullptr) {
    // Cast succeeded
}

// Or typeid for runtime type info
if (typeid(*b) == typeid(Derived)) {
    // ...
}
```

### Design Rationale

**Why Type Assertions?**
- **Interface Values**: Can hold any concrete type
- **Need**: Sometimes must extract concrete type
- **Safety**: Two forms - panic on error or return bool

**Go vs C++ RTTI**:
- **C++ RTTI**: Only works with polymorphic types (virtual functions)
- **Go**: Works with all interface values
- **C++ Cost**: RTTI has runtime overhead, often disabled
- **Go Cost**: Interfaces always have type information

**Type Switch Design**:
- **Unique to Go**: No equivalent in C/C++
- **Pattern Matching**: Switch on type, not value
- **Variable Binding**: Each case gets correctly-typed variable

---

## 7. Package Aliases

### Syntax
```go
import (
    ";
    "fmt";
    "
    ";
    "math/rand";
    "
    
    mrand ";
    "math/rand";
    "      // Alias
    crand ";
    "crypto/rand";
    "    // Avoid conflict
    
    . ";
    "fmt";
    "                // Dot import (use with caution!)
)

func example() {
    mrand.Intn(100)        // math/rand
    crand.Read(buffer)     // crypto/rand
    
    Println(";
    "hello";
    ")       // fmt.Println via dot import
}
```

### Design Rationale

**Import Aliases**
- **Problem**: Package name conflicts
- **Solution**: Rename at import site
- **C/C++ Comparison**: C++ namespace aliases (`namespace m = math;`)

**Dot Import (.)** - Controversial!
```go
import . ";
    "fmt";
    "

func main() {
    Println(";
    "No package prefix needed";
    ")
}
```

**Why Discouraged**:
- **Namespace Pollution**: Unclear where identifiers come from
- **Valid Use**: Testing (test file imports package being tested with dot)
- **Philosophy**: Explicit is better than implicit

---

## 8. Embedding and Composition

### Embedding Structs
```go
type Engine struct {
    HP int
}

func (e Engine) Start() {
    fmt.Println(";
    "Engine starting...";
    ")
}

type Car struct {
    Engine  // Embedded (anonymous field)
    Brand string
}

func main() {
    c := Car{
        Engine: Engine{HP: 200},
        Brand: ";
    "Toyota";
    ",
    }
    
    c.Start()      // Promoted from Engine
    c.Engine.Start()  // Or explicit
}
```

### C/C++ Comparison
```cpp
// C++: Inheritance
class Engine {
public:
    int HP;
    void Start() {
        std::cout << ";
    "Engine starting...";
    " << std::endl;
    }
};

class Car : public Engine {  // Inheritance
public:
    std::string Brand;
};

int main() {
    Car c;
    c.HP = 200;
    c.Start();  // Inherited method
}
```

### Design Rationale

**Why Embedding Instead of Inheritance?**
- **Go Philosophy**: ";
    "Composition over inheritance";
    "
- **No Subtyping**: Car is not a ";
    "kind of";
    " Engine
- **Method Promotion**: Engine's methods available on Car, but not polymorphic
- **Explicit**: Can always use `c.Engine.Start()` for clarity

**C++ Problems Go Avoids**:
1. **Diamond Problem**: Multiple inheritance ambiguity
2. **Fragile Base Class**: Changing base breaks derived classes
3. **Deep Hierarchies**: Complex inheritance trees are hard to understand
4. **Virtual Function Overhead**: V-tables and dynamic dispatch cost

**Go Solution**:
- **Interfaces for Polymorphism**: Not inheritance
- **Embedding for Code Reuse**: Not subtyping
- **Clear Semantics**: Always know which method is called

---

## 9. Constants and Iota

### Advanced Iota Usage
```go
type ByteSize float64

const (
    _           = iota  // ignore first value
    KB ByteSize = 1 << (10 * iota)  // 1 << 10 = 1024
    MB                                 // 1 << 20
    GB                                 // 1 << 30
    TB                                 // 1 << 40
    PB                                 // 1 << 50
)

type Flags uint

const (
    FlagRead Flags = 1 << iota  // 1
    FlagWrite                    // 2
    FlagExec                     // 4
)
```

### C/C++ Comparison
```cpp
// C++ enum
enum ByteSize {
    KB = 1024,
    MB = 1024 * 1024,
    GB = 1024 * 1024 * 1024,
    // Must calculate manually!
};

// Or with bitwise
enum Flags {
    FlagRead  = 1 << 0,
    FlagWrite = 1 << 1,
    FlagExec  = 1 << 2,
};
```

### Design Rationale

**Iota Design**
- **Purpose**: Generate related constants
- **Auto-increment**: Increments for each const in block
- **Reset**: Resets to 0 in each const block
- **Power**: Can use in expressions

**Why Iota?**
- **DRY Principle**: Don't repeat pattern
- **Error Prevention**: Easy to miss a number in sequence
- **Refactoring**: Can reorder without renumbering

**C/C++ Comparison**:
- C has enums, but less powerful
- Must manually calculate values
- Go's iota is more flexible (not just integers)

---

## Summary: Intermediate Go Features

| Feature | C/C++ | Go | Design Reason |
|---------|-------|-----|---------------|
| **Package Organization** | Headers + Sources | Package namespace | Faster compilation |
| **Circular Dependencies** | Possible (with forward declarations) | Compile error | Force better design |
| **Init Functions** | Static constructors (undefined order) | Deterministic init() | Predictable initialization |
| **Conditional Compilation** | #ifdef preprocessor | Build tags | Cleaner code separation |
| **Type Assertions** | dynamic_cast (limited) | Universal for interfaces | Flexible, type-safe |
| **Composition** | Inheritance (is-a) | Embedding (has-a) | Simplicity, avoid fragile base class |
| **Constants** | enum, #define | const + iota | Powerful, type-safe |

**Philosophy**: Go emphasizes explicit, simple solutions over C/C++'s flexible but complex features." ].

(** The file run or imported: whatever its statements would do. *)
Definition script (statements : M unit) : M unit := run_file source statements.

End generate_theories.

(** ** Sample runs *)

Module Sample.
Import Py Proc.

(** A tree in which the scripts live in [/srv/go_theory], next to two
    topic directories for topic 01 (both with [basic/theory.md]) and one
    for topic 02 (with [intermediate/theory.md] only). *)
Definition tree : gmap (list string) node :=
  list_to_map
    [ (["srv"], Dir);
      (["srv"; "go_theory"], Dir);
      (["srv"; "go_theory"; "FINAL_GENERATOR.py"], File "");
      (["srv"; "go_theory"; "01_basics_and_syntax"], Dir);
      (["srv"; "go_theory"; "01_basics_and_syntax"; "basic"], Dir);
      (["srv"; "go_theory"; "01_basics_and_syntax"; "basic"; "theory.md"], File "# Basics");
      (["srv"; "go_theory"; "01_old"], Dir);
      (["srv"; "go_theory"; "01_old"; "basic"], Dir);
      (["srv"; "go_theory"; "01_old"; "basic"; "theory.md"], File "# Old");
      (["srv"; "go_theory"; "02_data_types_and_variables"], Dir);
      (["srv"; "go_theory"; "02_data_types_and_variables"; "intermediate"], Dir);
      (["srv"; "go_theory"; "02_data_types_and_variables"; "intermediate"; "theory.md"],
       File "# Types") ].

(** The process starts in [/srv] with nothing printed. *)
Definition start : state := mkState tree ["srv"] [].

(** A process started on the empty tree, in the root directory. *)
Definition empty_start : state := mkState ∅ [] [].

(** [python3 go_theory/FINAL_GENERATOR.py] under the locale codec [k],
    with or without a module [generate_all_content] on the import path. *)
Definition run_env (k : codec) (m : option foreign) : env :=
  mkEnv k "go_theory/FINAL_GENERATOR.py" m.

(** A [generate_all_theories] that prints one line and returns. *)
Definition quiet_generator : foreign :=
  fun fs cwd => (Ok tt, fs, cwd, ["generated"]).

(** A tree in which [/media/usb/anrai/golang/go_theory] exists and holds
    the script, a stale [claude.md] for topic 01 and one theory file. *)
Definition mounted : gmap (list string) node :=
  list_to_map
    [ (["media"], Dir);
      (["media"; "usb"], Dir);
      (["media"; "usb"; "anrai"], Dir);
      (["media"; "usb"; "anrai"; "golang"], Dir);
      (["media"; "usb"; "anrai"; "golang"; "go_theory"], Dir);
      (["media"; "usb"; "anrai"; "golang"; "go_theory"; "generate_comprehensive_theory.py"],
       File "");
      (["media"; "usb"; "anrai"; "golang"; "go_theory"; "01_basics_and_syntax"], Dir);
      (["media"; "usb"; "anrai"; "golang"; "go_theory"; "01_basics_and_syntax"; "claude.md"],
       File "stale");
      (["media"; "usb"; "anrai"; "golang"; "go_theory"; "01_basics_and_syntax"; "basic"], Dir);
      (["media"; "usb"; "anrai"; "golang"; "go_theory"; "01_basics_and_syntax"; "basic";
        "theory.md"], File "# Basics") ].

Definition mounted_start : state :=
  mkState mounted ["media"; "usb"; "anrai"; "golang"; "go_theory"] [].

(** A tree in which a regular file sits at [/media] ... *)
Definition blocked_start : state :=
  mkState (list_to_map [(["media"], File "")]) [] [].

(** ... and one in which a directory sits where the first [claude.md]
    goes. *)
Definition occupied_start : state :=
  mkState
    (<[ ["media"; "usb"; "anrai"; "golang"; "go_theory"; "01_basics_and_syntax";
         "claude.md"] := Dir ]> mounted)
    ["media"; "usb"; "anrai"; "golang"; "go_theory"] [].

(** A [generate_all_theories] that writes one file, prints one line and
    then fails on an import of its own. *)
Definition failing_generator : foreign :=
  fun fs cwd => (Raise ImportError, <[cwd ++ ["partial.md"] := File "half"]> fs, cwd,
                 ["starting"]).

(** A [generate_all_theories] that fails on a missing key. *)
Definition crashing_generator : foreign :=
  fun fs cwd => (Raise KeyError, fs, cwd, []).

End Sample.

(** * Properties *)

Import Py Proc Os Loop.
Local Open Scope py_scope.

(** ** Strings and codecs *)

Lemma split_nonempty (sep : ascii) (s : string) : split sep s <> [].
Proof.
  induction s as [|c r IH]; simpl; [discriminate|].
  destruct (Ascii.eqb c sep); [discriminate|].
  destruct (split sep r); discriminate.
Qed.

Lemma split_length (sep : ascii) (s : string) : (1 <= length (split sep s))%nat.
Proof.
  pose proof (split_nonempty sep s) as H.
  destruct (split sep s); [congruence | simpl; lia].
Qed.

Lemma index_from_end_in_range {A} (l : list A) (k : nat) :
  (1 <= k)%nat -> (k <= length l)%nat -> exists x, index_from_end l k = Some x.
Proof.
  intros Hk Hl. unfold index_from_end.
  destruct (Nat.leb_spec k (length l)); [|lia].
  destruct (nth_error l (length l - k)) eqn:E; [eauto|].
  apply nth_error_None in E. lia.
Qed.

Lemma encode_latin_1_ascii (s : string) : is_ascii s = true -> encode_latin_1 s = Some s.
Proof.
  induction s as [|c r IH]; simpl; [reflexivity|].
  unfold is_ascii_char. intros H. apply andb_prop in H as [Hc Hr].
  rewrite Hc, (IH Hr). reflexivity.
Qed.

Lemma is_ascii_no_surrogate (s : string) : is_ascii s = true -> has_surrogate s = false.
Proof.
  induction s as [|c r IH]; [reflexivity|].
  cbn [is_ascii has_surrogate]. unfold is_ascii_char. intros H.
  apply andb_prop in H as [Hc Hr]. rewrite (IH Hr), orb_false_r.
  apply Nat.ltb_lt in Hc.
  destruct (Nat.eqb_spec (nat_of_ascii c) 237); [lia | reflexivity].
Qed.

Lemma encode_ascii (k : codec) (s : string) : is_ascii s = true -> encode k s = Some s.
Proof.
  intros H. destruct k; simpl.
  - rewrite (is_ascii_no_surrogate _ H). reflexivity.
  - apply encode_latin_1_ascii, H.
  - rewrite H. reflexivity.
Qed.

Lemma is_ascii_app (a b : string) : is_ascii (a +:+ b) = is_ascii a && is_ascii b.
Proof.
  induction a as [|c r IH]; simpl; [reflexivity|].
  rewrite IH, andb_assoc. reflexivity.
Qed.

(** [str.replace]: occurrences are taken left to right without overlap,
    and an empty search string matches between characters, not between
    the bytes of one. *)
Example replace_samples :
  replace "/srv/go_theory/srv/x" "/srv/" "" = "go_theoryx" /\
  replace "aaa" "aa" "b" = "ba" /\
  replace "aé" "" "-" = "-a-é-".
Proof. vm_compute. repeat split; reflexivity. Qed.

(** ** Statements *)

Lemma add_events_nil (s : state) : add_events s [] = s.
Proof. destruct s. unfold add_events. simpl. rewrite app_nil_r. reflexivity. Qed.

Lemma add_events_app (s : state) (a b : list event) :
  add_events (add_events s a) b = add_events s (a ++ b).
Proof. unfold add_events. simpl. rewrite app_assoc. reflexivity. Qed.

Lemma print_ascii (t : string) (e : env) (s : state) :
  is_ascii t = true -> print t e s = (Ok tt, add_events s [EvPrint t]).
Proof. intros H. unfold print. rewrite (encode_ascii _ _ H). reflexivity. Qed.

Lemma print_lines_ascii (ts : list string) (e : env) (s : state) :
  forallb is_ascii ts = true ->
  for_each ts print e s = (Ok tt, add_events s (map EvPrint ts)).
Proof.
  revert s. induction ts as [|t ts IH]; intros s H; simpl.
  - rewrite add_events_nil. reflexivity.
  - apply andb_prop in H as [Ht Hts].
    unfold bind. rewrite (print_ascii _ _ _ Ht), (IH _ Hts), add_events_app.
    reflexivity.
Qed.

(** ** Path resolution and [os.makedirs] *)

Lemma walk_error (fs : gmap (list string) node) (comps cur : list string) (x : exn) :
  walk fs cur comps = RErr x -> os_error x = true.
Proof.
  revert cur. induction comps as [|c rest IH]; intros cur; cbn [walk]; [discriminate|].
  destruct (String.eqb c "" || String.eqb c "."); [apply IH|].
  destruct (String.eqb c ".."); [apply IH|].
  destruct (NAME_MAX <? String.length c)%nat; [intros [= <-]; reflexivity|].
  destruct (node_at fs (cur ++ [c])) as [[|b]|].
  - apply IH.
  - destruct rest; [discriminate|]. intros [= <-]. reflexivity.
  - destruct (forallb (String.eqb "") rest); [discriminate|]. intros [= <-]. reflexivity.
Qed.

Lemma os_error_path_error (x : exn) : os_error x = true -> path_error x = true.
Proof. unfold path_error. intros ->. reflexivity. Qed.

Lemma resolve_error (s : state) (path : string) (x : exn) :
  resolve s path = RErr x -> path_error x = true.
Proof.
  unfold resolve. destruct (fsencode path) as [name|]; [|intros [= <-]; reflexivity].
  destruct (has_nul name); [intros [= <-]; reflexivity|].
  destruct (String.eqb name ""); [intros [= <-]; reflexivity|].
  destruct (PATH_MAX <=? String.length name)%nat; [intros [= <-]; reflexivity|].
  intros H. apply os_error_path_error. eapply walk_error, H.
Qed.

Lemma mkdir_error (path : string) (e : env) (s s' : state) (x : exn) :
  mkdir path e s = (Raise x, s') -> path_error x = true.
Proof.
  unfold mkdir. destruct (resolve s path) eqn:E.
  - intros [= <- _]. reflexivity.
  - discriminate.
  - intros [= <- _]. eapply resolve_error, E.
Qed.

Lemma cut_at_last_slash_length (p : string) :
  String.length (fst (cut_at_last_slash p)) + String.length (snd (cut_at_last_slash p))
  = String.length p.
Proof.
  induction p as [|c r IH]; simpl; [reflexivity|].
  destruct (cut_at_last_slash r) as [h t]. simpl in IH.
  destruct h as [|a h'].
  - destruct (Ascii.eqb c "/"); simpl in *; lia.
  - simpl in *. lia.
Qed.

Lemma rstrip_length (c : ascii) (s : string) :
  (String.length (rstrip c s) <= String.length s)%nat.
Proof.
  induction s as [|a r IH]; simpl; [lia|].
  destruct (rstrip c r) as [|b r'].
  - destruct (Ascii.eqb a c); simpl; lia.
  - simpl in *. lia.
Qed.

Lemma path_split_length (p : string) :
  (String.length (fst (path_split p)) + String.length (snd (path_split p))
   <= String.length p)%nat.
Proof.
  unfold path_split. pose proof (cut_at_last_slash_length p) as H.
  destruct (cut_at_last_slash p) as [h t]. simpl in *.
  destruct (negb (String.eqb h "") && negb (all_char "/" h)); [|lia].
  pose proof (rstrip_length "/" h). lia.
Qed.

(** The string [os.makedirs] recurses on is shorter than its argument. *)
Lemma makedirs_head_shorter (name head tail : string) :
  makedirs_parts name = (head, tail) ->
  String.eqb tail "" = false ->
  (String.length head < String.length name)%nat.
Proof.
  unfold makedirs_parts. destruct (path_split name) as [h1 t1] eqn:E1.
  intros H Ht.
  assert (String.length tail <> 0)%nat as Hlen.
  { destruct tail; [discriminate | simpl; lia]. }
  pose proof (path_split_length name) as H1. rewrite E1 in H1. simpl in H1.
  destruct (String.eqb t1 "").
  - pose proof (path_split_length h1) as H2. rewrite H in H2. simpl in H2. lia.
  - injection H as -> ->. lia.
Qed.

Lemma mkdir_exist_ok_error (name : string) (e : env) (s s' : state) (x : exn) :
  mkdir_exist_ok name e s = (Raise x, s') -> path_error x = true.
Proof.
  unfold mkdir_exist_ok. destruct (mkdir name e s) as [[[]|y] s1] eqn:E; [discriminate|].
  destruct (os_error y && isdir s1 name); [discriminate|].
  intros [= <- _]. eapply mkdir_error, E.
Qed.

(** With [String.length name] levels to spend, [os.makedirs] raises
    nothing but what a path can raise: in particular the recursion never
    runs out. *)
Lemma makedirs_rec_error (fuel : nat) (name : string) (e : env) (s s' : state) (x : exn) :
  (String.length name < fuel)%nat ->
  makedirs_rec fuel name e s = (Raise x, s') -> path_error x = true.
Proof.
  revert name s s' x. induction fuel as [|n IH]; intros name s s' x Hlen; [lia|].
  cbn [makedirs_rec]. destruct (makedirs_parts name) as [head tail] eqn:Hp.
  destruct (negb (String.eqb head "") && negb (String.eqb tail "")
            && negb (path_exists s head)) eqn:Hc.
  - apply andb_prop in Hc as [Hc _]. apply andb_prop in Hc as [_ Ht].
    apply negb_true_iff in Ht.
    pose proof (makedirs_head_shorter _ _ _ Hp Ht) as Hlt.
    destruct (makedirs_rec n head e s) as [[[]|y] s1] eqn:E.
    + destruct (String.eqb tail "."); [discriminate|]. apply mkdir_exist_ok_error.
    + destruct (bool_decide (y = FileExistsError)).
      * destruct (String.eqb tail "."); [discriminate|]. apply mkdir_exist_ok_error.
      * intros [= <- _]. eapply (IH head); [lia | exact E].
  - apply mkdir_exist_ok_error.
Qed.

Lemma makedirs_error (name : string) (e : env) (s s' : state) (x : exn) :
  makedirs name e s = (Raise x, s') -> path_error x = true.
Proof. apply makedirs_rec_error. lia. Qed.

Lemma open_w_error (path : string) (e : env) (s s' : state) (x : exn) :
  open_w path e s = (Raise x, s') -> path_error x = true.
Proof.
  unfold open_w. destruct (resolve s path) as [abs [|b]|parent name [|]|y] eqn:E;
    try discriminate; intros [= <- _]; try reflexivity.
  eapply resolve_error, E.
Qed.

Lemma f_write_error f enc text (e : env) (s s' : state) (x : exn) :
  f_write f enc text e s = (Raise x, s') -> x = UnicodeEncodeError.
Proof.
  unfold f_write. destruct (encode _ text); [discriminate|]. now intros [= <- _].
Qed.

Lemma print_error text (e : env) (s s' : state) (x : exn) :
  print text e s = (Raise x, s') -> x = UnicodeEncodeError.
Proof.
  unfold print. destruct (encode _ text); [discriminate|]. now intros [= <- _].
Qed.

(** ** FINAL_GENERATOR.py: the progress message *)

Lemma progress_message_ok (path : string) :
  exists line, FINAL_GENERATOR.progress_message path = Ok line.
Proof.
  unfold FINAL_GENERATOR.progress_message.
  set (parts := split "/" path).
  assert (exists topic, (if (3 <=? length parts)%nat
            then match index_from_end parts 3 with
                 | Some t => Ok t | None => Raise IndexError end
            else Ok "") = Ok topic) as [topic ->].
  { destruct (Nat.leb_spec 3 (length parts)); [|eauto].
    destruct (index_from_end_in_range parts 3) as [t ->]; [lia | lia | eauto]. }
  assert (exists level, (if (2 <=? length parts)%nat
            then match index_from_end parts 2 with
                 | Some t => Ok t | None => Raise IndexError end
            else Ok "") = Ok level) as [level ->].
  { destruct (Nat.leb_spec 2 (length parts)); [|eauto].
    destruct (index_from_end_in_range parts 2) as [t ->]; [lia | lia | eauto]. }
  eauto.
Qed.

(** C10.  For every path string, [path.split('/')] has at least one part,
    the progress message of [write_file] in FINAL_GENERATOR.py is computed
    without an [IndexError] (the accesses [parts[-3]] and [parts[-2]] sit
    behind their length checks), and no run of [write_file] ends in an
    [IndexError]. *)
Theorem write_file_progress_total (path content : string) (e : env) (s : state) :
  (1 <= length (split "/" path))%nat /\
  (exists line, FINAL_GENERATOR.progress_message path = Ok line) /\
  fst (FINAL_GENERATOR.write_file path content e s) <> Raise IndexError.
Proof.
  split; [apply split_length|]. split; [apply progress_message_ok|].
  unfold FINAL_GENERATOR.write_file, bind.
  destruct (makedirs (dirname path) e s) as [[[]|x] s1] eqn:E1; cbn [fst].
  2:{ apply makedirs_error in E1. intros [= ->]. discriminate. }
  destruct (open_w path e s1) as [[f|x] s2] eqn:E2; cbn [fst].
  2:{ apply open_w_error in E2. intros [= ->]. discriminate. }
  destruct (f_write f (Some utf_8) content e s2) as [[[]|x] s3] eqn:E3; cbn [fst].
  2:{ apply f_write_error in E3. intros [= ->]. discriminate. }
  destruct (progress_message_ok path) as [line ->].
  destruct (print line e s3) as [[[]|x] s4] eqn:E4; cbn [fst]; [discriminate|].
  apply print_error in E4. intros [= ->]. discriminate.
Qed.

Lemma bind_print_ascii {B} (t : string) (k : unit -> M B) (e : env) (s : state) :
  is_ascii t = true ->
  bind (print t) k e s = k tt e (add_events s [EvPrint t]).
Proof. intros H. unfold bind. rewrite (print_ascii _ _ _ H). reflexivity. Qed.

(** Runs a block of [print] statements of ASCII text. *)
Ltac run_prints :=
  cbv zeta;
  repeat (rewrite bind_print_ascii by reflexivity);
  try (rewrite print_ascii by reflexivity);
  rewrite ?add_events_app.

(** The lines behind a list of [EvPrint] events. *)
Ltac printed_lines evs :=
  eval cbv in (omap (fun ev => match ev with EvPrint t => Some t | _ => None end) evs).

(** ** GENERATE_ALL_THEORIES.py and generate_all_theory_files.py *)

Lemma printing_scripts_run (e : env) (s : state) :
  (exists lines,
     GENERATE_ALL_THEORIES.script e s = (Ok tt, add_events s (map EvPrint lines))) /\
  (exists lines,
     generate_all_theory_files.script e s = (Ok tt, add_events s (map EvPrint lines))).
Proof.
  split.
  - unfold GENERATE_ALL_THEORIES.script. run_prints.
    match goal with |- context [add_events s ?evs] =>
      let l := printed_lines evs in exists l end.
    reflexivity.
  - unfold generate_all_theory_files.script. run_prints.
    match goal with |- context [add_events s ?evs] =>
      let l := printed_lines evs in exists l end.
    reflexivity.
Qed.

(** C9.  Run as scripts, GENERATE_ALL_THEORIES.py and
    generate_all_theory_files.py return normally from every starting
    state and leave the directory tree and the working directory as they
    were: the state afterwards is the state before plus lines printed to
    standard output. *)
Theorem print_only_scripts_leave_tree (e : env) (s : state) :
  (exists lines,
     GENERATE_ALL_THEORIES.script e s = (Ok tt, add_events s (map EvPrint lines))) /\
  (exists lines,
     generate_all_theory_files.script e s = (Ok tt, add_events s (map EvPrint lines))) /\
  st_fs (snd (GENERATE_ALL_THEORIES.script e s)) = st_fs s /\
  st_fs (snd (generate_all_theory_files.script e s)) = st_fs s.
Proof.
  destruct (printing_scripts_run e s) as [H1 H2].
  split; [exact H1|]. split; [exact H2|].
  destruct H1 as [l1 ->], H2 as [l2 ->]. split; reflexivity.
Qed.

(** ** generate_theories.py *)

(** C8.  The triple-quoted literal opened on line 28 of
    generate_theories.py is still open at the end of the file, so running
    or importing the file raises [SyntaxError] before any statement runs:
    whatever the statements are, the state is left as it was. *)
Theorem generate_theories_never_runs :
  PyLex.scan_file generate_theories.source = PyLex.Long (ascii_of_nat 34) 28 /\
  forall (statements : M unit) (e : env) (s : state),
    generate_theories.script statements e s = (Raise SyntaxError, s).
Proof.
  assert (PyLex.scan_file generate_theories.source = PyLex.Long (ascii_of_nat 34) 28) as H
    by (vm_compute; reflexivity).
  split; [exact H|].
  intros statements e s. unfold generate_theories.script, PyLex.run_file.
  rewrite H. reflexivity.
Qed.

(** ** generate_comprehensive_theory.py: the [TOPICS] constant *)

(** C6.  [TOPICS] has 20 entries; each has exactly the keys [num], [name],
    [title], [needs_intermediate] and [needs_advanced]; the [num] values
    are ["01"] to ["20"] in list order; both flags are [True] everywhere. *)
Theorem topics_constant :
  length generate_comprehensive_theory.TOPICS = 20%nat /\
  Forall (fun t : gmap string generate_comprehensive_theory.pyval =>
            dom t = list_to_set
                      ["num"; "name"; "title"; "needs_intermediate"; "needs_advanced"])
         generate_comprehensive_theory.TOPICS /\
  map (fun t : gmap string generate_comprehensive_theory.pyval => t !! "num")
      generate_comprehensive_theory.TOPICS
  = map (fun i => Some (generate_comprehensive_theory.PStr (fmt_02d i))) (range 1 21) /\
  Forall (fun t : gmap string generate_comprehensive_theory.pyval =>
            t !! "needs_intermediate" = Some (generate_comprehensive_theory.PBool true) /\
            t !! "needs_advanced" = Some (generate_comprehensive_theory.PBool true))
         generate_comprehensive_theory.TOPICS.
Proof.
  split; [reflexivity|]. split; [|split].
  - unfold generate_comprehensive_theory.TOPICS, generate_comprehensive_theory.dict.
    repeat (apply Forall_cons; split; [rewrite dom_list_to_map_L; simpl; reflexivity|]).
    constructor.
  - vm_compute. reflexivity.
  - unfold generate_comprehensive_theory.TOPICS.
    repeat (apply Forall_cons; split; [split; vm_compute; reflexivity|]).
    constructor.
Qed.


(** ** FINAL_GENERATOR.py: the status scan *)

Lemma scan_entries_spec (i : Z) (level : string) (entries : list string) (existing : Z)
    (e : env) (s : state) :
  FINAL_GENERATOR.scan_entries i level entries existing e s
  = (Ok (existing + Z.b2z (FINAL_GENERATOR.has_theory s entries i level))%Z, s).
Proof.
  unfold FINAL_GENERATOR.scan_entries, FINAL_GENERATOR.has_theory.
  induction entries as [|d rest IH]; cbn [for_in existsb].
  - unfold ret. simpl. rewrite Z.add_0_r. reflexivity.
  - unfold bind at 1.
    destruct (startswith d (fmt_02d i +:+ "_")); cbn [andb].
    + destruct (path_exists s _); cbn [orb].
      * reflexivity.
      * exact IH.
    + unfold ret at 1. cbn [orb]. exact IH.
Qed.

(** The pairs counted for one topic number, over the levels [ls]. *)
Lemma levels_loop_spec (i : Z) (ls entries : list string) (existing : Z)
    (e : env) (s : state) :
  listdir "." e s = (Ok entries, s) ->
  for_in ls existing (fun level existing =>
      bind (listdir ".") (fun entries =>
      bind (FINAL_GENERATOR.scan_entries i level entries existing) (fun existing =>
      ret (Continue, existing)))) e s
  = (Ok (existing + Z.of_nat (length (List.filter
             (fun level => FINAL_GENERATOR.has_theory s entries i level) ls)))%Z, s).
Proof.
  intros Hl. revert existing. induction ls as [|level ls IH]; intros existing; cbn [for_in].
  - unfold ret. simpl. rewrite Z.add_0_r. reflexivity.
  - unfold bind at 1. unfold bind at 1. rewrite Hl.
    unfold bind at 1. rewrite scan_entries_spec. unfold ret at 1.
    rewrite IH. cbn [List.filter].
    destruct (FINAL_GENERATOR.has_theory s entries i level); cbn [Z.b2z length].
    + do 2 f_equal. lia.
    + do 2 f_equal. lia.
Qed.

Lemma filter_list_prod_length {A B} (f : A * B -> bool) (xs : list A) (ys : list B) :
  length (List.filter f (list_prod xs ys))
  = list_sum (map (fun x => length (List.filter (fun y => f (x, y)) ys)) xs).
Proof.
  induction xs as [|x xs IH]; cbn [list_prod map]; [reflexivity|].
  change (list_sum (?a :: ?l)) with (a + list_sum l)%nat.
  rewrite List.filter_app, List.length_app, IH. f_equal.
  clear. induction ys as [|y ys IH]; cbn [map List.filter]; [reflexivity|].
  destruct (f (x, y)); cbn [length]; rewrite IH; reflexivity.
Qed.

Lemma topics_loop_spec (is_ : list Z) (entries : list string) (existing : Z)
    (e : env) (s : state) :
  listdir "." e s = (Ok entries, s) ->
  for_in is_ existing (fun i existing =>
      let topic := fmt_02d i +:+ "_*" in
      bind (for_in FINAL_GENERATOR.levels existing (fun level existing =>
              bind (listdir ".") (fun entries =>
              bind (FINAL_GENERATOR.scan_entries i level entries existing) (fun existing =>
              ret (Continue, existing)))))
           (fun existing => ret (Continue, existing))) e s
  = (Ok (existing + Z.of_nat (length (List.filter
             (fun p => FINAL_GENERATOR.has_theory s entries (fst p) (snd p))
             (list_prod is_ FINAL_GENERATOR.levels))))%Z, s).
Proof.
  intros Hl. rewrite filter_list_prod_length.
  revert existing. induction is_ as [|i is_ IH]; intros existing; cbn [for_in map].
  - unfold ret. simpl. rewrite Z.add_0_r. reflexivity.
  - cbv zeta. change (list_sum (?a :: ?l)) with (a + list_sum l)%nat. unfold bind at 1. unfold bind at 1.
    rewrite (levels_loop_spec _ _ _ _ _ _ Hl). unfold ret at 1.
    rewrite IH. do 2 f_equal. cbn [fst snd]. lia.
Qed.

Lemma count_existing_spec (entries : list string) (e : env) (s : state) :
  listdir "." e s = (Ok entries, s) ->
  FINAL_GENERATOR.count_existing e s = (Ok (FINAL_GENERATOR.spec_count s entries), s).
Proof.
  intros Hl. unfold FINAL_GENERATOR.count_existing, FINAL_GENERATOR.spec_count.
  rewrite (topics_loop_spec _ _ _ _ _ Hl). rewrite Z.add_0_l. reflexivity.
Qed.

Lemma spec_count_bounds (s : state) (entries : list string) :
  (0 <= FINAL_GENERATOR.spec_count s entries <= 60)%Z.
Proof.
  unfold FINAL_GENERATOR.spec_count.
  pose proof (List.filter_length_le
                (fun p => FINAL_GENERATOR.has_theory s entries (fst p) (snd p))
                (list_prod (range 1 21) FINAL_GENERATOR.levels)) as H.
  change (length (list_prod (range 1 21) FINAL_GENERATOR.levels)) with 60%nat in H.
  lia.
Qed.

Lemma string_of_uint_ascii (d : Decimal.uint) :
  is_ascii (NilEmpty.string_of_uint d) = true.
Proof. induction d; simpl; auto. Qed.

Lemma str_of_int_ascii (n : Z) : is_ascii (str_of_int n) = true.
Proof.
  unfold str_of_int, NilZero.string_of_int, NilZero.string_of_uint.
  destruct (Z.to_int n) as [d|d]; destruct d; try reflexivity;
    try apply (string_of_uint_ascii (_ d));
    change (is_ascii (NilEmpty.string_of_uint ?u)) with (is_ascii (NilEmpty.string_of_uint u));
    simpl; try apply string_of_uint_ascii.
Qed.

Lemma status_line_ascii (n : Z) : is_ascii (FINAL_GENERATOR.status_line n) = true.
Proof.
  unfold FINAL_GENERATOR.status_line.
  rewrite !is_ascii_app, str_of_int_ascii. reflexivity.
Qed.

Lemma generating_line_ascii (n : Z) : is_ascii (FINAL_GENERATOR.generating_line n) = true.
Proof.
  unfold FINAL_GENERATOR.generating_line.
  rewrite !is_ascii_app, str_of_int_ascii. reflexivity.
Qed.

Lemma resolve_add_events (s : state) (evs : list event) (path : string) :
  resolve (add_events s evs) path = resolve s path.
Proof. reflexivity. Qed.

Lemma abspath_add_events (s : state) (evs : list event) (path : string) :
  abspath (add_events s evs) path = abspath s path.
Proof. reflexivity. Qed.

(** [os.listdir('.')] lists the working directory. *)
Lemma listdir_dot (e : env) (s : state) :
  listdir "." e s
  = (Ok (omap (fun kv => option_map fsdecode (entry_name (st_cwd s) (fst kv)))
          (map_to_list (st_fs s))), s).
Proof. reflexivity. Qed.

(** [main()] up to the status printout, when the script's directory can
    be entered ... *)
Lemma main_status_ok (e : env) (s : state) (abs : list string) :
  resolve s (dirname (abspath s (env_file e))) = RNode abs Dir ->
  let here := mkState (st_fs s) abs (st_trace s) in
  let existing :=
    FINAL_GENERATOR.spec_count here
      (omap (fun kv => option_map fsdecode (entry_name abs (fst kv)))
           (map_to_list (st_fs s))) in
  FINAL_GENERATOR.main_status e s
  = (Ok existing,
     add_events here
       (map EvPrint (FINAL_GENERATOR.banner
                     ++ [FINAL_GENERATOR.status_line existing;
                         FINAL_GENERATOR.generating_line existing; ""]))).
Proof.
  intros Hdir here existing. unfold FINAL_GENERATOR.main_status.
  unfold bind at 1. rewrite print_lines_ascii by reflexivity.
  unfold bind at 1. unfold bind at 1.
  rewrite abspath_add_events. unfold chdir at 1. rewrite resolve_add_events, Hdir.
  unfold bind at 1.
  rewrite (count_existing_spec _ _ _ (listdir_dot _ _)).
  cbn [st_fs st_cwd add_events].
  change (FINAL_GENERATOR.spec_count _ _) with existing.
  rewrite bind_print_ascii by apply status_line_ascii.
  rewrite bind_print_ascii by apply generating_line_ascii.
  rewrite bind_print_ascii by reflexivity.
  unfold ret, add_events, here. cbn [st_fs st_cwd st_trace].
  rewrite map_app, <- !app_assoc. reflexivity.
Qed.

(** ... and when it cannot. *)
Lemma main_status_raise (e : env) (s : state) :
  (forall abs, resolve s (dirname (abspath s (env_file e))) <> RNode abs Dir) ->
  exists x, path_error x = true /\
    FINAL_GENERATOR.main_status e s
    = (Raise x, add_events s (map EvPrint FINAL_GENERATOR.banner)).
Proof.
  intros Hdir. unfold FINAL_GENERATOR.main_status.
  unfold bind at 1. rewrite print_lines_ascii by reflexivity.
  unfold bind at 1. unfold bind at 1.
  rewrite abspath_add_events. unfold chdir at 1. rewrite resolve_add_events.
  destruct (resolve s (dirname (abspath s (env_file e)))) as [abs [|b]|p n sl|x] eqn:E.
  - exfalso. eapply Hdir. reflexivity.
  - exists NotADirectoryError. split; reflexivity.
  - exists FileNotFoundError. split; reflexivity.
  - exists x. split; [eapply resolve_error, E | reflexivity].
Qed.

(** C2.  Once [main()] of FINAL_GENERATOR.py has entered the script's own
    directory, the number [existing] it computes is the number of pairs of
    a topic number in 1..20 and a level among [basic], [intermediate] and
    [advanced] for which some entry of that directory whose name starts
    with the zero-padded number and an underscore holds [level/theory.md];
    it lies between 0 and 60, the remaining count [60 - existing] is not
    negative, the state is as before the scan, and after the five banner
    lines the script prints [Status: existing/60 theory files exist],
    [Generating (60 - existing) remaining files...] and an empty line. *)
Theorem status_scan_counts (e : env) (s : state) (abs : list string) :
  resolve s (dirname (abspath s (env_file e))) = RNode abs Dir ->
  let here := mkState (st_fs s) abs (st_trace s) in
  exists entries existing,
    fst (listdir "." e here) = Ok entries /\
    existing
    = Z.of_nat
        (length
           (List.filter
              (fun p : Z * string =>
                 existsb (fun topic_dir =>
                            startswith topic_dir (fmt_02d (fst p) +:+ "_")
                            && path_exists here (join topic_dir [snd p; "theory.md"]))
                         entries)
              (list_prod [1; 2; 3; 4; 5; 6; 7; 8; 9; 10; 11; 12; 13; 14; 15; 16; 17; 18; 19; 20]%Z
                         ["basic"; "intermediate"; "advanced"]))) /\
    map fmt_02d [1; 2; 3; 4; 5; 6; 7; 8; 9; 10; 11; 12; 13; 14; 15; 16; 17; 18; 19; 20]%Z
    = ["01"; "02"; "03"; "04"; "05"; "06"; "07"; "08"; "09"; "10"; "11"; "12"; "13"; "14"; "15"; "16"; "17"; "18"; "19"; "20"] /\
    (0 <= existing <= 60)%Z /\ (0 <= 60 - existing)%Z /\
    FINAL_GENERATOR.count_existing e here = (Ok existing, here) /\
    FINAL_GENERATOR.main_status e s
    = (Ok existing,
       add_events here
         (map EvPrint
            [ "======================================================================";
              "GO LANGUAGE THEORY GENERATOR - Topics 03-20";
              "Comprehensive learning materials with C/C++ comparisons";
              "======================================================================";
              "";
              "Status: " +:+ str_of_int existing +:+ "/60 theory files exist";
              "Generating " +:+ str_of_int (60 - existing) +:+ " remaining files...";
              "" ])).
Proof.
  intros Hdir here.
  set (entries := omap (fun kv => option_map fsdecode (entry_name abs (fst kv)))
           (map_to_list (st_fs s))).
  exists entries, (FINAL_GENERATOR.spec_count here entries).
  split; [reflexivity|]. split; [reflexivity|]. split; [reflexivity|].
  pose proof (spec_count_bounds here entries) as Hb.
  split; [exact Hb|]. split; [lia|]. split.
  - apply count_existing_spec, listdir_dot.
  - apply (main_status_ok e s abs Hdir).
Qed.

Lemma status_scan_counts_witness :
  resolve Sample.start
    (dirname (abspath Sample.start (env_file (Sample.run_env utf_8 None))))
  = RNode ["srv"; "go_theory"] Dir /\
  let here := mkState (st_fs Sample.start) ["srv"; "go_theory"] (st_trace Sample.start) in
  exists entries existing,
    fst (listdir "." (Sample.run_env utf_8 None) here) = Ok entries /\
    existing
    = Z.of_nat
        (length
           (List.filter
              (fun p : Z * string =>
                 existsb (fun topic_dir =>
                            startswith topic_dir (fmt_02d (fst p) +:+ "_")
                            && path_exists here (join topic_dir [snd p; "theory.md"]))
                         entries)
              (list_prod [1; 2; 3; 4; 5; 6; 7; 8; 9; 10; 11; 12; 13; 14; 15; 16; 17; 18; 19; 20]%Z
                         ["basic"; "intermediate"; "advanced"]))) /\
    map fmt_02d [1; 2; 3; 4; 5; 6; 7; 8; 9; 10; 11; 12; 13; 14; 15; 16; 17; 18; 19; 20]%Z
    = ["01"; "02"; "03"; "04"; "05"; "06"; "07"; "08"; "09"; "10"; "11"; "12"; "13"; "14"; "15"; "16"; "17"; "18"; "19"; "20"] /\
    (0 <= existing <= 60)%Z /\ (0 <= 60 - existing)%Z /\
    FINAL_GENERATOR.count_existing (Sample.run_env utf_8 None) here = (Ok existing, here) /\
    FINAL_GENERATOR.main_status (Sample.run_env utf_8 None) Sample.start
    = (Ok existing,
       add_events here
         (map EvPrint
            [ "======================================================================";
              "GO LANGUAGE THEORY GENERATOR - Topics 03-20";
              "Comprehensive learning materials with C/C++ comparisons";
              "======================================================================";
              "";
              "Status: " +:+ str_of_int existing +:+ "/60 theory files exist";
              "Generating " +:+ str_of_int (60 - existing) +:+ " remaining files...";
              "" ])).
Proof.
  split; [vm_compute; reflexivity|].
  apply (status_scan_counts (Sample.run_env utf_8 None) Sample.start ["srv"; "go_theory"]).
  vm_compute. reflexivity.
Defined.

(** On the sample tree two of the sixty files exist: topic 01 is counted
    once although two directories start with ["01_"]. *)
Example sample_status :
  printed (snd (FINAL_GENERATOR.main_status (Sample.run_env utf_8 None) Sample.start))
  = FINAL_GENERATOR.banner
    ++ ["Status: 2/60 theory files exist"; "Generating 58 remaining files..."; ""].
Proof. vm_compute. reflexivity. Qed.

(** ** FINAL_GENERATOR.py: the import and its handler *)

Lemma print_lines_trace (ts : list string) (e : env) (s s' : state) (r : result unit) :
  for_each ts print e s = (r, s') ->
  exists lines, s' = add_events s (map EvPrint lines).
Proof.
  revert s. induction ts as [|t ts IH]; intros s; cbn [for_each].
  - intros [= _ <-]. exists []. symmetry. apply add_events_nil.
  - unfold bind, print at 1. destruct (encode (env_locale e) t).
    + intros H. apply IH in H as [l ->]. exists (t :: l).
      apply (add_events_app s [EvPrint t]).
    + intros [= _ <-]. exists []. symmetry. apply add_events_nil.
Qed.

Lemma calls_app (f : string) (s : state) (evs : list event) :
  calls f (add_events s evs)
  = (calls f s + length (filter (fun ev => ev = EvCall f) evs))%nat.
Proof. unfold calls, add_events. cbn [st_trace]. rewrite filter_app, length_app. reflexivity. Qed.

Lemma no_call_in_prints (f : string) (lines : list string) :
  filter (fun ev => ev = EvCall f) (map EvPrint lines) = [].
Proof.
  induction lines as [|t l IH]; [reflexivity|].
  cbn [map]. rewrite filter_cons_False by discriminate. exact IH.
Qed.

Lemma main_status_cases (e : env) (s : state) :
  (exists existing cwd,
     FINAL_GENERATOR.main_status e s
     = (Ok existing,
        add_events (mkState (st_fs s) cwd (st_trace s))
          (map EvPrint (FINAL_GENERATOR.banner
                        ++ [FINAL_GENERATOR.status_line existing;
                            FINAL_GENERATOR.generating_line existing; ""]))))
  \/ (exists x, path_error x = true /\
        FINAL_GENERATOR.main_status e s
        = (Raise x, add_events s (map EvPrint FINAL_GENERATOR.banner))).
Proof.
  destruct (resolve s (dirname (abspath s (env_file e)))) as [abs [|b]|p n sl|x] eqn:E.
  - left. eexists. exists abs. apply (main_status_ok e s abs E).
  - right. apply main_status_raise. rewrite E. discriminate.
  - right. apply main_status_raise. rewrite E. discriminate.
  - right. apply main_status_raise. rewrite E. discriminate.
Qed.

Lemma on_import_error_run (e : env) (s : state) :
  FINAL_GENERATOR.on_import_error e s
  = (Raise (SystemExit 0),
     add_events s (map EvPrint FINAL_GENERATOR.import_error_messages)).
Proof.
  unfold FINAL_GENERATOR.on_import_error, bind.
  rewrite print_lines_ascii by reflexivity. reflexivity.
Qed.

Lemma print_lines_utf_8 (ts : list string) (e : env) (s : state) :
  env_locale e = utf_8 -> forallb (fun t => negb (has_surrogate t)) ts = true ->
  for_each ts print e s = (Ok tt, add_events s (map EvPrint ts)).
Proof.
  intros Hloc. revert s. induction ts as [|t ts IH]; intros s H; cbn [for_each map].
  - unfold ret. rewrite add_events_nil. reflexivity.
  - cbn [forallb] in H. apply andb_prop in H as [Ht Hts]. apply negb_true_iff in Ht.
    unfold bind. unfold print at 1, encode. rewrite Hloc, Ht.
    fold (add_events s [EvPrint t]). rewrite (IH _ Hts), add_events_app. reflexivity.
Qed.

(** A line the locale cannot encode stops the lines after it. *)
Lemma print_lines_stop (before after : list string) (t : string) (e : env) (s : state) :
  forallb is_ascii before = true -> encode (env_locale e) t = None ->
  for_each (before ++ t :: after) print e s
  = (Raise UnicodeEncodeError, add_events s (map EvPrint before)).
Proof.
  revert s. induction before as [|b before IH]; intros s H Ht; cbn [app for_each map].
  - unfold bind, print. rewrite Ht, add_events_nil. reflexivity.
  - cbn [forallb] in H. apply andb_prop in H as [Hb H].
    rewrite bind_print_ascii by exact Hb. rewrite (IH _ H Ht), add_events_app. reflexivity.
Qed.

(** C5.  In a run of FINAL_GENERATOR.py as a script, either [main()] ends
    before the import with the error of [os.chdir] and only the five banner
    lines printed, or the banner and the status lines are printed first and
    the import comes next.  If the import raises [ImportError], the handler
    prints its six lines and the process exits with status 0, and nothing
    is called.  If it succeeds, [generate_all_theories] is called exactly
    once, on the tree the scan has left: what it does to the tree, to the
    working directory and to standard output is what the run shows next;
    if it returns, the closing lines follow (all seventeen under a UTF-8
    locale, six and then [UnicodeEncodeError] for the bullet otherwise);
    if it raises [ImportError], the handler again prints its six lines and
    exits with status 0; any other exception ends the run. *)
Theorem import_after_status (e : env) (s : state) :
  match FINAL_GENERATOR.main_status e s with
  | (Raise x, s1) =>
      FINAL_GENERATOR.script e s = (Raise x, s1) /\
      s1 = add_events s (map EvPrint
  [ "======================================================================";
    "GO LANGUAGE THEORY GENERATOR - Topics 03-20";
    "Comprehensive learning materials with C/C++ comparisons";
    "======================================================================";
    "" ])
  | (Ok existing, s1) =>
      (exists cwd,
         s1 = add_events (mkState (st_fs s) cwd (st_trace s))
                (map EvPrint
  [ "======================================================================";
    "GO LANGUAGE THEORY GENERATOR - Topics 03-20";
    "Comprehensive learning materials with C/C++ comparisons";
    "======================================================================";
    "" ]
                 ++ map EvPrint
                      [ "Status: " +:+ str_of_int existing +:+ "/60 theory files exist";
                        "Generating " +:+ str_of_int (60 - existing)
                        +:+ " remaining files...";
                        "" ])) /\
      match env_generate_all_content e with
      | None =>
          FINAL_GENERATOR.script e s
          = (Raise (SystemExit 0),
             add_events s1 (EvImport "generate_all_content" :: map EvPrint
  [ "Creating content generation module...";
    "This will generate all remaining theory files";
    "";
    "Run this script to generate theories for topics 03-20";
    "Each topic will have basic, intermediate, and advanced theory files";
    "with comprehensive C/C++ comparisons and design rationale." ])) /\
          exit_status (fst (FINAL_GENERATOR.script e s)) = 0%Z /\
          calls "generate_all_theories" (snd (FINAL_GENERATOR.script e s))
          = calls "generate_all_theories" s
      | Some g =>
          let '(r, fs, cwd, lines) := g (st_fs s1) (st_cwd s1) in
          let s2 :=
            mkState fs cwd
              (st_trace s1
               ++ [EvImport "generate_all_content"; EvCall "generate_all_theories"]
               ++ map EvPrint lines) in
          FINAL_GENERATOR.script e s
          = match r with
            | Ok _ =>
                match env_locale e with
                | utf_8 =>
                    (Ok tt, add_events s2 (map EvPrint
  [ "";
    "======================================================================";
    "GENERATION COMPLETE!";
    "======================================================================";
    "";
    "All theory files created with:";
    "  • Detailed explanations";
    "  • C/C++ comparisons";
    "  • Design rationale";
    "  • Code examples";
    "  • Performance implications";
    "";
    "Start learning from:";
    "  cd 01_basics_and_syntax";
    "  cat claude.md  # Context file for working with Claude";
    "  cd basic && cat theory.md";
    "" ]))
                | _ =>
                    (Raise UnicodeEncodeError, add_events s2 (map EvPrint
  [ "";
    "======================================================================";
    "GENERATION COMPLETE!";
    "======================================================================";
    "";
    "All theory files created with:" ]))
                end
            | Raise ImportError =>
                (Raise (SystemExit 0), add_events s2 (map EvPrint
  [ "Creating content generation module...";
    "This will generate all remaining theory files";
    "";
    "Run this script to generate theories for topics 03-20";
    "Each topic will have basic, intermediate, and advanced theory files";
    "with comprehensive C/C++ comparisons and design rationale." ]))
            | Raise x => (Raise x, s2)
            end /\
          calls "generate_all_theories" (snd (FINAL_GENERATOR.script e s))
          = S (calls "generate_all_theories" s)
      end
  end.
Proof.
  destruct (main_status_cases e s) as [(existing & cwd & H) | (x & Hx & H)]; rewrite H.
  2:{ split; [|reflexivity].
      unfold FINAL_GENERATOR.script, try_except, FINAL_GENERATOR.main, bind.
      rewrite H. destruct x; try discriminate; reflexivity. }
  set (s1 := add_events _ _) in *.
  assert (calls "generate_all_theories" s1 = calls "generate_all_theories" s) as Hc.
  { unfold s1. rewrite calls_app, no_call_in_prints. unfold calls. simpl. lia. }
  split; [exists cwd; unfold s1; rewrite <- map_app; reflexivity|].
  destruct (env_generate_all_content e) as [g|] eqn:Em.
  2:{ assert (FINAL_GENERATOR.script e s
              = (Raise (SystemExit 0),
                 add_events s1 (EvImport "generate_all_content"
                                :: map EvPrint FINAL_GENERATOR.import_error_messages)))
        as Hs.
      { unfold FINAL_GENERATOR.script, try_except, FINAL_GENERATOR.main.
        unfold bind at 1. rewrite H.
        unfold FINAL_GENERATOR.import_generate_all_theories.
        unfold bind at 1. unfold bind at 1. unfold log at 1. rewrite Em.
        change (FINAL_GENERATOR.is_ImportError ImportError) with true. cbv iota.
        rewrite on_import_error_run.
        change (add_events (mkState (st_fs s1) (st_cwd s1)
                  (st_trace s1 ++ [EvImport "generate_all_content"])) ?l)
          with (add_events (add_events s1 [EvImport "generate_all_content"]) l).
        rewrite add_events_app. reflexivity. }
      rewrite Hs. split; [reflexivity|]. split; [reflexivity|].
      cbn [snd]. rewrite calls_app.
      change (EvImport "generate_all_content" :: ?l)
        with ([EvImport "generate_all_content"] ++ l).
      rewrite filter_app, no_call_in_prints, Hc. simpl. lia. }
  destruct (g (st_fs s1) (st_cwd s1)) as [[[r fs] cwd'] lines] eqn:Eg.
  set (s2 := mkState fs cwd'
               (st_trace s1
                ++ [EvImport "generate_all_content"; EvCall "generate_all_theories"]
                ++ map EvPrint lines)).
  assert (calls "generate_all_theories" s2 = S (calls "generate_all_theories" s)) as Hc2.
  { unfold calls in *. unfold s2. cbn [st_trace].
    rewrite !filter_app, !length_app, no_call_in_prints, Hc. simpl. lia. }
  assert (forall ls, calls "generate_all_theories" (add_events s2 (map EvPrint ls))
                     = S (calls "generate_all_theories" s)) as Hc3.
  { intros ls. rewrite calls_app, no_call_in_prints, Hc2. simpl. lia. }
  assert (FINAL_GENERATOR.main e s
          = match r with
            | Ok _ => for_each FINAL_GENERATOR.closing print e s2
            | Raise x => (Raise x, s2)
            end) as Hmain.
  { unfold FINAL_GENERATOR.main. unfold bind at 1. rewrite H.
    unfold FINAL_GENERATOR.import_generate_all_theories.
    unfold bind at 1. unfold bind at 1. unfold log at 1. rewrite Em.
    unfold FINAL_GENERATOR.call_generate_all_theories.
    unfold bind at 1. unfold bind at 1. unfold log at 1. cbn [st_fs st_cwd st_trace].
    rewrite Eg. unfold s2. rewrite <- !app_assoc. cbn [app].
    destruct r as [[]|x]; reflexivity. }
  unfold FINAL_GENERATOR.script, try_except. rewrite Hmain.
  destruct r as [[]|x].
  - destruct (env_locale e) eqn:Hloc.
    + rewrite (print_lines_utf_8 _ e s2 Hloc) by reflexivity.
      split; [reflexivity | apply Hc3].
    + replace (for_each FINAL_GENERATOR.closing print e s2)
        with (for_each (firstn 6 FINAL_GENERATOR.closing
                        ++ "  • Detailed explanations" :: skipn 7 FINAL_GENERATOR.closing)
                       print e s2) by reflexivity.
      rewrite print_lines_stop by (try reflexivity; rewrite Hloc; reflexivity).
      split; [reflexivity | apply Hc3].
    + replace (for_each FINAL_GENERATOR.closing print e s2)
        with (for_each (firstn 6 FINAL_GENERATOR.closing
                        ++ "  • Detailed explanations" :: skipn 7 FINAL_GENERATOR.closing)
                       print e s2) by reflexivity.
      rewrite print_lines_stop by (try reflexivity; rewrite Hloc; reflexivity).
      split; [reflexivity | apply Hc3].
  - destruct x; try (split; [reflexivity | exact Hc2]).
    change (FINAL_GENERATOR.is_ImportError ImportError) with true. cbv iota.
    rewrite on_import_error_run. split; [reflexivity | apply Hc3].
Qed.

(** ** Exception handling across the scripts *)

(** FINAL_GENERATOR.py does handle an exception itself: started next to
    the sample tree without a module [generate_all_content], [main()]
    ends with [ImportError] (exit status 1) while the script prints six
    more lines and exits with status 0. *)
Lemma final_generator_handles_import_error :
  ~ handles_nothing FINAL_GENERATOR.script FINAL_GENERATOR.main.
Proof.
  intros H. specialize (H (Sample.run_env utf_8 None) Sample.start).
  apply (f_equal (fun r => exit_status (fst r))) in H.
  vm_compute in H. discriminate.
Qed.

Lemma create_full_theory_write_file_unfold (path content : string) (k : unit -> M unit)
    (e : env) (s : state) :
  bind (CREATE_FULL_THEORY.write_file path content) k e s
  = match CREATE_FULL_THEORY.write_file path content e s with
    | (Ok _, s1) => k tt e s1
    | (Raise x, s1) => (Raise x, s1)
    end.
Proof.
  unfold bind at 1.
  destruct (CREATE_FULL_THEORY.write_file path content e s) as [[[]|x] s1]; reflexivity.
Qed.

(** C3, amended.  FINAL_GENERATOR.py is the one script with a handler:
    it turns an [ImportError] out of [main()] into six printed lines and
    [SystemExit(0)], exit status 0 where the unhandled exception gives 1,
    and lets every other outcome of [main()] through.  The other scripts
    have none: an exception raised by [write_file] or by
    [create_all_topics] is the outcome of the run, and the two scripts
    that only print return normally, with nothing changed but the lines
    printed. *)
Theorem only_import_error_is_handled (e : env) (s : state) :
  FINAL_GENERATOR.script e s
  = match FINAL_GENERATOR.main e s with
    | (Raise ImportError, s1) =>
        (Raise (SystemExit 0),
         add_events s1
           (map EvPrint
              [ "Creating content generation module...";
                "This will generate all remaining theory files";
                "";
                "Run this script to generate theories for topics 03-20";
                "Each topic will have basic, intermediate, and advanced theory files";
                "with comprehensive C/C++ comparisons and design rationale." ]))
    | r => r
    end /\
  exit_status (Raise (SystemExit 0) : result unit) = 0%Z /\
  exit_status (Raise ImportError : result unit) = 1%Z /\
  CREATE_FULL_THEORY.script e s
  = match CREATE_FULL_THEORY.write_file CREATE_FULL_THEORY.theory_path
            CREATE_FULL_THEORY.TOPIC_02_BASIC e
            (add_events s [EvPrint "Generating Topic 02: Data Types and Variables..."]) with
    | (Raise x, s1) => (Raise x, s1)
    | (Ok _, s1) =>
        match CREATE_FULL_THEORY.write_file CREATE_FULL_THEORY.example_path
                CREATE_FULL_THEORY.TOPIC_02_BASIC_EXAMPLE e s1 with
        | (Raise x, s2) => (Raise x, s2)
        | (Ok _, s2) =>
            (Ok tt,
             add_events s2
               [EvPrint "\nTheory generation would continue for all 20 topics...";
                EvPrint "Each with comprehensive C/C++ comparisons and design rationale.";
                EvPrint "Total would be ~100,000+ lines of detailed theory."])
        end
    end /\
  generate_comprehensive_theory.script e s
  = match generate_comprehensive_theory.create_all_topics e s with
    | (Raise x, s1) => (Raise x, s1)
    | (Ok _, s1) =>
        (Ok tt,
         add_events s1
           [EvPrint (generate_comprehensive_theory.NL +:+ "All topic structures created!");
            EvPrint "Now run the comprehensive content generator..."])
    end /\
  (exists lines,
     GENERATE_ALL_THEORIES.script e s = (Ok tt, add_events s (map EvPrint lines))) /\
  (exists lines,
     generate_all_theory_files.script e s = (Ok tt, add_events s (map EvPrint lines))).
Proof.
  split; [|split; [reflexivity|split; [reflexivity|split; [|split]]]].
  - unfold FINAL_GENERATOR.script, try_except.
    destruct (FINAL_GENERATOR.main e s) as [[[]|x] s1]; [reflexivity|].
    destruct x; try reflexivity.
    change (FINAL_GENERATOR.is_ImportError ImportError) with true. cbv iota.
    apply on_import_error_run.
  - unfold CREATE_FULL_THEORY.script.
    rewrite bind_print_ascii by reflexivity.
    rewrite create_full_theory_write_file_unfold.
    destruct (CREATE_FULL_THEORY.write_file CREATE_FULL_THEORY.theory_path _ e _)
      as [[[]|x] s1]; [|reflexivity].
    rewrite create_full_theory_write_file_unfold.
    destruct (CREATE_FULL_THEORY.write_file CREATE_FULL_THEORY.example_path _ e _)
      as [[[]|x] s2]; [|reflexivity].
    run_prints. reflexivity.
  - unfold generate_comprehensive_theory.script. unfold bind at 1.
    destruct (generate_comprehensive_theory.create_all_topics e s) as [[[]|x] s1];
      [|reflexivity].
    run_prints. reflexivity.
  - apply printing_scripts_run.
Qed.

(** ** CREATE_FULL_THEORY.py: the bytes written *)

(** C7.  The bytes CREATE_FULL_THEORY.py leaves in
    [02_data_types_and_variables/basic/theory.md] follow the locale: its
    [write_file] opens the file without [encoding=], and [TOPIC_02_BASIC]
    holds characters outside Latin-1.  From the same empty tree, a run
    under a UTF-8 locale writes the UTF-8 bytes of the text, while a run
    under a Latin-1 locale stops with [UnicodeEncodeError] and leaves the
    file empty.  (The example file, which is ASCII, gets the same bytes
    under both.) *)
Theorem create_full_theory_bytes_follow_locale :
  let run k := CREATE_FULL_THEORY.script (mkEnv k "CREATE_FULL_THEORY.py" None)
                                         Sample.empty_start in
  is_ascii CREATE_FULL_THEORY.TOPIC_02_BASIC = false /\
  fst (run utf_8) = Ok tt /\
  file_bytes (snd (run utf_8)) CREATE_FULL_THEORY.theory_path
  = Some CREATE_FULL_THEORY.TOPIC_02_BASIC /\
  fst (run latin_1) = Raise UnicodeEncodeError /\
  file_bytes (snd (run latin_1)) CREATE_FULL_THEORY.theory_path = Some "" /\
  file_bytes (snd (run latin_1)) CREATE_FULL_THEORY.example_path = None.
Proof. vm_compute. repeat split; reflexivity. Qed.

(** ** Paths made of plain names: the string side *)

Lemma app_String (x : ascii) (a b : string) : String x a +:+ b = String x (a +:+ b).
Proof. reflexivity. Qed.

Lemma app_empty_l (b : string) : "" +:+ b = b.
Proof. reflexivity. Qed.

Lemma append_assoc (a b c : string) : (a +:+ b) +:+ c = a +:+ (b +:+ c).
Proof.
  induction a as [|x a IH]; [reflexivity|].
  rewrite !app_String, IH. reflexivity.
Qed.

Lemma plain_name_spec (c : string) :
  plain_name c = true ->
  c <> "" /\ String.eqb c "." = false /\ String.eqb c ".." = false /\ has_slash c = false.
Proof.
  unfold plain_name. intros H.
  apply andb_prop in H as [H _]. apply andb_prop in H as [H _].
  apply andb_prop in H as [H _].
  apply andb_prop in H as [H H4]. apply andb_prop in H as [H H3].
  apply andb_prop in H as [H1 H2].
  apply negb_true_iff in H1, H2, H3, H4. repeat split; try assumption.
  intros ->. discriminate.
Qed.

(** What the system asks of a plain name. *)
Lemma plain_name_limits (c : string) :
  plain_name c = true ->
  has_nul c = false /\ has_surrogate c = false /\ (String.length c <= NAME_MAX)%nat.
Proof.
  unfold plain_name. intros H.
  apply andb_prop in H as [H H7]. apply andb_prop in H as [H H6].
  apply andb_prop in H as [_ H5].
  apply negb_true_iff in H5, H6. apply Nat.leb_le in H7. auto.
Qed.

Lemma split_no_slash (c : string) : has_slash c = false -> split "/" c = [c].
Proof.
  induction c as [|x c IH]; simpl; [reflexivity|].
  intros H. apply orb_false_elim in H as [Hx Hc].
  rewrite Hx, (IH Hc). reflexivity.
Qed.

Lemma split_app_slash (a b : string) :
  has_slash a = false -> split "/" (a +:+ String "/" b) = a :: split "/" b.
Proof.
  induction a as [|x a IH]; [reflexivity|].
  cbn [has_slash]. intros H. apply orb_false_elim in H as [Hx Ha].
  rewrite app_String. cbn [split]. rewrite Hx, (IH Ha). reflexivity.
Qed.

Lemma concat_cons2 (c c' : string) (cs : list string) :
  String.concat "/" (c :: c' :: cs) = c +:+ String "/" (String.concat "/" (c' :: cs)).
Proof. reflexivity. Qed.

Lemma split_concat (cs : list string) :
  cs <> [] -> forallb plain_name cs = true -> split "/" (String.concat "/" cs) = cs.
Proof.
  induction cs as [|c cs IH]; [congruence|]. intros _ H.
  cbn [forallb] in H. apply andb_prop in H as [Hc Hcs].
  apply plain_name_spec in Hc as (_ & _ & _ & Hs).
  destruct cs as [|c' cs].
  - simpl. apply split_no_slash, Hs.
  - rewrite concat_cons2, (split_app_slash _ _ Hs), IH; [reflexivity | discriminate | exact Hcs].
Qed.

Lemma concat_nonempty (cs : list string) :
  cs <> [] -> forallb plain_name cs = true -> String.concat "/" cs <> "".
Proof.
  destruct cs as [|c cs]; [congruence|]. intros _ H.
  cbn [forallb] in H. apply andb_prop in H as [Hc _].
  apply plain_name_spec in Hc as (Hne & _).
  destruct cs; simpl; destruct c; try congruence; discriminate.
Qed.

Lemma concat_snoc (cs : list string) (c : string) :
  cs <> [] ->
  String.concat "/" (cs ++ [c]) = String.concat "/" cs +:+ String "/" c.
Proof.
  induction cs as [|x cs IH]; [congruence|]. intros _.
  destruct cs as [|y cs].
  - reflexivity.
  - change ((x :: y :: cs) ++ [c]) with (x :: (y :: cs) ++ [c]).
    change ((y :: cs) ++ [c]) with (y :: (cs ++ [c])) at 1.
    rewrite concat_cons2.
    change (y :: cs ++ [c]) with ((y :: cs) ++ [c]).
    rewrite IH by discriminate. rewrite concat_cons2.
    rewrite append_assoc. reflexivity.
Qed.

Lemma path_of_snoc (absolute : bool) (cs : list string) (c : string) :
  cs <> [] ->
  path_of absolute (cs ++ [c]) = path_of absolute cs +:+ String "/" c.
Proof.
  intros H. unfold path_of. rewrite (concat_snoc _ _ H), append_assoc. reflexivity.
Qed.

Lemma startswith_slash (x : string) : startswith (String "/" x) "/" = true.
Proof.
  unfold startswith. cbn [String.prefix].
  destruct (ascii_dec "/" "/"); [|congruence]. destruct x; reflexivity.
Qed.

Lemma startswith_other (y : ascii) (x : string) :
  Ascii.eqb y "/" = false -> startswith (String y x) "/" = false.
Proof.
  intros H. unfold startswith. cbn [String.prefix].
  destruct (ascii_dec "/" y) as [<-|]; [discriminate | reflexivity].
Qed.

(** ** What the system asks of a path *)

Lemma has_nul_app (a b : string) : has_nul (a +:+ b) = has_nul a || has_nul b.
Proof.
  induction a as [|c r IH]; [reflexivity|].
  rewrite app_String. cbn [has_nul]. rewrite IH, orb_assoc. reflexivity.
Qed.

Lemma has_surrogate_app (a b : string) :
  has_surrogate a = false -> has_surrogate b = false -> has_surrogate (a +:+ b) = false.
Proof.
  intros Ha Hb. induction a as [|c r IH]; [exact Hb|].
  rewrite app_String. cbn [has_surrogate] in *.
  apply orb_false_elim in Ha as [Hc Hr]. rewrite (IH Hr), orb_false_r.
  destruct (nat_of_ascii c =? 237)%nat; [|reflexivity].
  cbn [andb] in *. apply negb_false_iff in Hc. apply negb_false_iff.
  destruct r as [|d r']; [discriminate|]. rewrite app_String. exact Hc.
Qed.

Lemma has_surrogate_suffix (a b : string) :
  has_surrogate (a +:+ b) = false -> has_surrogate b = false.
Proof.
  induction a as [|c r IH]; [trivial|].
  rewrite app_String. cbn [has_surrogate]. intros H.
  apply orb_false_elim in H as [_ H]. exact (IH H).
Qed.


Lemma has_nul_concat (cs : list string) :
  Forall (fun c => has_nul c = false) cs -> has_nul (String.concat "/" cs) = false.
Proof.
  induction 1 as [|c cs Hc _ IH]; [reflexivity|].
  destruct cs as [|c' cs]; [exact Hc|].
  rewrite concat_cons2, has_nul_app, Hc. cbn [has_nul orb]. exact IH.
Qed.

Lemma has_surrogate_concat (cs : list string) :
  Forall (fun c => has_surrogate c = false) cs ->
  has_surrogate (String.concat "/" cs) = false.
Proof.
  induction 1 as [|c cs Hc _ IH]; [reflexivity|].
  destruct cs as [|c' cs]; [exact Hc|].
  rewrite concat_cons2. apply has_surrogate_app; [exact Hc|].
  cbn [has_surrogate]. rewrite IH. reflexivity.
Qed.

(** Text without surrogates is its own file name. *)
Lemma fsencode_clean (s : string) : has_surrogate s = false -> fsencode s = Some s.
Proof.
  induction s as [|c r IH]; [reflexivity|].
  cbn [has_surrogate]. intros H. apply orb_false_elim in H as [Hc Hr].
  specialize (IH Hr). cbn [fsencode].
  destruct r as [|d [|x r']]; try (rewrite IH; reflexivity).
  destruct (nat_of_ascii c =? 237)%nat; [|rewrite IH; reflexivity].
  cbn [andb] in *. apply negb_false_iff in Hc. unfold byte_in in Hc.
  apply andb_prop in Hc as [_ Hd]. apply Nat.leb_le in Hd.
  destruct (Nat.leb_spec 160 (nat_of_ascii d)); [lia|].
  rewrite IH. reflexivity.
Qed.

Lemma length_append (a b : string) :
  String.length (a +:+ b) = (String.length a + String.length b)%nat.
Proof.
  induction a as [|c r IH]; [reflexivity|].
  rewrite app_String. cbn [String.length]. rewrite IH. reflexivity.
Qed.

(** A path the system takes is resolved by walking its components. *)
Lemma resolve_clean (s : state) (path : string) :
  path <> "" -> has_nul path = false -> has_surrogate path = false ->
  (String.length path < PATH_MAX)%nat ->
  resolve s path
  = walk (st_fs s) (if startswith path "/" then [] else st_cwd s) (split "/" path).
Proof.
  intros Hne Hn Hs Hl. unfold resolve.
  rewrite (fsencode_clean _ Hs), Hn.
  destruct (String.eqb_spec path ""); [congruence|].
  destruct (Nat.leb_spec PATH_MAX (String.length path)); [lia | reflexivity].
Qed.

Lemma plain_names_clean (cs : list string) :
  forallb plain_name cs = true ->
  has_nul (String.concat "/" cs) = false /\ has_surrogate (String.concat "/" cs) = false.
Proof.
  intros Hp. split; [apply has_nul_concat | apply has_surrogate_concat];
    apply Forall_forall; intros c Hc;
    apply list_elem_of_In in Hc; rewrite forallb_forall in Hp;
    apply (plain_name_limits c (Hp c Hc)).
Qed.

Lemma path_of_clean (absolute : bool) (cs : list string) :
  forallb plain_name cs = true ->
  has_nul (path_of absolute cs) = false /\ has_surrogate (path_of absolute cs) = false.
Proof.
  intros Hp. destruct (plain_names_clean cs Hp) as [Hn Hs]. unfold path_of.
  split.
  - rewrite has_nul_app, Hn. destruct absolute; reflexivity.
  - apply has_surrogate_app; [destruct absolute; reflexivity | exact Hs].
Qed.

(** Resolving such a path is walking its components. *)
Lemma resolve_path_of (s : state) (absolute : bool) (cs : list string) :
  cs <> [] -> forallb plain_name cs = true ->
  (String.length (path_of absolute cs) < PATH_MAX)%nat ->
  resolve s (path_of absolute cs) = walk (st_fs s) (start_dir absolute s) cs.
Proof.
  intros Hne Hp Hlen.
  destruct (path_of_clean absolute cs Hp) as [Hn Hsg].
  pose proof (concat_nonempty _ Hne Hp) as Hc.
  rewrite resolve_clean; try assumption;
    [|unfold path_of; destruct absolute; [discriminate|rewrite app_empty_l; exact Hc]].
  unfold path_of, start_dir.
  destruct absolute.
  - change ("/" +:+ ?x) with (String "/" x).
    rewrite startswith_slash. cbn [String.eqb split].
    change (Ascii.eqb "/" "/") with true. cbv iota.
    rewrite (split_concat _ Hne Hp). reflexivity.
  - rewrite app_empty_l, (split_concat _ Hne Hp).
    destruct (String.concat "/" cs) as [|x r] eqn:E; [congruence|].
    assert (startswith (String x r) "/" = false) as ->; [|reflexivity].
    destruct cs as [|c cs]; [congruence|].
    cbn [forallb] in Hp. apply andb_prop in Hp as [Hp _].
    apply plain_name_spec in Hp as (Hcne & _ & _ & Hs).
    destruct c as [|y c]; [congruence|].
    assert (x = y) as ->.
    { destruct cs; [simpl in E | rewrite concat_cons2, app_String in E]; congruence. }
    cbn [has_slash] in Hs. apply orb_false_elim in Hs as [Hy _].
    apply startswith_other, Hy.
Qed.

Lemma path_of_snoc_length (absolute : bool) (cs : list string) (c : string) :
  cs <> [] ->
  String.length (path_of absolute (cs ++ [c]))
  = (String.length (path_of absolute cs) + 1 + String.length c)%nat.
Proof.
  intros Hne. rewrite (path_of_snoc _ _ _ Hne), length_append. cbn [String.length]. lia.
Qed.


Lemma concat_length_bound (cs : list string) :
  Forall (fun c => (String.length c <= NAME_MAX)%nat) cs ->
  (String.length (String.concat "/" cs) <= S NAME_MAX * length cs)%nat.
Proof.
  induction 1 as [|c cs Hc _ IH]; [cbn; lia|].
  destruct cs as [|c' cs]; [cbn [String.concat length]; lia|].
  rewrite concat_cons2, length_append. cbn [String.length length] in *. lia.
Qed.

(** A path of up to 15 plain names is shorter than [PATH_MAX]. *)
Lemma path_of_fits (absolute : bool) (cs : list string) :
  forallb plain_name cs = true -> (length cs <= 15)%nat ->
  (String.length (path_of absolute cs) < PATH_MAX)%nat.
Proof.
  intros Hp Hl.
  assert (Forall (fun c => (String.length c <= NAME_MAX)%nat) cs) as Hs.
  { apply Forall_forall. intros c Hc. apply list_elem_of_In in Hc.
    rewrite forallb_forall in Hp. apply (plain_name_limits c (Hp c Hc)). }
  pose proof (concat_length_bound cs Hs) as Hb.
  unfold path_of. rewrite length_append.
  assert (String.length (if absolute then "/" else "") <= 1)%nat
    by (destruct absolute; cbn; lia).
  unfold PATH_MAX, NAME_MAX in *. nia.
Qed.

Lemma cut_no_slash (c : string) : has_slash c = false -> cut_at_last_slash c = ("", c).
Proof.
  induction c as [|x c IH]; [reflexivity|].
  cbn [has_slash cut_at_last_slash]. intros H. apply orb_false_elim in H as [Hx Hc].
  rewrite (IH Hc), Hx. reflexivity.
Qed.

Lemma cut_app_slash (a c : string) :
  has_slash c = false -> cut_at_last_slash (a +:+ String "/" c) = (a +:+ "/", c).
Proof.
  intros Hc. induction a as [|x a IH].
  - rewrite app_empty_l. cbn [cut_at_last_slash]. rewrite (cut_no_slash _ Hc). reflexivity.
  - rewrite !app_String. cbn [cut_at_last_slash]. rewrite IH.
    destruct (a +:+ "/") eqn:E; [|reflexivity].
    destruct a; discriminate.
Qed.

Lemma rstrip_slash (a : string) :
  ends_plain a = true ->
  rstrip "/" (a +:+ "/") = a /\ all_char "/" (a +:+ "/") = false.
Proof.
  unfold ends_plain. induction a as [|x a IH]; [discriminate|].
  intros H. rewrite app_String. cbn [rstrip all_char].
  destruct a as [|y a].
  - cbn in H. apply negb_true_iff in H. rewrite H. split; reflexivity.
  - destruct IH as [IH1 IH2].
    { cbn [String.eqb negb andb]. cbn [String.eqb negb andb ends_with_char] in H.
      exact H. }
    rewrite IH1, IH2. split; [reflexivity | apply andb_false_r].
Qed.

Lemma ends_with_char_app (a c : string) (k : ascii) :
  c <> "" -> ends_with_char (a +:+ c) k = ends_with_char c k.
Proof.
  intros Hc. induction a as [|x a IH]; [reflexivity|].
  rewrite app_String. cbn [ends_with_char].
  destruct (a +:+ c) eqn:E; [|exact IH].
  destruct a; [rewrite app_empty_l in E; congruence | discriminate].
Qed.

Lemma ends_with_slash_no_slash (c : string) :
  has_slash c = false -> ends_with_char c "/" = false.
Proof.
  induction c as [|x c IH]; [reflexivity|].
  cbn [has_slash ends_with_char]. intros H. apply orb_false_elim in H as [Hx Hc].
  destruct c; [exact Hx | exact (IH Hc)].
Qed.

Lemma app_nonempty_r (a c : string) : c <> "" -> String.eqb (a +:+ c) "" = false.
Proof.
  intros Hc. destruct a; [|reflexivity].
  rewrite app_empty_l. destruct c; [congruence | reflexivity].
Qed.

Lemma path_of_ends_plain (absolute : bool) (cs : list string) :
  cs <> [] -> forallb plain_name cs = true -> ends_plain (path_of absolute cs) = true.
Proof.
  intros Hne Hp.
  destruct (exists_last Hne) as (cs' & c & ->).
  rewrite forallb_app in Hp. apply andb_prop in Hp as [_ Hc].
  cbn [forallb] in Hc. rewrite andb_true_r in Hc.
  apply plain_name_spec in Hc as (Hcne & _ & _ & Hs).
  assert (exists a, path_of absolute (cs' ++ [c]) = a +:+ c) as [a ->].
  { destruct cs' as [|x cs'].
    - exists (if absolute then "/" else ""). reflexivity.
    - rewrite path_of_snoc by discriminate.
      exists (path_of absolute (x :: cs') +:+ "/"). rewrite append_assoc. reflexivity. }
  unfold ends_plain.
  rewrite (app_nonempty_r _ _ Hcne), (ends_with_char_app _ _ _ Hcne),
    (ends_with_slash_no_slash _ Hs).
  reflexivity.
Qed.

(** [os.path.split] of such a path cuts off the last name. *)
Lemma path_split_snoc (absolute : bool) (cs : list string) (c : string) :
  cs <> [] -> forallb plain_name (cs ++ [c]) = true ->
  path_split (path_of absolute (cs ++ [c])) = (path_of absolute cs, c).
Proof.
  intros Hne Hp. rewrite forallb_app in Hp. apply andb_prop in Hp as [Hcs Hc].
  cbn [forallb] in Hc. rewrite andb_true_r in Hc.
  apply plain_name_spec in Hc as (Hcne & _ & _ & Hs).
  rewrite (path_of_snoc _ _ _ Hne). unfold path_split.
  rewrite (cut_app_slash _ _ Hs).
  destruct (rstrip_slash _ (path_of_ends_plain absolute cs Hne Hcs)) as [-> ->].
  rewrite (app_nonempty_r _ "/") by discriminate. reflexivity.
Qed.

Lemma path_split_single (absolute : bool) (c : string) :
  plain_name c = true ->
  path_split (path_of absolute [c]) = (if absolute then "/" else "", c).
Proof.
  intros Hc. apply plain_name_spec in Hc as (Hcne & _ & _ & Hs).
  unfold path_split, path_of. cbn [String.concat].
  destruct absolute.
  - change ("/" +:+ c) with ("" +:+ String "/" c).
    rewrite (cut_app_slash _ _ Hs). reflexivity.
  - rewrite app_empty_l, (cut_no_slash _ Hs). reflexivity.
Qed.

(** ** Paths made of plain names: the tree side *)

Lemma node_at_snoc (fs : gmap (list string) node) (base : list string) (c : string) :
  node_at fs (base ++ [c]) = fs !! (base ++ [c]).
Proof. destruct base; reflexivity. Qed.

Lemma walk_plain_cons (fs : gmap (list string) node) (base rest : list string) (c : string) :
  plain_name c = true ->
  walk fs base (c :: rest)
  = match node_at fs (base ++ [c]) with
    | Some Dir => walk fs (base ++ [c]) rest
    | Some (File b) =>
        match rest with
        | [] => RNode (base ++ [c]) (File b)
        | _ => RErr NotADirectoryError
        end
    | None =>
        if forallb (String.eqb "") rest
        then RFree base c (match rest with [] => false | _ => true end)
        else RErr FileNotFoundError
    end.
Proof.
  intros Hc. destruct (plain_name_limits c Hc) as (_ & _ & Hl).
  apply plain_name_spec in Hc as (Hne & Hd & Hdd & _).
  cbn [walk]. rewrite Hd, Hdd.
  destruct (String.eqb_spec c ""); [congruence|].
  destruct (Nat.ltb_spec NAME_MAX (String.length c)); [lia | reflexivity].
Qed.

Lemma walk_all_dirs (fs : gmap (list string) node) (cs base : list string) :
  forallb plain_name cs = true -> all_dirs fs base cs = true ->
  walk fs base cs = RNode (base ++ cs) Dir.
Proof.
  revert base. induction cs as [|c cs IH]; intros base Hp Hd.
  - rewrite app_nil_r. reflexivity.
  - cbn [forallb] in Hp. apply andb_prop in Hp as [Hc Hcs].
    rewrite (walk_plain_cons _ _ _ _ Hc). cbn [all_dirs] in Hd.
    destruct (node_at fs (base ++ [c])) as [[|b]|]; try discriminate.
    rewrite (IH _ Hcs Hd), <- app_assoc. reflexivity.
Qed.

Lemma walk_snoc (fs : gmap (list string) node) (cs base : list string) (c : string) :
  forallb plain_name (cs ++ [c]) = true -> all_dirs fs base cs = true ->
  walk fs base (cs ++ [c])
  = match node_at fs (base ++ cs ++ [c]) with
    | Some n => RNode (base ++ cs ++ [c]) n
    | None => RFree (base ++ cs) c false
    end.
Proof.
  revert base. induction cs as [|x cs IH]; intros base Hp Hd.
  - cbn [app forallb] in *. rewrite andb_true_r in Hp.
    rewrite (walk_plain_cons _ _ _ _ Hp), app_nil_r.
    destruct (node_at fs (base ++ [c])) as [[|b]|]; reflexivity.
  - change ((x :: cs) ++ [c]) with (x :: (cs ++ [c])) in *.
    cbn [forallb] in Hp. apply andb_prop in Hp as [Hx Hcs].
    rewrite (walk_plain_cons _ _ _ _ Hx). cbn [all_dirs] in Hd.
    destruct (node_at fs (base ++ [x])) as [[|b]|]; try discriminate.
    rewrite (IH _ Hcs Hd).
    replace ((base ++ [x]) ++ cs ++ [c]) with (base ++ x :: cs ++ [c])
      by (rewrite <- app_assoc; reflexivity).
    replace ((base ++ [x]) ++ cs) with (base ++ x :: cs)
      by (rewrite <- app_assoc; reflexivity).
    reflexivity.
Qed.

(** A path that leads somewhere, with no regular file on the way, runs
    through directories only. *)
Lemma walk_found_all_dirs (fs : gmap (list string) node) (cs base abs : list string)
    (n : node) :
  forallb plain_name cs = true -> dirs_free fs base cs = true ->
  walk fs base cs = RNode abs n -> all_dirs fs base cs = true.
Proof.
  revert base. induction cs as [|c cs IH]; intros base Hp Hf; [reflexivity|].
  cbn [forallb] in Hp. apply andb_prop in Hp as [Hc Hcs].
  rewrite (walk_plain_cons _ _ _ _ Hc). cbn [all_dirs dirs_free] in *.
  destruct (node_at fs (base ++ [c])) as [[|b]|]; try discriminate.
  - apply IH; assumption.
  - destruct (forallb (String.eqb "") cs); discriminate.
Qed.

Lemma with_dirs_snoc (fs : gmap (list string) node) (cs base : list string) (c : string) :
  with_dirs fs base (cs ++ [c]) = <[base ++ cs ++ [c] := Dir]> (with_dirs fs base cs).
Proof.
  revert fs base. induction cs as [|x cs IH]; intros fs base; [reflexivity|].
  change ((x :: cs) ++ [c]) with (x :: (cs ++ [c])). cbn [with_dirs].
  rewrite IH, <- app_assoc. reflexivity.
Qed.

Lemma with_dirs_id (fs : gmap (list string) node) (cs base : list string) :
  all_dirs fs base cs = true -> with_dirs fs base cs = fs.
Proof.
  revert base. induction cs as [|c cs IH]; intros base Hd; [reflexivity|].
  cbn [all_dirs with_dirs] in *. rewrite node_at_snoc in Hd.
  destruct (fs !! (base ++ [c])) as [[|b]|] eqn:E; try discriminate.
  rewrite (insert_id _ _ _ E). apply IH, Hd.
Qed.

(** [with_dirs] only adds entries below [base]. *)
Lemma with_dirs_lookup_short (fs : gmap (list string) node) (cs base k : list string) :
  (length k <= length base)%nat -> with_dirs fs base cs !! k = fs !! k.
Proof.
  revert fs base. induction cs as [|c cs IH]; intros fs base Hk; [reflexivity|].
  cbn [with_dirs]. rewrite IH by (rewrite length_app; simpl; lia).
  apply lookup_insert_ne. intros <-. rewrite length_app in Hk. simpl in Hk. lia.
Qed.

Lemma with_dirs_lookup_long (fs : gmap (list string) node) (cs base k : list string) :
  (length base + length cs < length k)%nat -> with_dirs fs base cs !! k = fs !! k.
Proof.
  revert fs base. induction cs as [|c cs IH]; intros fs base Hk; [reflexivity|].
  cbn [with_dirs]. cbn [length] in Hk.
  rewrite IH by (rewrite length_app; simpl; lia).
  apply lookup_insert_ne. intros <-. rewrite length_app in Hk. simpl in Hk. lia.
Qed.

Lemma all_dirs_with_dirs (fs : gmap (list string) node) (cs base : list string) :
  all_dirs (with_dirs fs base cs) base cs = true.
Proof.
  revert fs base. induction cs as [|c cs IH]; intros fs base; [reflexivity|].
  cbn [all_dirs with_dirs]. rewrite node_at_snoc.
  rewrite with_dirs_lookup_short by lia. rewrite lookup_insert_eq. apply IH.
Qed.

Lemma dirs_free_snoc (fs : gmap (list string) node) (cs base : list string) (c : string) :
  dirs_free fs base (cs ++ [c])
  = dirs_free fs base cs
    && match node_at fs (base ++ cs ++ [c]) with
       | Some (File _) => false
       | _ => true
       end.
Proof.
  revert base. induction cs as [|x cs IH]; intros base.
  - cbn [app dirs_free]. destruct (node_at fs (base ++ [c])) as [[|b]|]; reflexivity.
  - change ((x :: cs) ++ [c]) with (x :: (cs ++ [c])). cbn [dirs_free].
    destruct (node_at fs (base ++ [x])) as [[|b]|]; try reflexivity;
      rewrite IH, <- app_assoc; reflexivity.
Qed.

Lemma set_fs_same (s : state) : set_fs s (st_fs s) = s.
Proof. destruct s. reflexivity. Qed.

(** The last step of [os.makedirs] on such a path, once the directories
    above are there. *)
Lemma mkdir_exist_ok_plain (absolute : bool) (cs : list string) (c : string)
    (e : env) (s : state) :
  forallb plain_name (cs ++ [c]) = true ->
  (String.length (path_of absolute (cs ++ [c])) < PATH_MAX)%nat ->
  all_dirs (st_fs s) (start_dir absolute s) cs = true ->
  dirs_free (st_fs s) (start_dir absolute s) (cs ++ [c]) = true ->
  mkdir_exist_ok (path_of absolute (cs ++ [c])) e s
  = (Ok tt, set_fs s (<[start_dir absolute s ++ cs ++ [c] := Dir]> (st_fs s))).
Proof.
  intros Hp Hlen Hd Hf. unfold mkdir_exist_ok, mkdir, isdir.
  assert (cs ++ [c] <> []) as Hne by (destruct cs; discriminate).
  rewrite (resolve_path_of _ _ _ Hne Hp Hlen), (walk_snoc _ _ _ _ Hp Hd).
  rewrite dirs_free_snoc in Hf. apply andb_prop in Hf as [_ Hf].
  destruct (node_at (st_fs s) (start_dir absolute s ++ cs ++ [c])) as [[|b]|] eqn:E;
    try discriminate.
  - cbn [os_error andb].
    rewrite (resolve_path_of _ _ _ Hne Hp Hlen), (walk_snoc _ _ _ _ Hp Hd), E.
    rewrite app_assoc, node_at_snoc in E. rewrite app_assoc, (insert_id _ _ _ E).
    rewrite set_fs_same. reflexivity.
  - rewrite <- app_assoc. reflexivity.
Qed.

Lemma path_exists_root (s : state) : path_exists s "/" = true.
Proof. reflexivity. Qed.

Lemma path_of_nonempty (absolute : bool) (cs : list string) :
  cs <> [] -> forallb plain_name cs = true -> String.eqb (path_of absolute cs) "" = false.
Proof.
  intros Hne Hp. pose proof (path_of_ends_plain absolute cs Hne Hp) as H.
  unfold ends_plain in H. apply andb_prop in H as [H _].
  apply negb_true_iff in H. exact H.
Qed.

Lemma makedirs_parts_snoc (absolute : bool) (cs : list string) (c : string) :
  forallb plain_name (cs ++ [c]) = true ->
  makedirs_parts (path_of absolute (cs ++ [c]))
  = (match cs with
     | [] => if absolute then "/" else ""
     | _ => path_of absolute cs
     end, c) /\ String.eqb c "" = false /\ String.eqb c "." = false.
Proof.
  intros Hp. pose proof Hp as Hp'.
  rewrite forallb_app in Hp'. apply andb_prop in Hp' as [_ Hc].
  cbn [forallb] in Hc. rewrite andb_true_r in Hc. pose proof Hc as Hc'.
  apply plain_name_spec in Hc' as (Hcne & Hd & _).
  assert (String.eqb c "" = false) as Hc0 by (destruct c; [congruence | reflexivity]).
  split; [|split; assumption].
  unfold makedirs_parts. destruct cs as [|x cs].
  - cbn [app]. rewrite (path_split_single _ _ Hc), Hc0. reflexivity.
  - assert (x :: cs <> []) as Hne by discriminate.
    rewrite (path_split_snoc _ _ _ Hne Hp), Hc0. reflexivity.
Qed.

Lemma all_dirs_dirs_free (fs : gmap (list string) node) (cs base : list string) :
  all_dirs fs base cs = true -> dirs_free fs base cs = true.
Proof.
  revert base. induction cs as [|c cs IH]; intros base; [reflexivity|].
  cbn [all_dirs dirs_free]. destruct (node_at fs (base ++ [c])) as [[|b]|]; try discriminate.
  apply IH.
Qed.

(** [os.makedirs] on a path of plain names with no regular file on the
    way: it returns, and afterwards every step of the path is a directory;
    nothing else changes. *)
Lemma makedirs_rec_plain (absolute : bool) (cs : list string) :
  cs <> [] -> forallb plain_name cs = true ->
  (String.length (path_of absolute cs) < PATH_MAX)%nat ->
  forall (fuel : nat) (e : env) (s : state),
    (String.length (path_of absolute cs) < fuel)%nat ->
    dirs_free (st_fs s) (start_dir absolute s) cs = true ->
    makedirs_rec fuel (path_of absolute cs) e s
    = (Ok tt, set_fs s (with_dirs (st_fs s) (start_dir absolute s) cs)).
Proof.
  induction cs as [|c cs IH] using rev_ind; [congruence|].
  intros _ Hp Hlen fuel e s Hfuel Hf.
  destruct fuel as [|n]; [lia|]. cbn [makedirs_rec].
  destruct (makedirs_parts_snoc absolute cs c Hp) as (Hparts & Hc0 & Hcd).
  pose proof (makedirs_head_shorter _ _ _ Hparts Hc0) as Hshort.
  rewrite Hparts, Hc0, Hcd. cbn [negb andb].
  pose proof Hp as Hp'. rewrite forallb_app in Hp'. apply andb_prop in Hp' as [Hpcs _].
  pose proof Hf as Hf'. rewrite dirs_free_snoc in Hf'. apply andb_prop in Hf' as [Hfcs _].
  rewrite with_dirs_snoc.
  destruct cs as [|x cs].
  - assert ((negb (String.eqb (if absolute then "/" else "") "") && true
             && negb (path_exists s (if absolute then "/" else ""))) = false) as ->
      by (destruct absolute; reflexivity).
    apply (mkdir_exist_ok_plain absolute [] c e s Hp Hlen eq_refl Hf).
  - assert (x :: cs <> []) as Hne by discriminate.
    assert (String.length (path_of absolute (x :: cs)) < PATH_MAX)%nat as Hlen'
      by (rewrite path_of_snoc_length in Hlen by exact Hne; lia).
    rewrite (path_of_nonempty _ _ Hne Hpcs). cbn [negb andb].
    destruct (path_exists s (path_of absolute (x :: cs))) eqn:Hex; cbn [negb].
    + unfold path_exists in Hex. rewrite (resolve_path_of _ _ _ Hne Hpcs Hlen') in Hex.
      destruct (walk (st_fs s) (start_dir absolute s) (x :: cs)) as [abs n0| |] eqn:Hw;
        try discriminate.
      pose proof (walk_found_all_dirs _ _ _ _ _ Hpcs Hfcs Hw) as Hd.
      rewrite (with_dirs_id _ _ _ Hd).
      apply (mkdir_exist_ok_plain absolute (x :: cs) c e s Hp Hlen Hd Hf).
    + rewrite (IH Hne Hpcs Hlen' n e s ltac:(lia) Hfcs).
      set (s1 := set_fs s (with_dirs (st_fs s) (start_dir absolute s) (x :: cs))).
      rewrite (mkdir_exist_ok_plain absolute (x :: cs) c e s1 Hp Hlen).
      * reflexivity.
      * apply all_dirs_with_dirs.
      * change (start_dir absolute s1) with (start_dir absolute s).
        cbn [s1 set_fs st_fs]. rewrite dirs_free_snoc.
        rewrite dirs_free_snoc in Hf. apply andb_prop in Hf as [_ Hlast].
        apply andb_true_intro. split.
        -- apply all_dirs_dirs_free, all_dirs_with_dirs.
        -- rewrite app_assoc, node_at_snoc, with_dirs_lookup_long
             by (rewrite length_app, length_app; simpl; lia).
           rewrite app_assoc, node_at_snoc in Hlast. exact Hlast.
Qed.

Lemma makedirs_plain (absolute : bool) (cs : list string) (e : env) (s : state) :
  cs <> [] -> forallb plain_name cs = true ->
  (String.length (path_of absolute cs) < PATH_MAX)%nat ->
  dirs_free (st_fs s) (start_dir absolute s) cs = true ->
  makedirs (path_of absolute cs) e s
  = (Ok tt, set_fs s (with_dirs (st_fs s) (start_dir absolute s) cs)).
Proof.
  intros Hne Hp Hlen Hf. unfold makedirs.
  apply (makedirs_rec_plain absolute cs Hne Hp Hlen); [lia | exact Hf].
Qed.


(** [open(path, 'w')] and [f.write(content)] on a path of plain names whose
    directory part exists. *)
Lemma open_write_plain {B} (absolute : bool) (dirs : list string) (file : string)
    (encoding : option codec) (content bytes : string) (k : unit -> M B)
    (e : env) (s : state) :
  forallb plain_name (dirs ++ [file]) = true ->
  (String.length (path_of absolute (dirs ++ [file])) < PATH_MAX)%nat ->
  all_dirs (st_fs s) (start_dir absolute s) dirs = true ->
  node_at (st_fs s) (start_dir absolute s ++ dirs ++ [file]) <> Some Dir ->
  encode (match encoding with Some c => c | None => env_locale e end) content = Some bytes ->
  bind (open_w (path_of absolute (dirs ++ [file])))
    (fun f => bind (f_write f encoding content) k) e s
  = k tt e (set_fs s (<[start_dir absolute s ++ dirs ++ [file] := File bytes]> (st_fs s))).
Proof.
  intros Hp Hlen Hall Hnd Henc.
  assert (dirs ++ [file] <> []) as Hne' by (destruct dirs; discriminate).
  unfold bind at 1. unfold open_w.
  rewrite (resolve_path_of _ _ _ Hne' Hp Hlen), (walk_snoc _ _ _ _ Hp Hall).
  destruct (node_at (st_fs s) (start_dir absolute s ++ dirs ++ [file])) as [[|b]|] eqn:E;
    [congruence| |].
  - unfold bind at 1, f_write. rewrite Henc.
    cbn [set_fs st_fs st_cwd st_trace]. rewrite lookup_insert_eq, insert_insert_eq.
    reflexivity.
  - unfold bind at 1, f_write. rewrite Henc.
    cbn [set_fs st_fs st_cwd st_trace]. rewrite <- app_assoc.
    rewrite lookup_insert_eq, insert_insert_eq.
    reflexivity.
Qed.


(** ** The file-writing helpers *)




(** ** Paths in general: the string side *)


















Lemma split_comps_no_slash (p : string) :
  Forall (fun c => has_slash c = false) (split "/" p).
Proof.
  induction p as [|x p IH]; [repeat constructor|].
  cbn [split]. destruct (Ascii.eqb x "/") eqn:Hx; [constructor; [reflexivity | exact IH]|].
  destruct (split "/" p) as [|h t]; [repeat constructor; cbn; rewrite Hx; reflexivity|].
  apply Forall_cons in IH as [Hh Ht]. constructor; [|exact Ht].
  cbn [has_slash]. rewrite Hx, Hh. reflexivity.
Qed.


Lemma length_split (p : string) :
  Forall (fun c => (String.length c <= String.length p)%nat) (split "/" p).
Proof.
  induction p as [|x p IH]; [repeat constructor|].
  cbn [split]. destruct (Ascii.eqb x "/").
  - constructor; [cbn; lia|]. eapply Forall_impl; [exact IH|]. cbn. intros; lia.
  - destruct (split "/" p) as [|h t]; [constructor; [cbn; lia | constructor]|].
    apply Forall_cons in IH as [Hh Ht]. constructor; [cbn in *; lia|].
    eapply Forall_impl; [exact Ht|]. cbn. intros; lia.
Qed.

(** ** Paths in general: the tree side *)





Lemma visits_nonempty (cur cs k : list string) : k ∈ visits cur cs -> k <> [].
Proof.
  revert cur. induction cs as [|c cs IH]; intros cur; cbn [visits].
  - intros H. apply elem_of_nil in H. contradiction.
  - destruct (String.eqb c "" || String.eqb c "."); [apply IH|].
    destruct (String.eqb c ".."); [apply IH|].
    intros H. apply elem_of_cons in H as [-> | H]; [destruct cur; discriminate|].
    eapply IH, H.
Qed.







Lemma all_made_app (fs : gmap (list string) node) (a b : list (list string)) :
  all_made fs (a ++ b) = all_made fs a && all_made fs b.
Proof. apply forallb_app. Qed.













(** ** The progress lines *)








(** ** The file-writing helpers on the paths they serve *)



(** On the sample tree the file existed with other content, which is
    replaced, and the progress lines read as the scripts format them. *)
Example write_file_sample_lines :
  let path := "go_theory/01_basics_and_syntax/basic/theory.md" in
  let e := Sample.run_env utf_8 None in
  file_bytes Sample.start path = Some "# Basics" /\
  printed (snd (FINAL_GENERATOR.write_file path "# Go Basics" e Sample.start))
  = ["  ✓ 01_basics_and_syntax/basic"] /\
  printed (snd (CREATE_FULL_THEORY.write_file path "# Go Basics" e Sample.start))
  = ["Created: go_theory/01_basics_and_syntax/basic/theory.md"] /\
  printed (snd (GENERATE_ALL_THEORIES.write_file ("/srv/" +:+ path) "# Go Basics" e
                  Sample.start))
  = ["  ✓ go_theory/01_basics_and_syntax/basic/theory.md"] /\
  file_bytes (snd (FINAL_GENERATOR.write_file path "# Go Basics" e Sample.start)) path
  = Some "# Go Basics".
Proof. vm_compute. repeat split; reflexivity. Qed.

(** A directory where the file must be stops the helper after the
    directories are made ... *)
Example write_file_onto_a_directory :
  fst (FINAL_GENERATOR.write_file "go_theory/01_old/basic" "# T"
         (Sample.run_env utf_8 None) Sample.start)
  = Raise IsADirectoryError.
Proof. vm_compute. reflexivity. Qed.

(** ... and under a Latin-1 locale the check mark of the progress line
    cannot be printed: the file is written, the line is not. *)
Example write_file_latin_1_progress :
  let r := FINAL_GENERATOR.write_file "go_theory/03_operators/basic/theory.md" "# T"
             (Sample.run_env latin_1 None) Sample.start in
  fst r = Raise UnicodeEncodeError /\
  file_bytes (snd r) "go_theory/03_operators/basic/theory.md" = Some "# T" /\
  printed (snd r) = [].
Proof. vm_compute. repeat split; reflexivity. Qed.

(** What the hypotheses on the strings keep out: a NUL in the path
    ([ValueError], from the first system call), a component longer than
    [NAME_MAX] ([OSError], file name too long), and a lone surrogate in
    the content ([UnicodeEncodeError], once the file is opened and
    emptied). *)
Example write_file_refused_strings :
  let e := Sample.run_env utf_8 None in
  let nul := String (ascii_of_nat 0) "" in
  let long := String.concat "" (repeat "a" 300) in
  let surrogate := String (ascii_of_nat 237) (String (ascii_of_nat 160)
                     (String (ascii_of_nat 128) "")) in
  let path := "go_theory/01_basics_and_syntax/basic/theory.md" in
  let run path content := CREATE_FULL_THEORY.write_file path content e Sample.start in
  fst (run ("go_theory/a" +:+ nul +:+ "b/theory.md") "# T") = Raise ValueError /\
  fst (run ("go_theory/" +:+ long +:+ "/theory.md") "# T") = Raise (OSError ENAMETOOLONG) /\
  fst (run path ("# " +:+ surrogate)) = Raise UnicodeEncodeError /\
  file_bytes Sample.start path = Some "# Basics" /\
  file_bytes (snd (run path ("# " +:+ surrogate))) path = Some "".
Proof. vm_compute. repeat split; reflexivity. Qed.

(** ** generate_comprehensive_theory.py: the directories and files made *)

Lemma steps_nonempty (cs base k : list string) : k ∈ steps base cs -> k <> [].
Proof.
  revert base. induction cs as [|c cs IH]; intros base; cbn [steps].
  - intros H. apply elem_of_nil in H. contradiction.
  - intros H. apply elem_of_cons in H as [-> | H]; [destruct base; discriminate|].
    eapply IH, H.
Qed.

Lemma node_at_nonempty (fs : gmap (list string) node) (k : list string) :
  k <> [] -> node_at fs k = fs !! k.
Proof. destruct k; [congruence | reflexivity]. Qed.

Lemma all_dirs_steps (fs : gmap (list string) node) (cs base : list string) :
  all_dirs fs base cs = true <-> forall k, k ∈ steps base cs -> fs !! k = Some Dir.
Proof.
  revert base. induction cs as [|c cs IH]; intros base; cbn [all_dirs steps].
  - split; [|reflexivity]. intros _ k H. apply elem_of_nil in H. contradiction.
  - rewrite node_at_snoc. split.
    + intros H k Hk. destruct (fs !! (base ++ [c])) as [[|b]|] eqn:E; try discriminate.
      apply elem_of_cons in Hk as [-> | Hk]; [exact E|]. apply (IH (base ++ [c])); assumption.
    + intros H. rewrite (H (base ++ [c])) by apply list_elem_of_here.
      apply IH. intros k Hk. apply H. apply list_elem_of_further, Hk.
Qed.

Lemma dirs_free_steps (fs : gmap (list string) node) (cs base : list string) :
  (forall k b, k ∈ steps base cs -> fs !! k <> Some (File b)) ->
  dirs_free fs base cs = true.
Proof.
  revert base. induction cs as [|c cs IH]; intros base H; cbn [dirs_free steps] in *;
    [reflexivity|].
  rewrite node_at_snoc.
  destruct (fs !! (base ++ [c])) as [[|b]|] eqn:E.
  - apply IH. intros k b Hk. apply H. apply list_elem_of_further, Hk.
  - exfalso. apply (H (base ++ [c]) b); [apply list_elem_of_here | exact E].
  - apply IH. intros k b Hk. apply H. apply list_elem_of_further, Hk.
Qed.

(** What [with_dirs] holds: what was there, and a directory at every step. *)
Lemma with_dirs_lookup (fs : gmap (list string) node) (cs base k : list string) :
  with_dirs fs base cs !! k
  = if bool_decide (k ∈ steps base cs) then Some Dir else fs !! k.
Proof.
  revert fs base. induction cs as [|c cs IH]; intros fs base; cbn [with_dirs steps].
  - rewrite bool_decide_eq_false_2; [reflexivity|]. apply not_elem_of_nil.
  - rewrite IH. destruct (bool_decide (k ∈ steps (base ++ [c]) cs)) eqn:E.
    + apply bool_decide_eq_true in E.
      rewrite bool_decide_eq_true_2; [reflexivity|]. apply list_elem_of_further, E.
    + apply bool_decide_eq_false in E.
      destruct (decide (k = base ++ [c])) as [->|Hne].
      * rewrite lookup_insert_eq. rewrite bool_decide_eq_true_2; [reflexivity|].
        apply list_elem_of_here.
      * rewrite lookup_insert_ne by congruence.
        rewrite bool_decide_eq_false_2; [reflexivity|].
        intros H. apply elem_of_cons in H as [H|H]; contradiction.
Qed.

Section TopicStructure.
Import generate_comprehensive_theory.

Lemma tree_ready_spec (ds : list string) (fs : gmap (list string) node) :
  tree_ready ds fs = true <-> forall k n, fs !! k = Some n -> entry_ok ds k n = true.
Proof.
  unfold tree_ready. rewrite forallb_forall. split.
  - intros H k n Hk. apply (H (k, n)). apply list_elem_of_In, elem_of_map_to_list, Hk.
  - intros H [k n] Hin. apply H. apply elem_of_map_to_list, list_elem_of_In, Hin.
Qed.

(** A [claude.md] is never a step towards an [examples] directory. *)
Lemma claude_key_not_step (d d' level : string) :
  level ∈ levels -> claude_key d' ∉ steps [] (examples_dir d level).
Proof.
  intros Hl H. unfold levels in Hl.
  cbv [claude_key examples_dir base_comps app steps] in H.
  repeat (apply elem_of_cons in H as [H|H]; [try discriminate H|]).
  - injection H as _ <-. repeat (apply elem_of_cons in Hl as [Hl|Hl]; [discriminate Hl|]).
    apply elem_of_nil in Hl. exact Hl.
  - apply elem_of_nil in H. exact H.
Qed.

Lemma dir_places_spec (ds : list string) (k : list string) :
  k ∈ dir_places ds <->
  exists d level, d ∈ ds /\ level ∈ levels /\ k ∈ steps [] (examples_dir d level).
Proof.
  unfold dir_places. rewrite list_elem_of_In, in_flat_map. split.
  - intros (d & Hd & H). apply in_flat_map in H as (level & Hl & H).
    exists d, level. rewrite !list_elem_of_In. auto.
  - intros (d & level & Hd & Hl & H). exists d. rewrite <- list_elem_of_In.
    split; [exact Hd|]. apply in_flat_map. exists level. rewrite <- !list_elem_of_In. auto.
Qed.

Lemma claude_key_not_dir_place (ds : list string) (d : string) :
  claude_key d ∉ dir_places ds.
Proof.
  rewrite dir_places_spec. intros (d' & level & _ & Hl & H).
  exact (claude_key_not_step _ _ _ Hl H).
Qed.

Lemma step_not_file_place (ds : list string) (d level : string) (k : list string) :
  level ∈ levels -> k ∈ steps [] (examples_dir d level) -> k ∉ file_places ds.
Proof.
  intros Hl Hk H. unfold file_places in H. apply list_elem_of_fmap in H as (d' & -> & _).
  exact (claude_key_not_step _ _ _ Hl Hk).
Qed.

Lemma ready_with_dirs (ds : list string) (fs : gmap (list string) node) (d level : string) :
  level ∈ levels -> tree_ready ds fs = true ->
  tree_ready ds (with_dirs fs [] (examples_dir d level)) = true.
Proof.
  intros Hl. rewrite !tree_ready_spec. intros H k n. rewrite with_dirs_lookup.
  destruct (bool_decide (k ∈ steps [] (examples_dir d level))) eqn:E; [|apply H].
  apply bool_decide_eq_true in E. intros [= <-]. cbn [entry_ok].
  apply negb_true_iff, bool_decide_eq_false. eapply step_not_file_place; eassumption.
Qed.

Lemma ready_with_file (ds : list string) (fs : gmap (list string) node) (d text : string) :
  tree_ready ds fs = true -> tree_ready ds (<[claude_key d := File text]> fs) = true.
Proof.
  rewrite !tree_ready_spec. intros H k n.
  destruct (decide (k = claude_key d)) as [->|Hne].
  - rewrite lookup_insert_eq. intros [= <-]. cbn [entry_ok].
    apply negb_true_iff, bool_decide_eq_false, claude_key_not_dir_place.
  - rewrite lookup_insert_ne by congruence. apply H.
Qed.

Lemma ready_dirs_free (ds : list string) (fs : gmap (list string) node) (d level : string) :
  d ∈ ds -> level ∈ levels -> tree_ready ds fs = true ->
  dirs_free fs [] (examples_dir d level) = true.
Proof.
  intros Hd Hl H. rewrite tree_ready_spec in H.
  apply dirs_free_steps. intros k b Hk E. specialize (H k _ E). cbn [entry_ok] in H.
  apply negb_true_iff, bool_decide_eq_false in H. apply H.
  apply dir_places_spec. eauto.
Qed.

Lemma ready_claude_free (ds : list string) (fs : gmap (list string) node) (d : string) :
  d ∈ ds -> tree_ready ds fs = true -> node_at fs (claude_key d) <> Some Dir.
Proof.
  intros Hd H E. rewrite tree_ready_spec in H.
  change (node_at fs (claude_key d)) with (fs !! claude_key d) in E.
  specialize (H _ _ E). cbn [entry_ok] in H.
  apply negb_true_iff, bool_decide_eq_false in H. apply H.
  unfold file_places. apply list_elem_of_fmap. eauto.
Qed.

(** [os.path.join] with a plain name appends a component. *)
Lemma join2_plain (cs : list string) (c : string) :
  cs <> [] -> forallb plain_name cs = true -> plain_name c = true ->
  join2 (path_of true cs) c = path_of true (cs ++ [c]).
Proof.
  intros Hne Hp Hc. unfold join2.
  pose proof (path_of_ends_plain true cs Hne Hp) as He. unfold ends_plain in He.
  apply andb_prop in He as [He1 He2]. apply negb_true_iff in He1, He2.
  rewrite He1, He2. cbn [orb].
  apply plain_name_spec in Hc as (Hcne & _ & _ & Hs).
  assert (startswith c "/" = false) as ->.
  { destruct c as [|y c]; [congruence|]. cbn [has_slash] in Hs.
    apply orb_false_elim in Hs as [Hy _]. apply startswith_other, Hy. }
  rewrite (path_of_snoc _ _ _ Hne). reflexivity.
Qed.

Lemma base_path_of : base_path = path_of true base_comps.
Proof. reflexivity. Qed.

Lemma join_topic_path (d : string) (rest : list string) :
  plain_name d = true -> forallb plain_name rest = true ->
  join (join base_path [d]) rest = path_of true (base_comps ++ d :: rest).
Proof.
  intros Hd Hr. rewrite base_path_of. unfold join. cbn [fold_left].
  rewrite join2_plain by (try discriminate; try reflexivity; exact Hd).
  assert (forallb plain_name (base_comps ++ [d]) = true) as Hp.
  { rewrite forallb_app. cbn [forallb]. rewrite Hd. reflexivity. }
  assert (base_comps ++ [d] <> []) as Hne by discriminate.
  change (base_comps ++ d :: rest) with (base_comps ++ [d] ++ rest). rewrite app_assoc.
  revert Hp Hne Hr. generalize (base_comps ++ [d]).
  induction rest as [|c rest IH]; intros cs Hp Hne Hr.
  - rewrite app_nil_r. reflexivity.
  - cbn [fold_left forallb] in *. apply andb_prop in Hr as [Hc Hr].
    rewrite (join2_plain _ _ Hne Hp Hc), IH.
    + rewrite <- app_assoc. reflexivity.
    + rewrite forallb_app. cbn [forallb]. rewrite Hp, Hc. reflexivity.
    + destruct cs; discriminate.
    + exact Hr.
Qed.


Lemma all_dirs_app_l (fs : gmap (list string) node) (cs cs' base : list string) :
  all_dirs fs base (cs ++ cs') = true -> all_dirs fs base cs = true.
Proof.
  revert base. induction cs as [|c cs IH]; intros base; [reflexivity|].
  cbn [app all_dirs]. destruct (node_at fs (base ++ [c])) as [[|b]|]; try discriminate.
  apply IH.
Qed.

(** Adding directories keeps directories. *)
Lemma all_dirs_with_dirs_mono (fs : gmap (list string) node) (cs base cs' base' : list string) :
  all_dirs fs base cs = true -> all_dirs (with_dirs fs base' cs') base cs = true.
Proof.
  rewrite !all_dirs_steps. intros H k Hk. rewrite with_dirs_lookup.
  destruct (bool_decide _); [reflexivity | apply H, Hk].
Qed.

Lemma makedirs_examples {B} (ds : list string) (d level : string) (k : unit -> M B)
    (e : env) (s : state) :
  plain_name d = true -> d ∈ ds -> level ∈ levels -> tree_ready ds (st_fs s) = true ->
  bind (makedirs (join (join base_path [d]) [level; "examples"])) k e s
  = k tt e (set_fs s (with_dirs (st_fs s) [] (examples_dir d level))).
Proof.
  intros Hd Hin Hl Hr.
  assert (plain_name level = true) as Hpl.
  { unfold levels in Hl. repeat (apply elem_of_cons in Hl as [->|Hl]; [reflexivity|]).
    apply elem_of_nil in Hl. contradiction. }
  rewrite join_topic_path by (try exact Hd; cbn [forallb]; rewrite Hpl; reflexivity).
  assert (forallb plain_name (base_comps ++ [d; level; "examples"]) = true) as Hp
    by (rewrite forallb_app; cbn [forallb]; rewrite Hd, Hpl; reflexivity).
  unfold bind. rewrite makedirs_plain; [reflexivity | discriminate | exact Hp | |].
  - apply (path_of_fits true _ Hp). cbn. lia.
  - apply (ready_dirs_free ds); assumption.
Qed.

Lemma is_ascii_claude_text (num name title : pyval) :
  is_ascii (py_str title) = true -> is_ascii (create_topic_content num name title) = true.
Proof.
  intros H. unfold create_topic_content. cbv zeta.
  rewrite !is_ascii_app, H. reflexivity.
Qed.

(** One turn of the loop of [create_all_topics] on a ready tree. *)
Lemma create_topic_run (ds : list string) (topic : gmap string pyval)
    (e : env) (s : state) :
  topic_ok topic = true -> topic_dir topic ∈ ds -> tree_ready ds (st_fs s) = true ->
  create_topic topic e s
  = (Ok tt, add_events (set_fs s (after_topic (st_fs s) topic))
                       [EvPrint (created_line topic)])
  /\ tree_ready ds (after_topic (st_fs s) topic) = true.
Proof.
  intros Hok Hin Hr.
  unfold topic_ok in Hok. unfold after_topic, wanted_levels, wants, claude_text, created_line.
  unfold topic_dir in *.
  unfold create_topic, getitem.
  destruct (topic !! "num") as [num|]; [|discriminate].
  destruct (topic !! "name") as [name|]; [|discriminate].
  destruct (topic !! "title") as [title|]; [|discriminate].
  apply andb_prop in Hok as [Hd Ht].
  set (d := py_str num +:+ "_" +:+ py_str name) in *.
  cbn [lift_option]. repeat (change (bind (ret ?a) ?k) with (k a); cbv beta zeta).
  fold d.
  assert ("basic" ∈ levels) as Lb by apply list_elem_of_here.
  assert ("intermediate" ∈ levels) as Li
    by apply list_elem_of_further, list_elem_of_here.
  assert ("advanced" ∈ levels) as La
    by apply list_elem_of_further, list_elem_of_further, list_elem_of_here.
  rewrite (makedirs_examples ds) by assumption.
  set (fs1 := with_dirs (st_fs s) [] (examples_dir d "basic")).
  assert (tree_ready ds fs1 = true) as Hr1 by (apply ready_with_dirs; assumption).
  assert (all_dirs fs1 [] (base_comps ++ [d]) = true) as Hall1.
  { apply (all_dirs_app_l _ _ ["basic"; "examples"]).
    pose proof (all_dirs_with_dirs (st_fs s) (examples_dir d "basic") []) as H.
    unfold examples_dir in H. rewrite <- app_assoc. exact H. }
  assert (exists fs3,
    fold_left (fun fs level => with_dirs fs [] (examples_dir d level))
      ((if truthy (get topic "needs_intermediate" (PBool true)) then ["intermediate"] else [])
       ++ (if truthy (get topic "needs_advanced" (PBool true)) then ["advanced"] else []))
      fs1 = fs3 /\
    tree_ready ds fs3 = true /\ all_dirs fs3 [] (base_comps ++ [d]) = true /\
    forall (k : unit -> M unit),
      bind (if truthy (get topic "needs_intermediate" (PBool true))
            then makedirs (join (join base_path [d]) ["intermediate"; "examples"])
            else ret tt)
        (fun _ => bind (if truthy (get topic "needs_advanced" (PBool true))
                        then makedirs (join (join base_path [d]) ["advanced"; "examples"])
                        else ret tt) k) e (set_fs s fs1)
      = k tt e (set_fs s fs3)) as (fs3 & Hfold & Hr3 & Hall3 & Hrun).
  { destruct (truthy (get topic "needs_intermediate" (PBool true)));
      destruct (truthy (get topic "needs_advanced" (PBool true)));
      eexists; (split; [reflexivity|]); cbn [app fold_left].
    - split; [auto using ready_with_dirs|]. split; [auto using all_dirs_with_dirs_mono|].
      intros k. rewrite (makedirs_examples ds) by assumption.
      rewrite (makedirs_examples ds) by (try assumption; apply ready_with_dirs; assumption).
      reflexivity.
    - split; [auto using ready_with_dirs|]. split; [auto using all_dirs_with_dirs_mono|].
      intros k. rewrite (makedirs_examples ds) by assumption. reflexivity.
    - split; [auto using ready_with_dirs|]. split; [auto using all_dirs_with_dirs_mono|].
      intros k. change (bind (ret tt) ?k') with (k' tt). cbv beta.
      rewrite (makedirs_examples ds) by assumption. reflexivity.
    - split; [assumption|]. split; [assumption|]. intros k. reflexivity. }
  cbn [fold_left]. fold fs1. rewrite Hfold.
  split; [|apply ready_with_file, Hr3].
  rewrite Hrun. repeat (change (bind (ret ?a) ?k) with (k a); cbv beta zeta).
  rewrite (join_topic_path d ["claude.md"] Hd eq_refl).
  change (base_comps ++ [d; "claude.md"]) with (base_comps ++ [d] ++ ["claude.md"]).
  rewrite app_assoc.
  rewrite (open_write_plain true (base_comps ++ [d]) "claude.md" None
             (create_topic_content num name title) (create_topic_content num name title)).
  - repeat (change (bind (ret ?a) ?k) with (k a); cbv beta zeta).
    rewrite print_ascii; [reflexivity|].
    rewrite is_ascii_app, Ht. reflexivity.
  - rewrite forallb_app. cbn [forallb]. rewrite forallb_app. cbn [forallb].
    rewrite Hd. reflexivity.
  - apply (path_of_fits true); [|cbn; lia].
    rewrite forallb_app. cbn [forallb]. rewrite forallb_app. cbn [forallb].
    rewrite Hd. reflexivity.
  - exact Hall3.
  - pose proof (ready_claude_free ds fs3 d Hin Hr3) as H. exact H.
  - apply encode_ascii, is_ascii_claude_text, Ht.
Qed.

(** The loop of [create_all_topics] over any list of entries it can
    process, on a ready tree: every entry gets its turn, and the tree
    afterwards is the tree before with each entry's directories and file
    added in order. *)
Lemma create_all_topics_over_run (ds : list string) (topics : list (gmap string pyval))
    (e : env) (s : state) :
  Forall (fun t => topic_ok t = true /\ topic_dir t ∈ ds) topics ->
  tree_ready ds (st_fs s) = true ->
  create_all_topics_over topics e s
  = (Ok tt, add_events (set_fs s (fold_left after_topic topics (st_fs s)))
                       (map EvPrint (map created_line topics)))
  /\ tree_ready ds (fold_left after_topic topics (st_fs s)) = true.
Proof.
  unfold create_all_topics_over. intros Hts. revert s.
  induction Hts as [|t topics [Hok Hin] _ IH]; intros s Hr; cbn [for_each fold_left map].
  - split; [|exact Hr]. unfold ret. rewrite set_fs_same, add_events_nil. reflexivity.
  - destruct (create_topic_run ds t e s Hok Hin Hr) as [Hrun Hr1].
    unfold bind at 1. rewrite Hrun.
    set (s1 := add_events _ _).
    destruct (IH s1 Hr1) as [IHrun IHr]. rewrite IHrun. split; [|exact IHr].
    unfold s1, add_events, set_fs. cbn [st_fs st_cwd st_trace].
    rewrite <- app_assoc. reflexivity.
Qed.

Lemma wanted_levels_sub (t : gmap string pyval) (level : string) :
  level ∈ wanted_levels t -> level ∈ levels.
Proof.
  unfold wanted_levels, levels. intros H.
  apply elem_of_cons in H as [->|H]; [apply list_elem_of_here|].
  apply elem_of_app in H as [H|H].
  - destruct (wants t "needs_intermediate"); [|apply elem_of_nil in H; contradiction].
    apply elem_of_cons in H as [->|H]; [|apply elem_of_nil in H; contradiction].
    apply list_elem_of_further, list_elem_of_here.
  - destruct (wants t "needs_advanced"); [|apply elem_of_nil in H; contradiction].
    apply elem_of_cons in H as [->|H]; [|apply elem_of_nil in H; contradiction].
    apply list_elem_of_further, list_elem_of_further, list_elem_of_here.
Qed.

Lemma fold_with_dirs_mono (fs : gmap (list string) node) (d : string) (lvs : list string)
    (cs base : list string) :
  all_dirs fs base cs = true ->
  all_dirs (fold_left (fun fs level => with_dirs fs [] (examples_dir d level)) lvs fs)
           base cs = true.
Proof.
  revert fs. induction lvs as [|l lvs IH]; intros fs H; [exact H|].
  cbn [fold_left]. apply IH, all_dirs_with_dirs_mono, H.
Qed.

Lemma fold_with_dirs_made (fs : gmap (list string) node) (d level : string)
    (lvs : list string) :
  level ∈ lvs ->
  all_dirs (fold_left (fun fs level => with_dirs fs [] (examples_dir d level)) lvs fs)
           [] (examples_dir d level) = true.
Proof.
  revert fs. induction lvs as [|l lvs IH]; intros fs H.
  - apply elem_of_nil in H. contradiction.
  - cbn [fold_left]. apply elem_of_cons in H as [->|H].
    + apply fold_with_dirs_mono, all_dirs_with_dirs.
    + apply IH, H.
Qed.

Lemma fold_with_dirs_file (fs : gmap (list string) node) (d d' : string)
    (lvs : list string) :
  (forall level, level ∈ lvs -> level ∈ levels) ->
  fold_left (fun fs level => with_dirs fs [] (examples_dir d level)) lvs fs !! claude_key d'
  = fs !! claude_key d'.
Proof.
  revert fs. induction lvs as [|l lvs IH]; intros fs H; [reflexivity|].
  cbn [fold_left]. rewrite IH by (intros; apply H, list_elem_of_further; assumption).
  rewrite with_dirs_lookup, bool_decide_eq_false_2; [reflexivity|].
  apply claude_key_not_step, H, list_elem_of_here.
Qed.

Lemma claude_key_inj (d d' : string) : claude_key d = claude_key d' -> d = d'.
Proof. unfold claude_key. intros H. apply app_inv_head in H. congruence. Qed.

Lemma all_dirs_insert_off (fs : gmap (list string) node) (cs base k : list string)
    (n : node) :
  k ∉ steps base cs -> all_dirs fs base cs = true ->
  all_dirs (<[k := n]> fs) base cs = true.
Proof.
  rewrite !all_dirs_steps. intros Hk H k' Hk'.
  rewrite lookup_insert_ne by (intros ->; contradiction). apply H, Hk'.
Qed.

Lemma after_topic_keeps_dirs (fs : gmap (list string) node) (t : gmap string pyval)
    (d level : string) :
  level ∈ levels -> all_dirs fs [] (examples_dir d level) = true ->
  all_dirs (after_topic fs t) [] (examples_dir d level) = true.
Proof.
  intros Hl H. unfold after_topic.
  apply all_dirs_insert_off; [apply claude_key_not_step, Hl|].
  apply fold_with_dirs_mono, H.
Qed.

Lemma after_topic_keeps_file (fs : gmap (list string) node) (t : gmap string pyval)
    (d : string) :
  topic_dir t <> d -> after_topic fs t !! claude_key d = fs !! claude_key d.
Proof.
  intros Hne. unfold after_topic.
  rewrite lookup_insert_ne by (intros H; apply claude_key_inj in H; congruence).
  apply fold_with_dirs_file, wanted_levels_sub.
Qed.

Lemma topics_keep_dirs (topics : list (gmap string pyval)) (fs : gmap (list string) node)
    (d level : string) :
  level ∈ levels -> all_dirs fs [] (examples_dir d level) = true ->
  all_dirs (fold_left after_topic topics fs) [] (examples_dir d level) = true.
Proof.
  intros Hl. revert fs. induction topics as [|t topics IH]; intros fs H; [exact H|].
  cbn [fold_left]. apply IH, after_topic_keeps_dirs; assumption.
Qed.

Lemma topics_keep_file (topics : list (gmap string pyval)) (fs : gmap (list string) node)
    (d : string) :
  d ∉ map topic_dir topics ->
  fold_left after_topic topics fs !! claude_key d = fs !! claude_key d.
Proof.
  revert fs. induction topics as [|t topics IH]; intros fs H; [reflexivity|].
  cbn [fold_left map] in *. apply not_elem_of_cons in H as [Hne H].
  rewrite (IH _ H). apply after_topic_keeps_file. congruence.
Qed.

(** What the loop leaves for each entry, when no two entries share a
    directory name: the [examples] directory of every wanted level, and the
    entry's own [claude.md]. *)
Lemma topics_made (topics : list (gmap string pyval)) (fs : gmap (list string) node) :
  NoDup (map topic_dir topics) ->
  Forall (fun t =>
            Forall (fun level =>
                      all_dirs (fold_left after_topic topics fs) []
                               (examples_dir (topic_dir t) level) = true)
                   (wanted_levels t) /\
            fold_left after_topic topics fs !! claude_key (topic_dir t)
            = Some (File (claude_text t)))
         topics.
Proof.
  revert fs. induction topics as [|t topics IH]; intros fs Hnd; [constructor|].
  cbn [map] in Hnd. apply NoDup_cons in Hnd as [Hnotin Hnd].
  cbn [fold_left]. constructor; [|apply IH, Hnd].
  split.
  - apply Forall_forall. intros level Hl.
    apply topics_keep_dirs; [eapply wanted_levels_sub, Hl|].
    unfold after_topic.
    apply all_dirs_insert_off;
      [apply claude_key_not_step; eapply wanted_levels_sub, Hl|].
    apply fold_with_dirs_made, Hl.
  - rewrite (topics_keep_file _ _ _ Hnotin). unfold after_topic.
    apply lookup_insert_eq.
Qed.

Lemma ready_after_topic (ds : list string) (fs : gmap (list string) node)
    (t : gmap string pyval) :
  tree_ready ds fs = true -> tree_ready ds (after_topic fs t) = true.
Proof.
  intros Hr. unfold after_topic. apply ready_with_file.
  assert (forall lvs, (forall level, level ∈ lvs -> level ∈ levels) ->
            forall fs0, tree_ready ds fs0 = true ->
            tree_ready ds (fold_left (fun fs level =>
                                        with_dirs fs [] (examples_dir (topic_dir t) level))
                                     lvs fs0) = true) as H.
  { induction lvs as [|l lvs IH]; intros Hl fs0 H0; [exact H0|].
    cbn [fold_left]. apply IH.
    - intros level Hin. apply Hl, list_elem_of_further, Hin.
    - apply ready_with_dirs; [apply Hl, list_elem_of_here | exact H0]. }
  apply H; [apply wanted_levels_sub | exact Hr].
Qed.

(** A turn of the loop keeps every entry of a ready tree, but for the
    [claude.md] it writes. *)
Lemma after_topic_keeps (ds : list string) (fs : gmap (list string) node)
    (t : gmap string pyval) (k : list string) (n : node) :
  topic_dir t ∈ ds -> tree_ready ds fs = true ->
  fs !! k = Some n -> k <> claude_key (topic_dir t) ->
  after_topic fs t !! k = Some n.
Proof.
  intros Hin Hr Hk Hne. unfold after_topic. rewrite lookup_insert_ne by congruence.
  assert (forall lvs, (forall level, level ∈ lvs -> level ∈ levels) ->
            forall fs0, tree_ready ds fs0 = true -> fs0 !! k = Some n ->
            fold_left (fun fs level => with_dirs fs [] (examples_dir (topic_dir t) level))
                      lvs fs0 !! k = Some n) as H.
  { induction lvs as [|l lvs IH]; intros Hl fs0 H0 Hk0; [exact Hk0|].
    cbn [fold_left].
    assert (l ∈ levels) as Hll by apply Hl, list_elem_of_here.
    apply IH.
    - intros level Hlv. apply Hl, list_elem_of_further, Hlv.
    - apply ready_with_dirs; assumption.
    - rewrite with_dirs_lookup.
      destruct (bool_decide (k ∈ steps [] (examples_dir (topic_dir t) l))) eqn:E;
        [|exact Hk0].
      apply bool_decide_eq_true in E. rewrite tree_ready_spec in H0.
      specialize (H0 _ _ Hk0). destruct n as [|b]; [reflexivity|].
      cbn [entry_ok] in H0. apply negb_true_iff, bool_decide_eq_false in H0.
      exfalso. apply H0. apply dir_places_spec. eauto. }
  apply H; [apply wanted_levels_sub | exact Hr | exact Hk].
Qed.

Lemma topics_keep (ds : list string) (topics : list (gmap string pyval))
    (fs : gmap (list string) node) (k : list string) (n : node) :
  Forall (fun t => topic_dir t ∈ ds) topics -> tree_ready ds fs = true ->
  fs !! k = Some n ->
  Forall (fun t => k <> claude_key (topic_dir t)) topics ->
  fold_left after_topic topics fs !! k = Some n.
Proof.
  intros Hin. revert fs. induction Hin as [|t topics Ht _ IH]; intros fs Hr Hk Hne;
    [exact Hk|].
  apply Forall_cons in Hne as [Hne1 Hne]. cbn [fold_left].
  apply IH; [apply ready_after_topic, Hr | | exact Hne].
  apply (after_topic_keeps ds); assumption.
Qed.

(** Nothing at or below the directory of a level is touched by a turn for
    another topic directory, or for an entry that does not want the
    level. *)
Lemma after_topic_spares (fs : gmap (list string) node) (t : gmap string pyval)
    (d level : string) (rest : list string) :
  level <> "claude.md" ->
  (topic_dir t = d -> level ∉ wanted_levels t) ->
  after_topic fs t !! (base_comps ++ d :: level :: rest)
  = fs !! (base_comps ++ d :: level :: rest).
Proof.
  intros Hc Hw. unfold after_topic.
  rewrite lookup_insert_ne
    by (unfold claude_key; intros H; apply app_inv_head in H; congruence).
  assert (forall lvs, (forall l, l ∈ lvs -> topic_dir t = d -> l <> level) ->
            forall fs0,
              fold_left (fun fs level => with_dirs fs [] (examples_dir (topic_dir t) level))
                        lvs fs0 !! (base_comps ++ d :: level :: rest)
              = fs0 !! (base_comps ++ d :: level :: rest)) as H.
  { induction lvs as [|l lvs IH]; intros Hl fs0; [reflexivity|].
    cbn [fold_left]. rewrite IH by (intros; apply Hl; [apply list_elem_of_further|]; auto).
    rewrite with_dirs_lookup, bool_decide_eq_false_2; [reflexivity|].
    intros H. cbv [examples_dir base_comps app steps] in H.
    repeat (apply elem_of_cons in H as [H|H]; [try discriminate H|]).
    - injection H as H1 H2. symmetry in H1.
      exact (Hl l (list_elem_of_here _ _) H1 (eq_sym H2)).
    - injection H as H1 H2 _. symmetry in H1.
      exact (Hl l (list_elem_of_here _ _) H1 (eq_sym H2)).
    - apply elem_of_nil in H. exact H. }
  apply H. intros l Hl Hd ->. exact (Hw Hd Hl).
Qed.

Lemma topics_spare (topics : list (gmap string pyval)) (fs : gmap (list string) node)
    (d level : string) (rest : list string) :
  level <> "claude.md" ->
  Forall (fun t => topic_dir t = d -> level ∉ wanted_levels t) topics ->
  fold_left after_topic topics fs !! (base_comps ++ d :: level :: rest)
  = fs !! (base_comps ++ d :: level :: rest).
Proof.
  intros Hc H. revert fs. induction H as [|t topics Ht _ IH]; intros fs; [reflexivity|].
  cbn [fold_left]. rewrite IH. apply after_topic_spares; assumption.
Qed.

(** With no two entries for one directory, an entry decides alone what is
    made below its directory. *)
Lemma same_dir_same_topic (topics : list (gmap string pyval)) (t t' : gmap string pyval) :
  NoDup (map topic_dir topics) -> t ∈ topics -> t' ∈ topics ->
  topic_dir t' = topic_dir t -> t' = t.
Proof.
  induction topics as [|x topics IH]; intros Hnd Ht Ht' Hd.
  - apply elem_of_nil in Ht. contradiction.
  - cbn [map] in Hnd. apply NoDup_cons in Hnd as [Hx Hnd].
    apply elem_of_cons in Ht as [->|Ht], Ht' as [->|Ht']; try reflexivity.
    + exfalso. apply Hx. rewrite <- Hd. apply list_elem_of_fmap_2, Ht'.
    + exfalso. apply Hx. rewrite Hd. apply list_elem_of_fmap_2, Ht.
    + apply IH; assumption.
Qed.

(** Which levels an entry wants: [basic] always, the other two by their
    flags, a missing flag counting as set. *)
Lemma wants_spec (t : gmap string pyval) (flag : string) :
  wants t flag = match t !! flag with Some v => truthy v | None => true end.
Proof. unfold wants, get. destruct (t !! flag); reflexivity. Qed.

Lemma wanted_levels_flag (t : gmap string pyval) (level flag : string) :
  (level, flag) ∈ [("intermediate", "needs_intermediate"); ("advanced", "needs_advanced")] ->
  (level ∈ wanted_levels t <-> wants t flag = true) /\ level <> "claude.md".
Proof.
  intros H. unfold wanted_levels.
  apply elem_of_cons in H as [[= -> ->]|H];
    [|apply elem_of_cons in H as [[= -> ->]|H]; [|apply elem_of_nil in H; contradiction]].
  - split; [|discriminate]. split.
    + intros H. apply elem_of_cons in H as [H|H]; [discriminate H|].
      apply elem_of_app in H as [H|H].
      * destruct (wants t "needs_intermediate"); [reflexivity|].
        apply elem_of_nil in H. contradiction.
      * destruct (wants t "needs_advanced");
          [apply elem_of_cons in H as [H|H]; [discriminate H|]|];
          apply elem_of_nil in H; contradiction.
    + intros ->. apply list_elem_of_further, list_elem_of_here.
  - split; [|discriminate]. split.
    + intros H. apply elem_of_cons in H as [H|H]; [discriminate H|].
      apply elem_of_app in H as [H|H].
      * destruct (wants t "needs_intermediate");
          [apply elem_of_cons in H as [H|H]; [discriminate H|]|];
          apply elem_of_nil in H; contradiction.
      * destruct (wants t "needs_advanced"); [reflexivity|].
        apply elem_of_nil in H. contradiction.
    + intros ->. apply list_elem_of_further, elem_of_app. right. apply list_elem_of_here.
Qed.

(** A directory all of whose steps are there is one for [os.path.isdir]. *)
Lemma isdir_examples (s : state) (d level : string) :
  plain_name d = true -> level ∈ levels ->
  all_dirs (st_fs s) [] (examples_dir d level) = true ->
  isdir s (join (join base_path [d]) [level; "examples"]) = true.
Proof.
  intros Hd Hl Hall.
  assert (plain_name level = true) as Hpl.
  { unfold levels in Hl. repeat (apply elem_of_cons in Hl as [->|Hl]; [reflexivity|]).
    apply elem_of_nil in Hl. contradiction. }
  assert (forallb plain_name (base_comps ++ [d; level; "examples"]) = true) as Hp
    by (rewrite forallb_app; cbn [forallb]; rewrite Hd, Hpl; reflexivity).
  rewrite join_topic_path by (try exact Hd; cbn [forallb]; rewrite Hpl; reflexivity).
  unfold isdir. rewrite resolve_path_of;
    [|discriminate | exact Hp | apply (path_of_fits true _ Hp); cbn; lia].
  cbn [start_dir]. rewrite (walk_all_dirs _ _ _ Hp Hall). reflexivity.
Qed.

Lemma file_bytes_claude (s : state) (d text : string) :
  plain_name d = true ->
  all_dirs (st_fs s) [] (base_comps ++ [d]) = true ->
  st_fs s !! claude_key d = Some (File text) ->
  file_bytes s (join (join base_path [d]) ["claude.md"]) = Some text.
Proof.
  intros Hd Hall Hf.
  assert (forallb plain_name ((base_comps ++ [d]) ++ ["claude.md"]) = true) as Hp.
  { rewrite forallb_app. cbn [forallb]. rewrite forallb_app. cbn [forallb].
    rewrite Hd. reflexivity. }
  rewrite (join_topic_path d ["claude.md"] Hd eq_refl).
  change (base_comps ++ [d; "claude.md"]) with (base_comps ++ [d] ++ ["claude.md"]).
  rewrite app_assoc.
  unfold file_bytes. rewrite resolve_path_of;
    [|discriminate | exact Hp | apply (path_of_fits true _ Hp); cbn; lia].
  cbn [start_dir]. rewrite (walk_snoc _ _ _ _ Hp Hall). cbn [app].
  rewrite <- app_assoc. cbn [app].
  change (node_at (st_fs s) (base_comps ++ [d; "claude.md"]))
    with (st_fs s !! claude_key d).
  rewrite Hf. reflexivity.
Qed.

Lemma prefix_app (a b c : string) :
  String.prefix (a +:+ b) (a +:+ c) = String.prefix b c.
Proof.
  induction a as [|x a IH]; [reflexivity|].
  rewrite !app_String. cbn [String.prefix].
  destruct (ascii_dec x x); [exact IH | congruence].
Qed.

Lemma topics_are_ok :
  Forall (fun t => topic_ok t = true) TOPICS /\ NoDup (map topic_dir TOPICS).
Proof.
  split.
  - unfold TOPICS. repeat (apply Forall_cons; split; [vm_compute; reflexivity|]). constructor.
  - refine (bool_decide_unpack _ _). vm_compute. exact I.
Qed.

(** C4, amended.  From a tree with no regular file at or above the place
    of an [examples] directory of an entry (for any of the three levels)
    and no directory at the place of a [claude.md], the loop of
    [create_all_topics] returns after one turn for each entry, in order,
    whatever the entries are (with their three fields, a directory name
    that can name a directory, an ASCII title, and no two entries for one
    directory).  For each entry the directory [<num>_<name>/basic/examples]
    exists afterwards below the base path; [intermediate/examples] and
    [advanced/examples] exist when the entry's flag is true or missing,
    and nothing at or below the level is touched when the flag is false;
    the topic directory holds [claude.md] with the entry's text, which
    starts with the title; every other entry of the tree is as before; and
    one line is printed for each entry.  The script runs this loop over
    the 20 entries of [TOPICS], which satisfy the conditions and have all
    their flags set, and prints two closing lines. *)
Theorem script_makes_topic_structure (topics : list (gmap string pyval))
    (e : env) (s : state) :
  Forall (fun t => topic_ok t = true) topics ->
  NoDup (map topic_dir topics) ->
  tree_ready (map topic_dir topics) (st_fs s) = true ->
  let s' := snd (create_all_topics_over topics e s) in
  fst (create_all_topics_over topics e s) = Ok tt /\
  st_cwd s' = st_cwd s /\
  st_trace s'
  = st_trace s
    ++ map (fun t => EvPrint ("Created structure for "
                              +:+ match t !! "title" with
                                  | Some (PStr title) => title
                                  | Some (PBool true) => "True"
                                  | Some (PBool false) => "False"
                                  | None => ""
                                  end))
           topics /\
  Forall
    (fun t =>
       match t !! "num", t !! "name", t !! "title" with
       | Some num, Some name, Some title =>
           let topic_dir := py_str num +:+ "_" +:+ py_str name in
           let topic_path := join "/media/usb/anrai/golang/go_theory" [topic_dir] in
           isdir s' (join topic_path ["basic"; "examples"]) = true /\
           Forall
             (fun lf : string * string =>
                if match t !! snd lf with
                   | Some (PBool flag) => flag
                   | Some (PStr text) => negb (String.eqb text "")
                   | None => true
                   end
                then isdir s' (join topic_path [fst lf; "examples"]) = true
                else forall rest,
                       st_fs s' !! (["media"; "usb"; "anrai"; "golang"; "go_theory"]
                                    ++ topic_dir :: fst lf :: rest)
                       = st_fs s !! (["media"; "usb"; "anrai"; "golang"; "go_theory"]
                                     ++ topic_dir :: fst lf :: rest))
             [("intermediate", "needs_intermediate"); ("advanced", "needs_advanced")] /\
           file_bytes s' (join topic_path ["claude.md"])
           = Some (create_topic_content num name title) /\
           startswith (create_topic_content num name title)
                      ("# " +:+ py_str title +:+ " - Topic Context") = true
       | _, _, _ => False
       end)
    topics /\
  (forall k n,
      st_fs s !! k = Some n ->
      Forall (fun t => k <> ["media"; "usb"; "anrai"; "golang"; "go_theory"]
                            ++ [topic_dir t; "claude.md"]) topics ->
      st_fs s' !! k = Some n) /\
  (topics = TOPICS ->
   generate_comprehensive_theory.script e s
   = (Ok tt,
      add_events s'
        [EvPrint (String (ascii_of_nat 10) "All topic structures created!");
         EvPrint "Now run the comprehensive content generator..."])) /\
  length TOPICS = 20%nat /\
  map (fun t => match t !! "num", t !! "name" with
                | Some (PStr num), Some (PStr name) => num +:+ "_" +:+ name
                | _, _ => ""
                end) TOPICS
  = ["01_basics_and_syntax"; "02_data_types_and_variables";
     "03_operators_and_expressions"; "04_control_flow"; "05_functions";
     "06_arrays_and_slices"; "07_maps"; "08_structs"; "09_pointers";
     "10_methods_and_interfaces"; "11_error_handling"; "12_packages_and_modules";
     "13_concurrency"; "14_channels"; "15_file_io"; "16_testing"; "17_reflection";
     "18_generics"; "19_memory_management"; "20_advanced_patterns"] /\
  Forall (fun t => t !! "needs_intermediate" = Some (PBool true) /\
                   t !! "needs_advanced" = Some (PBool true)) TOPICS /\
  Forall (fun t => topic_ok t = true) TOPICS /\
  NoDup (map topic_dir TOPICS).
Proof.
  intros Hok Hnd Hr s'.
  assert (Forall (fun t => topic_ok t = true /\ topic_dir t ∈ map topic_dir topics) topics)
    as Hts.
  { apply Forall_forall. intros t Ht. split.
    - rewrite Forall_forall in Hok. apply Hok, Ht.
    - apply list_elem_of_fmap_2, Ht. }
  destruct (create_all_topics_over_run _ _ e s Hts Hr) as [Hrun Hr'].
  unfold s'. rewrite Hrun. cbn [fst snd add_events set_fs st_fs st_cwd st_trace].
  set (fs' := fold_left after_topic topics (st_fs s)) in *.
  split; [reflexivity|]. split; [reflexivity|].
  split.
  { f_equal. rewrite map_map. apply map_ext_in. intros t Ht.
    rewrite Forall_forall in Hok. apply list_elem_of_In, Hok in Ht.
    unfold topic_ok in Ht. unfold created_line.
    destruct (t !! "num"); [|discriminate]. destruct (t !! "name"); [|discriminate].
    destruct (t !! "title") as [[title|[|]]|]; [reflexivity.. | discriminate]. }
  split.
  { pose proof (topics_made topics (st_fs s) Hnd) as Hm. fold fs' in Hm.
    rewrite Forall_forall in Hm, Hok. apply Forall_forall. intros t Ht.
    destruct (Hm t Ht) as [Hd Hf]. specialize (Hok t Ht).
    unfold topic_ok in Hok. unfold claude_text in Hf. unfold topic_dir in Hd, Hf, Hok.
    pose proof (fun t' (Ht' : t' ∈ topics) =>
                  same_dir_same_topic topics t t' Hnd Ht Ht') as Hsame.
    unfold topic_dir in Hsame at 2.
    destruct (t !! "num") as [num|]; [|discriminate].
    destruct (t !! "name") as [name|]; [|discriminate].
    destruct (t !! "title") as [title|]; [|discriminate].
    apply andb_prop in Hok as [Hpd _]. cbv zeta.
    change "/media/usb/anrai/golang/go_theory" with base_path.
    change ["media"; "usb"; "anrai"; "golang"; "go_theory"] with base_comps.
    set (d := py_str num +:+ "_" +:+ py_str name) in *.
    rewrite Forall_forall in Hd.
    assert (all_dirs fs' [] (examples_dir d "basic") = true) as Hb
      by (apply Hd; unfold wanted_levels; apply list_elem_of_here).
    split; [|split; [|split]].
    - apply (isdir_examples (mkState fs' _ _) d "basic" Hpd); [apply list_elem_of_here|].
      exact Hb.
    - apply Forall_forall. intros [level flag] Hlf. cbn [fst snd].
      destruct (wanted_levels_flag t level flag Hlf) as [Hw Hc].
      change (match t !! flag with
              | Some (PStr text) => negb (String.eqb text "")
              | Some (PBool flag0) => flag0
              | None => true
              end)
        with (match t !! flag with Some v => truthy v | None => true end).
      rewrite <- wants_spec.
      destruct (wants t flag) eqn:E.
      + assert (level ∈ wanted_levels t) as Hl by (apply Hw; reflexivity).
        apply (isdir_examples (mkState fs' _ _) d level Hpd);
          [eapply wanted_levels_sub, Hl | apply Hd, Hl].
      + intros rest. cbn [st_fs]. apply topics_spare; [exact Hc|].
        apply Forall_forall. intros t' Ht' Hd'.
        rewrite (Hsame t' Ht' Hd'). intros Hl. apply Hw in Hl. congruence.
    - apply (file_bytes_claude (mkState fs' _ _) d _ Hpd); [|exact Hf].
      apply (all_dirs_app_l _ _ ["basic"; "examples"]).
      unfold examples_dir in Hb. rewrite <- app_assoc. exact Hb.
    - unfold create_topic_content, startswith. cbv zeta.
      rewrite ?append_assoc, !prefix_app. reflexivity. }
  split.
  { intros k n Hk Hne. apply (topics_keep (map topic_dir topics)); try assumption.
    apply Forall_forall. intros t Ht. apply list_elem_of_fmap_2, Ht. }
  split.
  { intros ->. unfold generate_comprehensive_theory.script, create_all_topics.
    unfold bind at 1. rewrite Hrun. run_prints. reflexivity. }
  split; [reflexivity|]. split; [reflexivity|].
  split.
  { unfold TOPICS. repeat (apply Forall_cons; split; [vm_compute; split; reflexivity|]).
    constructor. }
  apply topics_are_ok.
Qed.

End TopicStructure.

Lemma script_makes_topic_structure_witness :
  let topics :=
    [ generate_comprehensive_theory.dict
        [ ("num", generate_comprehensive_theory.PStr "21");
          ("name", generate_comprehensive_theory.PStr "appendix");
          ("title", generate_comprehensive_theory.PStr "Appendix");
          ("needs_intermediate", generate_comprehensive_theory.PBool true);
          ("needs_advanced", generate_comprehensive_theory.PBool false) ];
      generate_comprehensive_theory.dict
        [ ("num", generate_comprehensive_theory.PStr "22");
          ("name", generate_comprehensive_theory.PStr "index");
          ("title", generate_comprehensive_theory.PStr "Index");
          ("needs_intermediate", generate_comprehensive_theory.PBool false) ] ] in
  let e := mkEnv latin_1 "generate_comprehensive_theory.py" None in
  let s := Sample.mounted_start in
  let s' := snd (generate_comprehensive_theory.create_all_topics_over topics e s) in
  (Forall (fun t => generate_comprehensive_theory.topic_ok t = true) topics /\
   NoDup (map generate_comprehensive_theory.topic_dir topics) /\
   generate_comprehensive_theory.tree_ready
     (map generate_comprehensive_theory.topic_dir topics) (st_fs s) = true /\
   fst (generate_comprehensive_theory.create_all_topics_over topics e s) = Ok tt /\
   printed s' = ["Created structure for Appendix"; "Created structure for Index"] /\
   isdir s' "/media/usb/anrai/golang/go_theory/21_appendix/basic/examples" = true /\
   isdir s' "/media/usb/anrai/golang/go_theory/21_appendix/intermediate/examples" = true /\
   path_exists s' "/media/usb/anrai/golang/go_theory/21_appendix/advanced" = false /\
   isdir s' "/media/usb/anrai/golang/go_theory/22_index/basic/examples" = true /\
   path_exists s' "/media/usb/anrai/golang/go_theory/22_index/intermediate" = false /\
   isdir s' "/media/usb/anrai/golang/go_theory/22_index/advanced/examples" = true) /\
  (generate_comprehensive_theory.tree_ready
     (map generate_comprehensive_theory.topic_dir generate_comprehensive_theory.TOPICS)
     (st_fs s) = true /\
   path_exists s "/media/usb/anrai/golang/go_theory/07_maps" = false /\
   fst (generate_comprehensive_theory.script e s) = Ok tt /\
   isdir (snd (generate_comprehensive_theory.script e s))
         "/media/usb/anrai/golang/go_theory/07_maps/advanced/examples" = true /\
   length (printed (snd (generate_comprehensive_theory.script e s))) = 22%nat).
Proof.
  intros topics e s s'. split.
  - assert (Forall (fun t => generate_comprehensive_theory.topic_ok t = true) topics) as H1
      by (repeat (apply Forall_cons; split; [vm_compute; reflexivity|]); constructor).
    assert (NoDup (map generate_comprehensive_theory.topic_dir topics)) as H2
      by (refine (bool_decide_unpack _ _); vm_compute; exact I).
    assert (generate_comprehensive_theory.tree_ready
              (map generate_comprehensive_theory.topic_dir topics) (st_fs s) = true) as H3
      by (vm_compute; reflexivity).
    split; [exact H1|]. split; [exact H2|]. split; [exact H3|].
    destruct (script_makes_topic_structure topics e s H1 H2 H3) as (Hrun & _).
    split; [exact Hrun|].
    vm_compute. repeat split; reflexivity.
  - assert (generate_comprehensive_theory.tree_ready
              (map generate_comprehensive_theory.topic_dir generate_comprehensive_theory.TOPICS)
              (st_fs s) = true) as H3 by (vm_compute; reflexivity).
    split; [exact H3|]. split; [vm_compute; reflexivity|].
    destruct (script_makes_topic_structure generate_comprehensive_theory.TOPICS e s)
      as (_ & _ & _ & _ & _ & Hscript & _ & _ & _ & H1 & H2); [| |exact H3|].
    + unfold generate_comprehensive_theory.TOPICS.
      repeat (apply Forall_cons; split; [vm_compute; reflexivity|]). constructor.
    + refine (bool_decide_unpack _ _). vm_compute. exact I.
    + rewrite (Hscript eq_refl). vm_compute. repeat split; reflexivity.
Defined.

(** The loop is not that forgiving: below a regular file no directory can
    be made, and the first [os.makedirs] raises [NotADirectoryError]
    with nothing made and nothing printed; and where a directory sits in
    the place of a [claude.md], [open] raises [IsADirectoryError] after
    the directories of that entry are made, and the entries after it are
    never reached. *)
Lemma topic_structure_not_on_every_tree :
  let e := mkEnv utf_8 "generate_comprehensive_theory.py" None in
  let blocked := generate_comprehensive_theory.script e Sample.blocked_start in
  let occupied := generate_comprehensive_theory.script e Sample.occupied_start in
  (fst blocked = Raise NotADirectoryError /\
   st_fs (snd blocked) = st_fs Sample.blocked_start /\
   printed (snd blocked) = []) /\
  (fst occupied = Raise IsADirectoryError /\
   isdir (snd occupied)
     "/media/usb/anrai/golang/go_theory/01_basics_and_syntax/advanced/examples" = true /\
   path_exists (snd occupied)
     "/media/usb/anrai/golang/go_theory/02_data_types_and_variables" = false /\
   printed (snd occupied) = []) /\
  ~ generate_comprehensive_theory.serves_every_tree generate_comprehensive_theory.script.
Proof.
  intros e blocked occupied.
  assert (fst blocked = Raise NotADirectoryError) as H1 by (vm_compute; reflexivity).
  split; [split; [exact H1 | split; vm_compute; reflexivity]|].
  split; [repeat split; vm_compute; reflexivity|].
  intros H. destruct (H e Sample.blocked_start) as [H2 _].
  fold blocked in H2. rewrite H1 in H2. discriminate.
Qed.

(** On that tree: directories are there under absolute and relative
    names, the stale [claude.md] is replaced, other files are kept, and 22
    lines are printed, under a Latin-1 locale too. *)
Example sample_topic_structure :
  let s' := snd (generate_comprehensive_theory.script
                   (mkEnv latin_1 "generate_comprehensive_theory.py" None)
                   Sample.mounted_start) in
  isdir s' "/media/usb/anrai/golang/go_theory/07_maps/advanced/examples" = true /\
  isdir s' "20_advanced_patterns/intermediate/examples" = true /\
  file_bytes s' "01_basics_and_syntax/claude.md"
  = Some (generate_comprehensive_theory.create_topic_content
            (generate_comprehensive_theory.PStr "01")
            (generate_comprehensive_theory.PStr "basics_and_syntax")
            (generate_comprehensive_theory.PStr "Basics and Syntax")) /\
  file_bytes s' "01_basics_and_syntax/basic/theory.md" = Some "# Basics" /\
  length (printed s') = 22%nat.
Proof. vm_compute. repeat split; reflexivity. Qed.

(** With a module [generate_all_content] on the import path, the script of
    FINAL_GENERATOR.py calls its function once and prints the closing
    lines; under a Latin-1 locale the bullet of the closing lines cannot be
    printed, after the one call. *)
Example sample_with_module :
  let run k := FINAL_GENERATOR.script (Sample.run_env k (Some Sample.quiet_generator))
                                      Sample.start in
  fst (run utf_8) = Ok tt /\
  calls "generate_all_theories" (snd (run utf_8)) = 1%nat /\
  length (printed (snd (run utf_8))) = 26%nat /\
  fst (run latin_1) = Raise UnicodeEncodeError /\
  calls "generate_all_theories" (snd (run latin_1)) = 1%nat.
Proof. vm_compute. repeat split; reflexivity. Qed.


(** * Further properties *)

(** ** What no writer ever does *)

Lemma walk_free_absent (fs : gmap (list string) node) (comps cur parent : list string)
    (name : string) (sl : bool) :
  walk fs cur comps = RFree parent name sl -> fs !! (parent ++ [name]) = None.
Proof.
  revert cur. induction comps as [|c rest IH]; intros cur; cbn [walk]; [discriminate|].
  destruct (String.eqb c "" || String.eqb c "."); [apply IH|].
  destruct (String.eqb c ".."); [apply IH|].
  destruct (NAME_MAX <? String.length c)%nat; [discriminate|].
  destruct (node_at fs (cur ++ [c])) as [[|b]|] eqn:E.
  - apply IH.
  - destruct rest; discriminate.
  - destruct (forallb (String.eqb "") rest); [|discriminate].
    intros [= <- <- _]. rewrite node_at_snoc in E. exact E.
Qed.

Lemma walk_found_file (fs : gmap (list string) node) (comps cur abs : list string)
    (b : string) :
  walk fs cur comps = RNode abs (File b) -> fs !! abs = Some (File b).
Proof.
  revert cur. induction comps as [|c rest IH]; intros cur; cbn [walk]; [discriminate|].
  destruct (String.eqb c "" || String.eqb c "."); [apply IH|].
  destruct (String.eqb c ".."); [apply IH|].
  destruct (NAME_MAX <? String.length c)%nat; [discriminate|].
  destruct (node_at fs (cur ++ [c])) as [[|b']|] eqn:E.
  - apply IH.
  - destruct rest; [|discriminate]. intros [= <- <-]. rewrite node_at_snoc in E. exact E.
  - destruct (forallb (String.eqb "") rest); discriminate.
Qed.

Lemma resolve_free_absent (s : state) (path : string) (parent : list string)
    (name : string) (sl : bool) :
  resolve s path = RFree parent name sl -> st_fs s !! (parent ++ [name]) = None.
Proof.
  unfold resolve. destruct (fsencode path) as [name'|]; [|discriminate].
  destruct (has_nul name'); [discriminate|].
  destruct (String.eqb name' ""); [discriminate|].
  destruct (PATH_MAX <=? String.length name')%nat; [discriminate|].
  apply walk_free_absent.
Qed.

Lemma resolve_found_file (s : state) (path : string) (abs : list string) (b : string) :
  resolve s path = RNode abs (File b) -> st_fs s !! abs = Some (File b).
Proof.
  unfold resolve. destruct (fsencode path) as [name'|]; [|discriminate].
  destruct (has_nul name'); [discriminate|].
  destruct (String.eqb name' ""); [discriminate|].
  destruct (PATH_MAX <=? String.length name')%nat; [discriminate|].
  apply walk_found_file.
Qed.

(** [os.mkdir] adds at most one entry and touches nothing else. *)
Lemma mkdir_grows (path : string) (e : env) (s s' : state) (r : result unit) :
  mkdir path e s = (r, s') ->
  st_fs s ⊆ st_fs s' /\ st_cwd s' = st_cwd s /\ st_trace s' = st_trace s.
Proof.
  unfold mkdir. destruct (resolve s path) as [abs n|parent name sl|x] eqn:E;
    intros [= _ <-]; try (split; [reflexivity | split; reflexivity]).
  cbn [set_fs st_fs st_cwd st_trace]. split; [|split; reflexivity].
  apply insert_subseteq. eapply resolve_free_absent, E.
Qed.

Lemma mkdir_exist_ok_grows (name : string) (e : env) (s s' : state) (r : result unit) :
  mkdir_exist_ok name e s = (r, s') ->
  st_fs s ⊆ st_fs s' /\ st_cwd s' = st_cwd s /\ st_trace s' = st_trace s.
Proof.
  unfold mkdir_exist_ok. destruct (mkdir name e s) as [[[]|x] s1] eqn:E.
  - intros [= _ <-]. eapply mkdir_grows, E.
  - destruct (os_error x && isdir s1 name); intros [= _ <-]; eapply mkdir_grows, E.
Qed.

(** [os.makedirs] only adds entries, whatever its argument and however it
    ends. *)
Lemma makedirs_rec_grows (fuel : nat) (name : string) (e : env) (s s' : state)
    (r : result unit) :
  makedirs_rec fuel name e s = (r, s') ->
  st_fs s ⊆ st_fs s' /\ st_cwd s' = st_cwd s /\ st_trace s' = st_trace s.
Proof.
  revert name s s' r. induction fuel as [|n IH]; intros name s s' r; cbn [makedirs_rec].
  - intros [= _ <-]. split; [reflexivity | split; reflexivity].
  - destruct (makedirs_parts name) as [head tail].
    destruct (negb (String.eqb head "") && negb (String.eqb tail "")
              && negb (path_exists s head)); [|apply mkdir_exist_ok_grows].
    destruct (makedirs_rec n head e s) as [[[]|x] s1] eqn:E.
    + apply IH in E as (E1 & E2 & E3).
      destruct (String.eqb tail ".").
      * intros [= _ <-]. auto.
      * intros H. apply mkdir_exist_ok_grows in H as (H1 & H2 & H3).
        split; [etrans; eassumption | split; congruence].
    + apply IH in E as (E1 & E2 & E3).
      destruct (bool_decide (x = FileExistsError)).
      * destruct (String.eqb tail ".").
        -- intros [= _ <-]. auto.
        -- intros H. apply mkdir_exist_ok_grows in H as (H1 & H2 & H3).
           split; [etrans; eassumption | split; congruence].
      * intros [= _ <-]. auto.
Qed.

Lemma makedirs_grows (name : string) (e : env) (s s' : state) (r : result unit) :
  makedirs name e s = (r, s') ->
  st_fs s ⊆ st_fs s' /\ st_cwd s' = st_cwd s /\ st_trace s' = st_trace s.
Proof. apply makedirs_rec_grows. Qed.

(** [open(path, 'w')] creates or empties one regular file. *)
Lemma open_w_effect (path : string) (e : env) (s s' : state) (r : result (list string)) :
  open_w path e s = (r, s') ->
  match r with
  | Ok f => st_fs s !! f <> Some Dir /\ s' = set_fs s (<[f := File ""]> (st_fs s))
  | Raise _ => s' = s
  end.
Proof.
  unfold open_w. destruct (resolve s path) as [abs [|b]|parent name [|]|x] eqn:E;
    intros [= <- <-]; try reflexivity.
  - split; [|reflexivity]. apply resolve_found_file in E. rewrite E. discriminate.
  - split; [|reflexivity]. apply resolve_free_absent in E. rewrite E. discriminate.
Qed.

Lemma f_write_effect (f : list string) (enc : option codec) (text : string)
    (e : env) (s s' : state) (r : result unit) :
  f_write f enc text e s = (r, s') ->
  match r with
  | Ok _ => exists b, s' = set_fs s (<[f := File b]> (st_fs s))
  | Raise _ => s' = s
  end.
Proof.
  unfold f_write. destruct (encode _ text); intros [= <- <-]; [eexists|]; reflexivity.
Qed.

(** The shape all writers share: [os.makedirs] of the directory part,
    [open], [write], and a last statement that prints one line or raises
    without effect. *)
Lemma writer_frame (path : string) (enc : option codec) (content : string)
    (last : M unit) (e : env) (s s' : state) (r : result unit) :
  (forall s1, (exists line, last e s1 = (Ok tt, add_events s1 [EvPrint line]))
              \/ (exists x, last e s1 = (Raise x, s1))) ->
  bind (makedirs (dirname path))
    (fun _ => bind (open_w path)
    (fun f => bind (f_write f enc content) (fun _ => last))) e s = (r, s') ->
  st_cwd s' = st_cwd s /\
  (exists key,
     (forall k n, k <> key -> st_fs s !! k = Some n -> st_fs s' !! k = Some n) /\
     (st_fs s !! key = Some Dir -> st_fs s' !! key = Some Dir) /\
     (forall b, st_fs s !! key = Some (File b) -> exists b', st_fs s' !! key = Some (File b'))) /\
  match r with
  | Ok _ => exists line, st_trace s' = st_trace s ++ [EvPrint line]
  | Raise _ => st_trace s' = st_trace s
  end.
Proof.
  intros Hlast. unfold bind.
  destruct (makedirs (dirname path) e s) as [[[]|x] s1] eqn:E1;
    apply makedirs_grows in E1 as (G & Hc & Ht).
  2:{ intros [= <- <-]. split; [exact Hc|]. split; [|exact Ht].
      exists []. split; [|split].
      - intros k n _ H. eapply lookup_weaken; eassumption.
      - intros H. eapply lookup_weaken; eassumption.
      - intros b H. exists b. eapply lookup_weaken; eassumption. }
  destruct (open_w path e s1) as [[f|x] s2] eqn:E2; apply open_w_effect in E2.
  2:{ subst s2. intros [= <- <-]. split; [exact Hc|]. split; [|exact Ht].
      exists []. split; [|split].
      - intros k n _ H. eapply lookup_weaken; eassumption.
      - intros H. eapply lookup_weaken; eassumption.
      - intros b H. exists b. eapply lookup_weaken; eassumption. }
  destruct E2 as [Hnd ->].
  assert (forall b,
            exists key,
              (forall k n, k <> key -> st_fs s !! k = Some n ->
                           <[f := File b]> (st_fs s1) !! k = Some n) /\
              (st_fs s !! key = Some Dir -> <[f := File b]> (st_fs s1) !! key = Some Dir) /\
              (forall b0, st_fs s !! key = Some (File b0) ->
                          exists b', <[f := File b]> (st_fs s1) !! key = Some (File b')))
    as Hframe.
  { intros b. exists f. split; [|split].
    - intros k n Hk H. rewrite lookup_insert_ne by congruence.
      eapply lookup_weaken; eassumption.
    - intros H. exfalso. apply Hnd. eapply lookup_weaken; eassumption.
    - intros b0 _. exists b. apply lookup_insert_eq. }
  destruct (f_write f enc content e _) as [[[]|x] s3] eqn:E3; apply f_write_effect in E3.
  2:{ subst s3. intros [= <- <-]. split; [exact Hc|]. split; [|exact Ht].
      apply (Hframe ""). }
  destruct E3 as [b ->].
  match goal with |- context [last e ?st] => destruct (Hlast st) as [[line ->]|[x ->]] end;
    intros [= <- <-]; cbn [add_events set_fs st_cwd st_fs st_trace];
    rewrite insert_insert_eq.
  - split; [exact Hc|]. split; [apply Hframe|]. exists line. rewrite Ht. reflexivity.
  - split; [exact Hc|]. split; [apply Hframe | exact Ht].
Qed.

(** ** The writers on paths of plain names *)







Lemma spares_tree_writer (path : string) (enc : option codec) (content : string)
    (last : M unit) :
  (forall e s1, (exists line, last e s1 = (Ok tt, add_events s1 [EvPrint line]))
                \/ (exists x, last e s1 = (Raise x, s1))) ->
  spares_tree (bind (makedirs (dirname path))
                 (fun _ => bind (open_w path)
                 (fun f => bind (f_write f enc content) (fun _ => last)))).
Proof.
  intros Hlast e s.
  destruct (bind _ _ e s) as [r s'] eqn:E. cbn [fst snd].
  exact (writer_frame path enc content last e s s' r (Hlast e) E).
Qed.

Lemma print_one_line_or_nothing (t : string) (e : env) (s : state) :
  (exists line, print t e s = (Ok tt, add_events s [EvPrint line]))
  \/ (exists x, print t e s = (Raise x, s)).
Proof.
  unfold print. destruct (encode (env_locale e) t); [left | right]; eexists; reflexivity.
Qed.

(** X1.  Whatever the path, the content, the tree and the locale, and
    however the call ends, none of the five writers ([write_file] three
    times, [create_file], [create_theory_file]) changes the working
    directory, removes an entry, turns a directory into a file or a file
    into a directory, or touches the bytes of more than one file; each has
    printed exactly one line if it returned and nothing if it raised. *)
Theorem writers_spare_the_tree (path content topic_path level : string) :
  spares_tree (FINAL_GENERATOR.write_file path content) /\
  spares_tree (CREATE_FULL_THEORY.write_file path content) /\
  spares_tree (GENERATE_ALL_THEORIES.write_file path content) /\
  spares_tree (generate_all_theory_files.create_file path content) /\
  spares_tree (generate_theories.create_theory_file topic_path level content).
Proof.
  split; [|split; [|split; [|split]]].
  - apply spares_tree_writer. intros e s1.
    destruct (FINAL_GENERATOR.progress_message path) as [line|x].
    + apply print_one_line_or_nothing.
    + right. exists x. reflexivity.
  - apply spares_tree_writer. intros e s1. apply print_one_line_or_nothing.
  - apply spares_tree_writer. intros e s1. unfold bind.
    apply print_one_line_or_nothing.
  - apply spares_tree_writer. intros e s1. apply print_one_line_or_nothing.
  - apply spares_tree_writer. intros e s1. apply print_one_line_or_nothing.
Qed.







(** ** The progress line of FINAL_GENERATOR.py *)

Lemma split_path_of (absolute : bool) (cs : list string) :
  cs <> [] -> forallb plain_name cs = true ->
  split "/" (path_of absolute cs) = (if absolute then [""] else []) ++ cs.
Proof.
  intros Hne Hp. unfold path_of. destruct absolute.
  - change ("/" +:+ String.concat "/" cs) with (String "/" (String.concat "/" cs)).
    cbn [split]. change (Ascii.eqb "/" "/") with true. cbv iota.
    rewrite (split_concat _ Hne Hp). reflexivity.
  - rewrite app_empty_l. apply (split_concat _ Hne Hp).
Qed.

Lemma index_from_end_app {A} (l tl : list A) (k : nat) :
  (1 <= k <= length tl)%nat -> index_from_end (l ++ tl) k = index_from_end tl k.
Proof.
  intros Hk. unfold index_from_end. rewrite length_app.
  destruct (Nat.leb_spec k (length l + length tl)); [|lia].
  destruct (Nat.leb_spec k (length tl)); [|lia].
  rewrite nth_error_app2 by lia. f_equal. lia.
Qed.

(** X6.  What [write_file] of FINAL_GENERATOR.py prints for a path of
    plain names: the names of the last two directories, whatever comes
    before them and whatever the file is called.  With a single directory
    the topic part is empty, and for a bare file name both parts are. *)
Theorem progress_message_last_two_directories (absolute : bool) (dirs : list string)
    (topic level file : string) :
  forallb plain_name (dirs ++ [topic; level; file]) = true ->
  FINAL_GENERATOR.progress_message (path_of absolute (dirs ++ [topic; level; file]))
  = Ok ("  ✓ " +:+ topic +:+ "/" +:+ level) /\
  FINAL_GENERATOR.progress_message (path_of absolute [level; file])
  = Ok ("  ✓ /" +:+ level) /\
  FINAL_GENERATOR.progress_message (path_of absolute [file]) = Ok "  ✓ /".
Proof.
  intros Hp.
  assert (forallb plain_name [topic; level; file] = true) as Hp3.
  { rewrite forallb_app in Hp. apply andb_prop in Hp as [_ Hp]. exact Hp. }
  assert (forallb plain_name [level; file] = true) as Hp2.
  { cbn [forallb] in *. apply andb_prop in Hp3 as [_ Hp3]. exact Hp3. }
  assert (forallb plain_name [file] = true) as Hp1.
  { cbn [forallb] in *. apply andb_prop in Hp2 as [_ Hp2]. exact Hp2. }
  unfold FINAL_GENERATOR.progress_message. split; [|split].
  - rewrite split_path_of by (try exact Hp; destruct dirs; discriminate).
    rewrite app_assoc.
    rewrite !index_from_end_app by (simpl; lia).
    rewrite !length_app. cbn [length].
    destruct (Nat.leb_spec 3 (length (if absolute then [""] else []) + length dirs + 3));
      [|lia].
    destruct (Nat.leb_spec 2 (length (if absolute then [""] else []) + length dirs + 3));
      [|lia].
    reflexivity.
  - rewrite split_path_of by (try exact Hp2; discriminate).
    destruct absolute; reflexivity.
  - rewrite split_path_of by (try exact Hp1; discriminate).
    destruct absolute; reflexivity.
Qed.

Lemma progress_message_last_two_directories_witness :
  forallb plain_name (["srv"; "go_theory"] ++ ["05_functions"; "basic"; "theory.md"]) = true /\
  FINAL_GENERATOR.progress_message "/srv/go_theory/05_functions/basic/theory.md"
  = Ok "  ✓ 05_functions/basic" /\
  FINAL_GENERATOR.progress_message "/basic/theory.md" = Ok "  ✓ /basic" /\
  FINAL_GENERATOR.progress_message "/theory.md" = Ok "  ✓ /".
Proof.
  split; [reflexivity|].
  exact (progress_message_last_two_directories true ["srv"; "go_theory"]
           "05_functions" "basic" "theory.md" eq_refl).
Defined.

(** ** Writing the same file again *)




(** ** [create_file] on the paths the helpers serve *)


(** ** generate_comprehensive_theory.py: one turn of the loop, and a second run *)

Section TopicEdges.
Import generate_comprehensive_theory.



(** A turn of the loop changes nothing in a tree that already holds what
    it makes. *)
Lemma after_topic_id (fs : gmap (list string) node) (t : gmap string pyval) :
  Forall (fun level => all_dirs fs [] (examples_dir (topic_dir t) level) = true)
         (wanted_levels t) ->
  fs !! claude_key (topic_dir t) = Some (File (claude_text t)) ->
  after_topic fs t = fs.
Proof.
  intros Hd Hf. unfold after_topic.
  assert (fold_left (fun fs level => with_dirs fs [] (examples_dir (topic_dir t) level))
                    (wanted_levels t) fs = fs) as ->.
  { induction Hd as [|level lvs H _ IH]; [reflexivity|].
    cbn [fold_left]. rewrite (with_dirs_id _ _ _ H). exact IH. }
  apply insert_id, Hf.
Qed.

Lemma topics_made_id (topics : list (gmap string pyval)) (fs : gmap (list string) node) :
  Forall (fun t =>
            Forall (fun level => all_dirs fs [] (examples_dir (topic_dir t) level) = true)
                   (wanted_levels t) /\
            fs !! claude_key (topic_dir t) = Some (File (claude_text t)))
         topics ->
  fold_left after_topic topics fs = fs.
Proof.
  induction 1 as [|t topics [Hd Hf] _ IH]; [reflexivity|].
  cbn [fold_left]. rewrite (after_topic_id _ _ Hd Hf). exact IH.
Qed.

(** X10.  The loop of [create_all_topics] can be run again: after a run
    from a ready tree, a second run over the same entries (under any
    locale) returns as well, leaves the tree and the working directory
    exactly as the first run left them, and prints the same lines once
    more.  So can the script, over [TOPICS]. *)
Theorem second_run_changes_nothing (topics : list (gmap string pyval)) (e e' : env)
    (s : state) :
  Forall (fun t => topic_ok t = true) topics ->
  NoDup (map topic_dir topics) ->
  tree_ready (map topic_dir topics) (st_fs s) = true ->
  let first := create_all_topics_over topics e s in
  let second := create_all_topics_over topics e' (snd first) in
  fst first = Ok tt /\ fst second = Ok tt /\
  st_fs (snd second) = st_fs (snd first) /\
  st_cwd (snd second) = st_cwd (snd first) /\
  (exists lines,
      length lines = length topics /\
      st_trace (snd first) = st_trace s ++ map EvPrint lines /\
      st_trace (snd second) = st_trace (snd first) ++ map EvPrint lines) /\
  (topics = TOPICS ->
   let run1 := generate_comprehensive_theory.script e s in
   let run2 := generate_comprehensive_theory.script e' (snd run1) in
   fst run1 = Ok tt /\ fst run2 = Ok tt /\
   st_fs (snd run2) = st_fs (snd run1) /\
   exists lines,
     length lines = 22%nat /\
     st_trace (snd run1) = st_trace s ++ map EvPrint lines /\
     st_trace (snd run2) = st_trace (snd run1) ++ map EvPrint lines).
Proof.
  intros Hok Hnd Hr.
  assert (Forall (fun t => topic_ok t = true /\ topic_dir t ∈ map topic_dir topics) topics)
    as Hts.
  { apply Forall_forall. intros t Ht. split.
    - rewrite Forall_forall in Hok. apply Hok, Ht.
    - apply list_elem_of_fmap_2, Ht. }
  destruct (create_all_topics_over_run _ _ e s Hts Hr) as [Hrun Hr1].
  pose proof (topics_made_id topics _ (topics_made topics (st_fs s) Hnd)) as Hid.
  set (fs1 := fold_left after_topic topics (st_fs s)) in *.
  set (lines := map created_line topics) in *.
  set (s1 := add_events (set_fs s fs1) (map EvPrint lines)) in *.
  assert (tree_ready (map topic_dir topics) (st_fs s1) = true) as Hr1' by exact Hr1.
  destruct (create_all_topics_over_run _ _ e' s1 Hts Hr1') as [Hrun2 _].
  change (st_fs s1) with fs1 in Hrun2. rewrite Hid in Hrun2. fold lines in Hrun2.
  assert (forall e0 s0 s0',
            create_all_topics_over topics e0 s0 = (Ok tt, s0') ->
            topics = TOPICS ->
            generate_comprehensive_theory.script e0 s0
            = (Ok tt, add_events s0'
                        (map EvPrint
                           [generate_comprehensive_theory.NL
                            +:+ "All topic structures created!";
                            "Now run the comprehensive content generator..."]))) as Hscript.
  { intros e0 s0 s0' H0 HT.
    unfold generate_comprehensive_theory.script, create_all_topics.
    rewrite <- HT. unfold bind at 1. rewrite H0. run_prints. reflexivity. }
  intros first second. unfold second, first. rewrite Hrun. cbn [fst snd]. rewrite Hrun2.
  cbn [fst snd].
  split; [reflexivity|]. split; [reflexivity|]. split; [reflexivity|].
  split; [reflexivity|]. split.
  { exists lines. split; [apply length_map|]. split; reflexivity. }
  intros HT. cbv zeta.
  rewrite (Hscript e s _ Hrun HT). cbn [fst snd].
  set (closing := [generate_comprehensive_theory.NL +:+ "All topic structures created!";
                   "Now run the comprehensive content generator..."]) in *.
  set (s1' := add_events s1 (map EvPrint closing)).
  assert (tree_ready (map topic_dir topics) (st_fs s1') = true) as Hr2 by exact Hr1.
  destruct (create_all_topics_over_run _ _ e' s1' Hts Hr2) as [Hrun3 _].
  change (st_fs s1') with fs1 in Hrun3. rewrite Hid in Hrun3. fold lines in Hrun3.
  rewrite (Hscript e' s1' _ Hrun3 HT). cbn [fst snd].
  split; [reflexivity|]. split; [reflexivity|]. split; [reflexivity|].
  exists (lines ++ closing). split; [|split].
  - rewrite length_app. unfold lines. rewrite length_map, HT. reflexivity.
  - unfold s1', s1, add_events, set_fs. cbn [st_trace st_fs st_cwd].
    rewrite map_app, app_assoc. reflexivity.
  - unfold s1', s1, add_events, set_fs. cbn [st_trace st_fs st_cwd].
    rewrite map_app, !app_assoc. reflexivity.
Qed.

End TopicEdges.


Lemma second_run_changes_nothing_witness :
  let topics := generate_comprehensive_theory.TOPICS in
  let e := mkEnv utf_8 "generate_comprehensive_theory.py" None in
  let e' := mkEnv latin_1 "generate_comprehensive_theory.py" None in
  let s := Sample.mounted_start in
  (Forall (fun t => generate_comprehensive_theory.topic_ok t = true) topics /\
   NoDup (map generate_comprehensive_theory.topic_dir topics) /\
   generate_comprehensive_theory.tree_ready
     (map generate_comprehensive_theory.topic_dir topics) (st_fs s) = true) /\
  let run1 := generate_comprehensive_theory.script e s in
  let run2 := generate_comprehensive_theory.script e' (snd run1) in
  fst run1 = Ok tt /\ fst run2 = Ok tt /\
  st_fs (snd run2) = st_fs (snd run1) /\
  exists lines,
    length lines = 22%nat /\
    st_trace (snd run1) = st_trace s ++ map EvPrint lines /\
    st_trace (snd run2) = st_trace (snd run1) ++ map EvPrint lines.
Proof.
  intros topics e e' s.
  assert (Forall (fun t => generate_comprehensive_theory.topic_ok t = true) topics) as H1.
  { unfold topics, generate_comprehensive_theory.TOPICS.
    repeat (apply Forall_cons; split; [vm_compute; reflexivity|]). constructor. }
  assert (NoDup (map generate_comprehensive_theory.topic_dir topics)) as H2
    by (refine (bool_decide_unpack _ _); vm_compute; exact I).
  assert (generate_comprehensive_theory.tree_ready
            (map generate_comprehensive_theory.topic_dir topics) (st_fs s) = true) as H3
    by (vm_compute; reflexivity).
  split; [repeat split; assumption|].
  destruct (second_run_changes_nothing topics e e' s H1 H2 H3) as (_ & _ & _ & _ & _ & H).
  exact (H eq_refl).
Defined.
